(** * Batch assembly and sampling-index resolution of [NeuronModelRunner]

    A shallow embedding of [vllm/worker/neuron_model_runner.py]:
    the padding builder ([_pad_to_max], [_make_tensor_with_pad]), the
    prefill and decode batch builders ([_prepare_prompt],
    [_prepare_decode]), the sampling index resolver ([_prepare_sample])
    and the orchestrator ([prepare_input_tensors]).

    Python integers are [Z]; Python lists are [list]; a tensor built by
    [torch.tensor] from a list (of lists) of integers is that list (of
    lists); the width of the tensor element types is not modelled.  A
    Python exception is a value of [PyError] carried by [result]; an
    exception ends the step, and what the step had built or written
    until then is not kept.  The functions that mutate the per-request
    state object thread an explicit [World]. *)

From stdpp Require Import base numbers list list_numbers gmap sorting.

Local Open Scope Z_scope.

(** ** Exceptions *)

Inductive PyError : Set :=
  | AssertionError
  | IndexError
  | KeyError
  | ValueError.

Inductive result (A : Type) : Type :=
  | Ok (a : A)
  | Raise (e : PyError).

Arguments Ok {A} a.
Arguments Raise {A} e.

#[global] Instance result_ret : MRet result := @Ok.

#[global] Instance result_bind : MBind result :=
  λ A B k m,
    match m with
    | Ok a => k a
    | Raise e => Raise e
    end.

(** [assert b] *)
Definition py_assert (b : bool) : result unit :=
  if b then Ok tt else Raise AssertionError.

Definition is_Raise {A : Type} (m : result A) : Prop := ∃ e, m = Raise e.

(** [x is not None] *)
Definition is_not_None {A : Type} (x : option A) : bool :=
  match x with
  | Some _ => true
  | None => false
  end.

(** [len(x)] *)
Definition len {A : Type} (x : list A) : Z := Z.of_nat (length x).

(** [range(a, b)]: empty when [b <= a]. *)
Definition py_range (a b : Z) : list Z := seqZ a (b - a).

(** [max(x)] on a list of integers; Python raises [ValueError] on the
    empty list. *)
Definition py_max (x : list Z) : result Z :=
  match x with
  | [] => Raise ValueError
  | x0 :: xs => Ok (foldl Z.max x0 xs)
  end.

(** A list comprehension [[f(x_i) for x_i in x]] whose body may raise:
    the first exception ends it. *)
Fixpoint comprehension {A B : Type} (f : A → result B) (x : list A)
  : result (list B) :=
  match x with
  | [] => Ok []
  | x_i :: rest =>
      y ← f x_i;
      ys ← comprehension f rest;
      Ok (y :: ys)
  end.

(** ** Padding / tensor builder *)

(** [[pad] * n]: the empty list when [n <= 0]. *)
Definition py_repeat (pad : Z) (n : Z) : list Z := replicate (Z.to_nat n) pad.

Definition _pad_to_max (x : list Z) (max_len : Z) (pad : Z) : result (list Z) :=
  py_assert (len x <=? max_len) ;;
  Ok (x ++ py_repeat pad (max_len - len x)).

Definition _make_tensor_with_pad (x : list (list Z)) (max_len : Z) (pad : Z)
  : result (list (list Z)) :=
  comprehension (λ x_i, _pad_to_max x_i max_len pad) x.

(** [_async_h2d]: the host-to-device transfer keeps the values. *)
Definition _async_h2d (data : list Z) : list Z := data.

(** ** Data model *)

(** Modelled from the spec: [SamplingType] lives in
    [vllm/sampling_params.py]; the strategy tag is a closed enumeration
    (deterministic, stochastic, seeded stochastic, beam). *)
Inductive SamplingType : Set := GREEDY | RANDOM | RANDOM_SEED | BEAM.

#[global] Instance SamplingType_eq_dec : EqDecision SamplingType.
Proof. solve_decision. Defined.

(** Modelled from the spec: [SamplingParams] lives in
    [vllm/sampling_params.py]; the resolver reads the strategy tag, the
    optional seed and the optional [prompt_logprobs] request. *)
Record SamplingParams : Set := {
  sampling_type : SamplingType;
  seed : option Z;
  prompt_logprobs : option Z;
}.

(** Modelled from the spec: [SequenceData] lives in [vllm/sequence.py];
    it is an ordered sequence of prompt and generated token ids that
    exposes all token ids, the last token id and the current length. *)
Record SequenceData : Set := { token_ids : list Z }.

Definition get_token_ids (sd : SequenceData) : list Z := token_ids sd.
Definition get_len (sd : SequenceData) : Z := len (token_ids sd).
Definition get_last_token_id (sd : SequenceData) : result Z :=
  match last (token_ids sd) with
  | Some t => Ok t
  | None => Raise IndexError
  end.

(** Modelled from the spec: a [torch.Generator] is a handle with an
    identity; two handles made by two calls are two objects even when
    they carry the same seed. *)
Record Generator : Set := { gen_id : nat; gen_seed : Z }.

#[global] Instance Generator_eq_dec : EqDecision Generator.
Proof. solve_decision. Defined.

(** The mutable part of the process the runner touches: the allocator of
    generator handles and, for every per-request state object (by
    address), the generator attached to it, if any. *)
Record World : Type := {
  next_generator : nat;
  generator_of : gmap nat Generator;
}.

(** [torch.Generator(device="cuda").manual_seed(seed)] *)
Definition new_generator (s : Z) (w : World) : Generator * World :=
  ({| gen_id := next_generator w; gen_seed := s |},
   {| next_generator := S (next_generator w);
      generator_of := generator_of w |}).

(** [state.generator = g] on the state object at [addr] *)
Definition set_generator (addr : nat) (g : Generator) (w : World) : World :=
  {| next_generator := next_generator w;
     generator_of := <[addr := g]> (generator_of w) |}.

(** [state.generator] ([None] when never set) *)
Definition get_generator (addr : nat) (w : World) : option Generator :=
  generator_of w !! addr.

(** Modelled from the spec: [SequenceGroupMetadata] lives in
    [vllm/sequence.py].  [seq_data] and [block_tables] are dicts keyed by
    sequence id; [seq_data] is iterated, so it is kept in insertion order;
    [state] is the address of the request's persistent state object, the
    same at every step of the request. *)
Record SequenceGroupMetadata : Type := {
  is_prompt : bool;
  seq_data : list (Z * SequenceData);
  sampling_params : SamplingParams;
  block_tables : option (gmap Z (list Z));
  state : nat;
}.

(** [list(seq_group_metadata.seq_data.keys())] *)
Definition seq_ids_of (r : SequenceGroupMetadata) : list Z := (seq_data r).*1.

(** [seq_group_metadata.block_tables[seq_id]], followed by the assertion
    on its length and [block_table[0]]. *)
Definition single_block (r : SequenceGroupMetadata) (seq_id : Z) : result Z :=
  match block_tables r with
  | None => Raise AssertionError
  | Some tables =>
      match tables !! seq_id with
      | None => Raise KeyError
      | Some block_table =>
          py_assert (len block_table =? 1) ;;
          match block_table with
          | b :: _ => Ok b
          | [] => Raise IndexError
          end
      end
  end.

(** ** Prefill batch builder *)

Record PromptLocals : Set := {
  p_input_tokens : list (list Z);
  p_input_positions : list (list Z);
  p_input_block_ids : list Z;
  p_prompt_lens : list Z;
  p_context_lens : list Z;
  p_subquery_lens : list Z;
}.

Definition prompt_locals0 : PromptLocals :=
  {| p_input_tokens := []; p_input_positions := []; p_input_block_ids := [];
     p_prompt_lens := []; p_context_lens := []; p_subquery_lens := [] |}.

(** One iteration of the loop of [_prepare_prompt]. *)
Definition prompt_body (r : SequenceGroupMetadata) (st : PromptLocals)
  : result PromptLocals :=
  py_assert (is_prompt r) ;;
  py_assert (len (seq_ids_of r) =? 1) ;;
  match seq_data r with
  | [] => Raise IndexError
  | (seq_id, sd) :: _ =>
      let prompt_tokens := get_token_ids sd in
      let prompt_len := len prompt_tokens in
      let computed_len := 0 in
      block ← single_block r seq_id;
      Ok {| p_input_tokens := p_input_tokens st ++ [prompt_tokens];
            p_input_positions :=
              p_input_positions st
              ++ [py_range computed_len (computed_len + len prompt_tokens)];
            p_input_block_ids := p_input_block_ids st ++ [block];
            p_prompt_lens := p_prompt_lens st ++ [prompt_len];
            p_context_lens := p_context_lens st ++ [computed_len];
            p_subquery_lens := p_subquery_lens st ++ [prompt_len - computed_len] |}
  end.

Fixpoint prompt_loop (batch : list SequenceGroupMetadata) (st : PromptLocals)
  : result PromptLocals :=
  match batch with
  | [] => Ok st
  | r :: rest => st' ← prompt_body r st; prompt_loop rest st'
  end.

(** What [_prepare_prompt] returns: [(input_tokens, input_positions,
    input_block_ids, prompt_lens, subquery_lens)]. *)
Record PromptOutput : Set := {
  po_input_tokens : list (list Z);
  po_input_positions : list (list Z);
  po_input_block_ids : list Z;
  po_prompt_lens : list Z;
  po_subquery_lens : list Z;
}.

Definition _prepare_prompt (seq_group_metadata_list : list SequenceGroupMetadata)
  : result PromptOutput :=
  py_assert (0 <? len seq_group_metadata_list) ;;
  st ← prompt_loop seq_group_metadata_list prompt_locals0;
  max_prompt_len ← py_max (p_subquery_lens st);
  py_assert (0 <? max_prompt_len) ;;
  input_tokens ← _make_tensor_with_pad (p_input_tokens st) max_prompt_len 0;
  input_positions ← _make_tensor_with_pad (p_input_positions st) max_prompt_len 0;
  Ok {| po_input_tokens := input_tokens;
        po_input_positions := input_positions;
        po_input_block_ids := p_input_block_ids st;
        po_prompt_lens := p_prompt_lens st;
        po_subquery_lens := p_subquery_lens st |}.

(** ** Decode batch builder *)

Record DecodeLocals : Set := {
  d_input_tokens : list (list Z);
  d_input_positions : list (list Z);
  d_input_block_ids : list Z;
  d_context_lens : list Z;
}.

Definition decode_locals0 : DecodeLocals :=
  {| d_input_tokens := []; d_input_positions := [];
     d_input_block_ids := []; d_context_lens := [] |}.

(** One iteration of the inner loop, for the entry [seq_id: seq_data] of
    the request's [seq_data] dict. *)
Definition decode_seq_body (sliding_window : option Z) (r : SequenceGroupMetadata)
    (entry : Z * SequenceData) (st : DecodeLocals) : result DecodeLocals :=
  let '(seq_id, sd) := entry in
  generation_token ← get_last_token_id sd;
  let seq_len := get_len sd in
  let position := seq_len - 1 in
  let context_len :=
    match sliding_window with
    | None => seq_len
    | Some sw => Z.min seq_len sw
    end in
  block ← single_block r seq_id;
  Ok {| d_input_tokens := d_input_tokens st ++ [[generation_token]];
        d_input_positions := d_input_positions st ++ [[position]];
        d_input_block_ids := d_input_block_ids st ++ [block];
        d_context_lens := d_context_lens st ++ [context_len] |}.

(** [for seq_id in seq_ids: seq_data = seq_group_metadata.seq_data[seq_id]]
    visits the entries of the dict once each, in insertion order. *)
Fixpoint decode_seq_loop (sliding_window : option Z) (r : SequenceGroupMetadata)
    (entries : list (Z * SequenceData)) (st : DecodeLocals) : result DecodeLocals :=
  match entries with
  | [] => Ok st
  | e :: rest =>
      st' ← decode_seq_body sliding_window r e st;
      decode_seq_loop sliding_window r rest st'
  end.

Definition decode_body (sliding_window : option Z) (r : SequenceGroupMetadata)
    (st : DecodeLocals) : result DecodeLocals :=
  py_assert (negb (is_prompt r)) ;;
  decode_seq_loop sliding_window r (seq_data r) st.

Fixpoint decode_loop (sliding_window : option Z)
    (batch : list SequenceGroupMetadata) (st : DecodeLocals) : result DecodeLocals :=
  match batch with
  | [] => Ok st
  | r :: rest =>
      st' ← decode_body sliding_window r st;
      decode_loop sliding_window rest st'
  end.

(** The local variables of [_prepare_decode] just before its [return]:
    the two padded tensors, the block ids and the context lengths. *)
Definition decode_locals (sliding_window : option Z)
    (seq_group_metadata_list : list SequenceGroupMetadata) : result DecodeLocals :=
  py_assert (0 <? len seq_group_metadata_list) ;;
  st ← decode_loop sliding_window seq_group_metadata_list decode_locals0;
  input_tokens ← _make_tensor_with_pad (d_input_tokens st) 1 0;
  input_positions ← _make_tensor_with_pad (d_input_positions st) 1 0;
  Ok {| d_input_tokens := input_tokens;
        d_input_positions := input_positions;
        d_input_block_ids := d_input_block_ids st;
        d_context_lens := d_context_lens st |}.

(** What [_prepare_decode] returns: [(input_tokens, input_positions,
    input_block_ids)]. *)
Record DecodeOutput : Set := {
  do_input_tokens : list (list Z);
  do_input_positions : list (list Z);
  do_input_block_ids : list Z;
}.

Definition _prepare_decode (sliding_window : option Z)
    (seq_group_metadata_list : list SequenceGroupMetadata) : result DecodeOutput :=
  st ← decode_locals sliding_window seq_group_metadata_list;
  Ok {| do_input_tokens := d_input_tokens st;
        do_input_positions := d_input_positions st;
        do_input_block_ids := d_input_block_ids st |}.

(** ** Sampling index resolver *)

(** [categorized_sample_indices]: a dict with one list per member of
    [SamplingType]. *)
Definition bucket_extend (t : SamplingType) (xs : list Z)
    (cat : SamplingType → list Z) : SamplingType → list Z :=
  λ t', if decide (t' = t) then cat t' ++ xs else cat t'.

Record SampleLocals : Type := {
  seq_groups : list (list Z * SamplingParams);
  selected_token_indices : list Z;
  generators : list (option Generator);
  selected_token_start_idx : Z;
  categorized_sample_indices : SamplingType → list Z;
  categorized_sample_indices_start_idx : Z;
  world : World;
}.

Definition sample_locals0 (w : World) : SampleLocals :=
  {| seq_groups := [];
     selected_token_indices := [];
     generators := [];
     selected_token_start_idx := 0;
     categorized_sample_indices := λ _, [];
     categorized_sample_indices_start_idx := 0;
     world := w |}.

(** [max(subquery_lens) if subquery_lens else 1]: [None] and the empty
    list are both falsy. *)
Definition max_subquery_len_of (subquery_lens : option (list Z)) : result Z :=
  match subquery_lens with
  | Some (s :: ss) => py_max (s :: ss)
  | _ => Ok 1
  end.

(** [subquery_lens[i]] after [assert subquery_lens is not None]. *)
Definition subquery_len_at (subquery_lens : option (list Z)) (i : nat) : result Z :=
  match subquery_lens with
  | None => Raise AssertionError
  | Some l =>
      match l !! i with
      | Some s => Ok s
      | None => Raise IndexError
      end
  end.

(** The branch [if seq_group_metadata.is_prompt:] of the loop body. *)
Definition sample_prompt_branch (max_subquery_len : Z)
    (subquery_lens : option (list Z)) (i : nat)
    (r : SequenceGroupMetadata) (st : SampleLocals) : result SampleLocals :=
  let sp := sampling_params r in
  py_assert (len (seq_ids_of r) =? 1) ;;
  subquery_len ← subquery_len_at subquery_lens i;
  let cat_idx :=
    if is_not_None (prompt_logprobs sp)
    then categorized_sample_indices_start_idx st + (subquery_len - 1)
    else categorized_sample_indices_start_idx st in
  let start := selected_token_start_idx st in
  let selected :=
    if is_not_None (prompt_logprobs sp)
    then selected_token_indices st ++ py_range start (start + subquery_len - 1)
    else selected_token_indices st in
  Ok {| seq_groups := seq_groups st;
        selected_token_indices := selected ++ [start + subquery_len - 1];
        generators := generators st;
        selected_token_start_idx := start + max_subquery_len;
        categorized_sample_indices :=
          bucket_extend (sampling_type sp) [cat_idx] (categorized_sample_indices st);
        categorized_sample_indices_start_idx := cat_idx + 1;
        world :=
          match seed sp with
          | Some s =>
              let '(g, w) := new_generator s (world st) in
              set_generator (state r) g w
          | None => world st
          end |}.

(** The [else:] branch of the loop body. *)
Definition sample_decode_branch (r : SequenceGroupMetadata) (st : SampleLocals)
  : SampleLocals :=
  let sp := sampling_params r in
  let num_seqs := len (seq_ids_of r) in
  let start := selected_token_start_idx st in
  let cat_start := categorized_sample_indices_start_idx st in
  {| seq_groups := seq_groups st;
     selected_token_indices :=
       selected_token_indices st ++ py_range start (start + num_seqs);
     generators := generators st;
     selected_token_start_idx := start + num_seqs;
     categorized_sample_indices :=
       bucket_extend (sampling_type sp) (py_range cat_start (cat_start + num_seqs))
         (categorized_sample_indices st);
     categorized_sample_indices_start_idx := cat_start + num_seqs;
     world := world st |}.

(** The statements before and after the two branches. *)
Definition sample_push_group (r : SequenceGroupMetadata) (st : SampleLocals)
  : SampleLocals :=
  {| seq_groups := seq_groups st ++ [(seq_ids_of r, sampling_params r)];
     selected_token_indices := selected_token_indices st;
     generators := generators st;
     selected_token_start_idx := selected_token_start_idx st;
     categorized_sample_indices := categorized_sample_indices st;
     categorized_sample_indices_start_idx := categorized_sample_indices_start_idx st;
     world := world st |}.

Definition sample_push_generator (r : SequenceGroupMetadata) (st : SampleLocals)
  : SampleLocals :=
  {| seq_groups := seq_groups st;
     selected_token_indices := selected_token_indices st;
     generators :=
       if is_not_None (seed (sampling_params r))
       then generators st ++ [get_generator (state r) (world st)]
       else generators st;
     selected_token_start_idx := selected_token_start_idx st;
     categorized_sample_indices := categorized_sample_indices st;
     categorized_sample_indices_start_idx := categorized_sample_indices_start_idx st;
     world := world st |}.

(** One iteration of [for i, seq_group_metadata in enumerate(...)]. *)
Definition sample_body (max_subquery_len : Z) (subquery_lens : option (list Z))
    (i : nat) (r : SequenceGroupMetadata) (st : SampleLocals) : result SampleLocals :=
  let st1 := sample_push_group r st in
  st2 ← (if is_prompt r
         then sample_prompt_branch max_subquery_len subquery_lens i r st1
         else Ok (sample_decode_branch r st1));
  Ok (sample_push_generator r st2).

Fixpoint sample_loop (max_subquery_len : Z) (subquery_lens : option (list Z))
    (i : nat) (batch : list SequenceGroupMetadata) (st : SampleLocals)
  : result SampleLocals :=
  match batch with
  | [] => Ok st
  | r :: rest =>
      st' ← sample_body max_subquery_len subquery_lens i r st;
      sample_loop max_subquery_len subquery_lens (S i) rest st'
  end.

(** [seq_data.update(seq_group_metadata.seq_data)] over the batch. *)
Definition merged_seq_data (batch : list SequenceGroupMetadata)
  : gmap Z SequenceData :=
  foldl (λ m r, foldl (λ m e, <[e.1 := e.2]> m) m (seq_data r)) ∅ batch.

Record SamplingMetadata : Type := {
  sm_seq_groups : list (list Z * SamplingParams);
  sm_seq_data : gmap Z SequenceData;
  sm_prompt_lens : list Z;
  sm_selected_token_indices : list Z;
  sm_categorized_sample_indices : SamplingType → list Z;
  sm_generators : list (option Generator);
}.

Definition _prepare_sample (seq_group_metadata_list : list SequenceGroupMetadata)
    (prompt_lens : list Z) (subquery_lens : option (list Z)) (w : World)
  : result (SamplingMetadata * World) :=
  max_subquery_len ← max_subquery_len_of subquery_lens;
  st ← sample_loop max_subquery_len subquery_lens 0 seq_group_metadata_list
         (sample_locals0 w);
  Ok ({| sm_seq_groups := seq_groups st;
         sm_seq_data := merged_seq_data seq_group_metadata_list;
         sm_prompt_lens := prompt_lens;
         sm_selected_token_indices := _async_h2d (selected_token_indices st);
         sm_categorized_sample_indices :=
           λ t, _async_h2d (categorized_sample_indices st t);
         sm_generators := generators st |},
      world st).

(** ** Batch orchestrator *)

Record AssembledBatch : Type := {
  input_tokens : list (list Z);
  input_positions : list (list Z);
  input_block_ids : list Z;
  sampling_metadata : SamplingMetadata;
}.

Definition prepare_input_tensors (sliding_window : option Z)
    (seq_group_metadata_list : list SequenceGroupMetadata) (w : World)
  : result (AssembledBatch * World) :=
  match seq_group_metadata_list with
  | [] => Raise IndexError
  | first :: _ =>
      if is_prompt first then
        po ← _prepare_prompt seq_group_metadata_list;
        '(md, w') ← _prepare_sample seq_group_metadata_list
                      (po_prompt_lens po) (Some (po_subquery_lens po)) w;
        Ok ({| input_tokens := po_input_tokens po;
               input_positions := po_input_positions po;
               input_block_ids := po_input_block_ids po;
               sampling_metadata := md |}, w')
      else
        do ← _prepare_decode sliding_window seq_group_metadata_list;
        '(md, w') ← _prepare_sample seq_group_metadata_list [] None w;
        Ok ({| input_tokens := do_input_tokens do;
               input_positions := do_input_positions do;
               input_block_ids := do_input_block_ids do;
               sampling_metadata := md |}, w')
  end.


(** ** Specification vocabulary *)

(** The row the padding builder must produce: the original values
    followed by the fill value repeated to reach length [L]. *)
Definition padded_row (L pad : Z) (row : list Z) : list Z :=
  row ++ replicate (Z.to_nat (L - len row)) pad.

(** [M] is the maximum of [l]. *)
Definition is_max (M : Z) (l : list Z) : Prop :=
  M ∈ l ∧ Forall (λ s, s ≤ M) l.

Definition Zsum (l : list Z) : Z := foldr Z.add 0 l.

Definition has_prompt_logprobs (r : SequenceGroupMetadata) : bool :=
  is_not_None (prompt_logprobs (sampling_params r)).

Definition is_seeded (r : SequenceGroupMetadata) : bool :=
  is_not_None (seed (sampling_params r)).

Definition num_seqs_of (r : SequenceGroupMetadata) : Z := len (seq_data r).

(** The request maps [seq_id] to a block table of exactly one block. *)
Definition has_single_block (r : SequenceGroupMetadata) (seq_id : Z) : bool :=
  match block_tables r with
  | Some tables =>
      match tables !! seq_id with
      | Some [_] => true
      | _ => false
      end
  | None => false
  end.

(** The preconditions of a prefill request: prompt phase, exactly one
    sequence, exactly one storage block. *)
Definition prefill_request_ok (r : SequenceGroupMetadata) : bool :=
  is_prompt r &&
  match seq_data r with
  | [(seq_id, _)] => has_single_block r seq_id
  | _ => false
  end.

(** The prompt length of a prefill request (its subquery length too). *)
Definition prompt_len_of (r : SequenceGroupMetadata) : Z :=
  match seq_data r with
  | (_, sd) :: _ => get_len sd
  | [] => 0
  end.

Definition nonempty_prompt (r : SequenceGroupMetadata) : bool :=
  0 <? prompt_len_of r.

(** A decode request: decode phase, every sequence has a last token and
    exactly one storage block. *)
Definition decode_request_ok (r : SequenceGroupMetadata) : bool :=
  negb (is_prompt r) &&
  forallb (λ e : Z * SequenceData,
             negb (bool_decide (token_ids e.2 = [])) && has_single_block r e.1)
          (seq_data r).

Definition has_sequences (r : SequenceGroupMetadata) : bool :=
  0 <? num_seqs_of r.

(** A batch the scheduler may hand over: not empty, and either all
    prefill requests or all decode requests, each meeting the
    preconditions of its phase. *)
Definition prefill_batch_ok (batch : list SequenceGroupMetadata) : bool :=
  negb (bool_decide (batch = [])) && forallb prefill_request_ok batch.

Definition decode_batch_ok (batch : list SequenceGroupMetadata) : bool :=
  negb (bool_decide (batch = [])) && forallb decode_request_ok batch.

(** Every sequence of a decode batch with the request that owns it, in
    row order. *)
Definition all_sequences (batch : list SequenceGroupMetadata)
  : list (SequenceGroupMetadata * (Z * SequenceData)) :=
  r ← batch; (λ e, (r, e)) <$> seq_data r.

(** Context length of a sequence of length [n]. *)
Definition clipped (sliding_window : option Z) (n : Z) : Z :=
  match sliding_window with
  | None => n
  | Some sw => Z.min n sw
  end.

(** The selected indices of an all-prefill batch, in the words of the
    spec: a cursor that advances by [M] after each request; a request
    contributes the range [[cursor, cursor + sub - 1)] when it asks for
    [prompt_logprobs], and then always [cursor + sub - 1]. *)
Fixpoint prefill_selected (M cursor : Z) (reqs : list (SequenceGroupMetadata * Z))
  : list Z :=
  match reqs with
  | [] => []
  | (r, sub) :: rest =>
      (if has_prompt_logprobs r then seqZ cursor (sub - 1) else [])
      ++ [cursor + sub - 1]
      ++ prefill_selected M (cursor + M) rest
  end.

(** What a selected row is read for: only for the log-probabilities of
    an earlier prompt position, or for the next-token decision of a
    request with strategy [t]. *)
Inductive Role : Set :=
  | LogprobOnly
  | Decision (t : SamplingType).

#[global] Instance Role_eq_dec : EqDecision Role.
Proof. solve_decision. Defined.

(** The selected rows of one request, each with its role.  [sub] is the
    subquery length of a prefill request (unused for a decode request). *)
Definition request_rows (cursor : Z) (r : SequenceGroupMetadata) (sub : Z)
  : list (Z * Role) :=
  let t := sampling_type (sampling_params r) in
  if is_prompt r then
    (if has_prompt_logprobs r
     then (λ k, (k, LogprobOnly)) <$> seqZ cursor (sub - 1)
     else [])
    ++ [(cursor + sub - 1, Decision t)]
  else (λ k, (k, Decision t)) <$> seqZ cursor (num_seqs_of r).

(** How many rows of the model output one request occupies. *)
Definition request_stride (M : Z) (r : SequenceGroupMetadata) : Z :=
  if is_prompt r then M else num_seqs_of r.

Fixpoint batch_rows (M cursor : Z) (reqs : list (SequenceGroupMetadata * Z))
  : list (Z * Role) :=
  match reqs with
  | [] => []
  | (r, sub) :: rest =>
      request_rows cursor r sub
      ++ batch_rows M (cursor + request_stride M r) rest
  end.

(** Every request of a batch with its subquery length: the prompt length
    in a prefill batch; a decode batch has none. *)
Definition with_subquery_lens (batch : list SequenceGroupMetadata)
  : list (SequenceGroupMetadata * Z) :=
  (λ r, (r, if is_prompt r then prompt_len_of r else 0)) <$> batch.

(** The batch-wide maximum subquery length ([1] for a decode batch). *)
Definition batch_max_subquery_len (batch : list SequenceGroupMetadata) : Z :=
  match batch with
  | r :: rest =>
      if is_prompt r then foldl Z.max (prompt_len_of r) (prompt_len_of <$> rest)
      else 1
  | [] => 1
  end.

(** The selected rows of a whole batch with their roles. *)
Definition selected_rows (batch : list SequenceGroupMetadata) : list (Z * Role) :=
  batch_rows (batch_max_subquery_len batch) 0 (with_subquery_lens batch).

(** The positions, counted from [base], of the rows read for a decision
    with strategy [t]. *)
Fixpoint decision_positions (t : SamplingType) (base : Z) (roles : list Role)
  : list Z :=
  match roles with
  | [] => []
  | role :: rest =>
      (if decide (role = Decision t) then [base] else [])
      ++ decision_positions t (base + 1) rest
  end.

(** The indices a request adds to the selected list beyond its one
    decision index. *)
Definition extra_indices (r : SequenceGroupMetadata) : Z :=
  if is_prompt r
  then (if has_prompt_logprobs r then prompt_len_of r - 1 else 0)
  else num_seqs_of r - 1.

(** The identity of a request across steps: its state object and seed. *)
Definition request_identity (r : SequenceGroupMetadata) : nat * option Z :=
  (state r, seed (sampling_params r)).

(** The generator handles a decode step reads: the one attached to the
    state of every seeded request, once per request. *)
Definition attached_generators (w : World) (batch : list SequenceGroupMetadata)
  : list (option Generator) :=
  (λ r, get_generator (state r) w) <$> filter (λ r, is_seeded r = true) batch.

(** The prompt tokens of a prefill request. *)
Definition prompt_tokens_of (r : SequenceGroupMetadata) : list Z :=
  match seq_data r with
  | (_, sd) :: _ => get_token_ids sd
  | [] => []
  end.

(** Violations of the prefill contract: more than one sequence, or more
    than one storage block for the sequence. *)
Definition has_many_sequences (r : SequenceGroupMetadata) : bool :=
  1 <? num_seqs_of r.

Definition has_many_blocks (r : SequenceGroupMetadata) : bool :=
  match seq_data r, block_tables r with
  | [(seq_id, _)], Some tables =>
      match tables !! seq_id with
      | Some block_table => 1 <? len block_table
      | None => false
      end
  | _, _ => false
  end.

Definition violates_prefill_contract (r : SequenceGroupMetadata) : bool :=
  has_many_sequences r || has_many_blocks r.

(** The token row of a decode sequence: its last token id, alone. *)
Definition token_row (row : list Z) (re : SequenceGroupMetadata * (Z * SequenceData))
  : Prop :=
  ∃ t, last (token_ids re.2.2) = Some t ∧ row = [t].

(** The storage block of a decode sequence: the only entry of the block
    table its request holds for it. *)
Definition block_row (b : Z) (re : SequenceGroupMetadata * (Z * SequenceData))
  : Prop :=
  ∃ tables, block_tables re.1 = Some tables ∧ tables !! re.2.1 = Some [b].

Definition position_row (re : SequenceGroupMetadata * (Z * SequenceData)) : list Z :=
  [get_len re.2.2 - 1].

Definition context_len_of (sliding_window : option Z)
    (re : SequenceGroupMetadata * (Z * SequenceData)) : Z :=
  clipped sliding_window (get_len re.2.2).

(** The triple [_prepare_decode] returns, taken from its locals. *)
Definition returned_of (st : DecodeLocals) : DecodeOutput :=
  {| do_input_tokens := d_input_tokens st;
     do_input_positions := d_input_positions st;
     do_input_block_ids := d_input_block_ids st |}.

(** ** The resolver, request by request *)

(** What one request appends to the bucket of its strategy, with the
    bucket cursor at [ccur]. *)
Definition request_bucket (ccur : Z) (r : SequenceGroupMetadata) (sub : Z) : list Z :=
  if is_prompt r
  then [if has_prompt_logprobs r then ccur + (sub - 1) else ccur]
  else seqZ ccur (num_seqs_of r).

(** How far one request moves the bucket cursor. *)
Definition bucket_stride (r : SequenceGroupMetadata) (sub : Z) : Z :=
  if is_prompt r
  then (if has_prompt_logprobs r then sub - 1 else 0) + 1
  else num_seqs_of r.

Fixpoint batch_bucket (t : SamplingType) (ccur : Z)
    (reqs : list (SequenceGroupMetadata * Z)) : list Z :=
  match reqs with
  | [] => []
  | (r, sub) :: rest =>
      (if decide (sampling_type (sampling_params r) = t)
       then request_bucket ccur r sub else [])
      ++ batch_bucket t (ccur + bucket_stride r sub) rest
  end.

(** The world after the resolver has passed one request: a seeded
    prefill request gets a new generator attached to its state. *)
Definition world_after_request (r : SequenceGroupMetadata) (w : World) : World :=
  if is_prompt r then
    match seed (sampling_params r) with
    | Some s => let '(g, w') := new_generator s w in set_generator (state r) g w'
    | None => w
    end
  else w.

Definition world_after (batch : list SequenceGroupMetadata) (w : World) : World :=
  foldl (λ w r, world_after_request r w) w batch.

Fixpoint batch_generators (w : World) (batch : list SequenceGroupMetadata)
  : list (option Generator) :=
  match batch with
  | [] => []
  | r :: rest =>
      let w' := world_after_request r w in
      (if is_seeded r then [get_generator (state r) w'] else [])
      ++ batch_generators w' rest
  end.

(** The resolver can serve request [rs.1] at index [i] with subquery
    length [rs.2]: a prefill request has one sequence and finds its
    subquery length at [i]. *)
Definition resolvable (subquery_lens : option (list Z)) (i : nat)
    (rs : SequenceGroupMetadata * Z) : Prop :=
  is_prompt rs.1 = true →
  length (seq_data rs.1) = 1%nat ∧ subquery_len_at subquery_lens i = Ok rs.2.

(** A batch that meets every precondition the builders assert: an
    all-prefill batch (with a positive maximum prompt length) or an
    all-decode batch. *)
Definition valid_batch (batch : list SequenceGroupMetadata) : bool :=
  (prefill_batch_ok batch && (0 <? batch_max_subquery_len batch))
  || decode_batch_ok batch.

(** No prefill request of the batch has an empty prompt. *)
Definition nonempty_prompts (batch : list SequenceGroupMetadata) : bool :=
  forallb (λ r, negb (is_prompt r) || nonempty_prompt r) batch.

(** Every decode request of the batch holds at least one sequence. *)
Definition nonempty_requests (batch : list SequenceGroupMetadata) : bool :=
  forallb (λ r, is_prompt r || has_sequences r) batch.

Definition selected_of (out : AssembledBatch) : list Z :=
  sm_selected_token_indices (sampling_metadata out).

Definition bucket_of (out : AssembledBatch) (t : SamplingType) : list Z :=
  sm_categorized_sample_indices (sampling_metadata out) t.

Definition generators_of (out : AssembledBatch) : list (option Generator) :=
  sm_generators (sampling_metadata out).

(** A list of integers that is increasing and lies in [[lo, hi)]. *)
Definition increasing_within (lo hi : Z) (l : list Z) : Prop :=
  StronglySorted Z.lt l ∧ ∀ x, x ∈ l → lo ≤ x < hi.

(** The handles a prefill step creates: one new handle, numbered from
    [n] on, for every seeded request, in request order. *)
Fixpoint fresh_generators (n : nat) (batch : list SequenceGroupMetadata)
  : list (option Generator) :=
  match batch with
  | [] => []
  | r :: rest =>
      match seed (sampling_params r) with
      | Some s =>
          Some {| gen_id := n; gen_seed := s |} :: fresh_generators (S n) rest
      | None => fresh_generators n rest
      end
  end.

(** ** Concrete batches *)

(** A request whose sequences [(seq_id, token ids)] each own the single
    block [seq_id + 100]. *)
Definition request (phase : bool) (seqs : list (Z * list Z)) (t : SamplingType)
    (sd plp : option Z) (addr : nat) : SequenceGroupMetadata :=
  {| is_prompt := phase;
     seq_data := (λ e, (e.1, {| token_ids := e.2 |})) <$> seqs;
     sampling_params :=
       {| sampling_type := t; seed := sd; prompt_logprobs := plp |};
     block_tables := Some (list_to_map ((λ e, (e.1, [e.1 + 100])) <$> seqs));
     state := addr |}.

Definition prefill (seq_id : Z) (prompt : list Z) (t : SamplingType)
    (sd plp : option Z) (addr : nat) : SequenceGroupMetadata :=
  request true [(seq_id, prompt)] t sd plp addr.

Definition decode (seqs : list (Z * list Z)) (t : SamplingType)
    (sd : option Z) (addr : nat) : SequenceGroupMetadata :=
  request false seqs t sd None addr.

Definition world0 : World := {| next_generator := 0; generator_of := ∅ |}.

(** One decode request with one sequence of three tokens. *)
Definition batch_one_decode : list SequenceGroupMetadata :=
  [decode [(7, [11; 12; 13])] GREEDY None 0].

(** One decode request holding two parallel sequences. *)
Definition batch_two_sequences : list SequenceGroupMetadata :=
  [decode [(7, [11; 12; 13]); (8, [11; 12; 14])] GREEDY None 0].

(** Two prefill requests with prompt lengths 3 and 5, deterministic
    strategy, no [prompt_logprobs]. *)
Definition batch_3_5 : list SequenceGroupMetadata :=
  [prefill 7 [11; 12; 13] GREEDY None None 0;
   prefill 8 [21; 22; 23; 24; 25] GREEDY None None 1].

(** Two prefill requests, the second with an empty prompt. *)
Definition batch_1_0 : list SequenceGroupMetadata :=
  [prefill 7 [11] GREEDY None None 0;
   prefill 8 [] GREEDY None (Some 1) 1].

(** One seeded prefill request. *)
Definition batch_seeded_prefill : list SequenceGroupMetadata :=
  [prefill 7 [11; 12] RANDOM_SEED (Some 42) None 0].

(** The same request at a decode step. *)
Definition batch_seeded_decode : list SequenceGroupMetadata :=
  [decode [(7, [11; 12; 13])] RANDOM_SEED (Some 42) 0].

(** The world once the seeded request has been through a prefill step. *)
Definition world_seeded : World :=
  {| next_generator := 1;
     generator_of := {[ 0%nat := {| gen_id := 0; gen_seed := 42 |} ]} |}.

(** A prefill request that meets the contract, then one that holds two
    sequences. *)
Definition batch_bad_last : list SequenceGroupMetadata :=
  [prefill 7 [11; 12] GREEDY None None 0;
   request true [(8, [21]); (9, [22])] GREEDY None None 1].

(** ** Vocabulary of the further properties *)

(** [b] is the storage block of the prefill request [r]: the only entry
    of the block table of its only sequence. *)
Definition prefill_block (b : Z) (r : SequenceGroupMetadata) : Prop :=
  ∃ seq_id sd tables,
    seq_data r = [(seq_id, sd)]
    ∧ block_tables r = Some tables ∧ tables !! seq_id = Some [b].

(** The block table of the request has no entry for its first sequence. *)
Definition lacks_block_table_entry (r : SequenceGroupMetadata) : bool :=
  match seq_data r, block_tables r with
  | [(seq_id, _)], Some tables =>
      match tables !! seq_id with
      | Some _ => false
      | None => true
      end
  | _, _ => false
  end.

(** The batch holds requests of both phases. *)
Definition mixed_phases (batch : list SequenceGroupMetadata) : bool :=
  existsb is_prompt batch && existsb (λ r, negb (is_prompt r)) batch.

(** The number of seeded prefill requests of a batch. *)
Definition seeded_prefills (batch : list SequenceGroupMetadata) : nat :=
  length (filter (λ r, is_prompt r && is_seeded r = true) batch).

(** A prefill batch followed by a decode request. *)
Definition batch_mixed : list SequenceGroupMetadata :=
  [prefill 7 [11; 12] GREEDY None None 0;
   decode [(8, [21; 22; 23])] GREEDY None 1].

(** Two prefill requests whose prompts are both empty. *)
Definition batch_0_0 : list SequenceGroupMetadata :=
  [prefill 7 [] GREEDY None None 0; prefill 8 [] GREEDY None None 1].

(** A prefill request whose block table has no entry for its sequence. *)
Definition request_without_block : SequenceGroupMetadata :=
  {| is_prompt := true;
     seq_data := [(8, {| token_ids := [21] |})];
     sampling_params :=
       {| sampling_type := GREEDY; seed := None; prompt_logprobs := None |};
     block_tables := Some {[ 9 := [109] ]};
     state := 1 |}.

(** Two seeded prefill requests and an unseeded one. *)
Definition batch_two_seeded : list SequenceGroupMetadata :=
  [prefill 7 [11; 12] RANDOM_SEED (Some 42) None 0;
   prefill 8 [21] GREEDY None None 1;
   prefill 9 [31; 32; 33] RANDOM_SEED (Some 7) None 2].

(** Two runs end alike: with the same exception, or with values related
    by [R]. *)
Definition ends_alike {A B : Type} (R : A → B → Prop)
    (m1 : result A) (m2 : result B) : Prop :=
  match m1, m2 with
  | Ok a, Ok b => R a b
  | Raise e1, Raise e2 => e1 = e2
  | _, _ => False
  end.

(** Two states of the decode loop that agree on what is returned. *)
Definition same_returned (st1 st2 : DecodeLocals) : Prop :=
  d_input_tokens st1 = d_input_tokens st2
  ∧ d_input_positions st1 = d_input_positions st2
  ∧ d_input_block_ids st1 = d_input_block_ids st2.

(** The first sequence of a decode request has a last token, and the
    request holds no usable block for it: no block table at all, or a
    table whose entry for the sequence does not hold exactly one block. *)
Definition first_sequence_unassigned (r : SequenceGroupMetadata) : bool :=
  match seq_data r with
  | (seq_id, sd) :: _ =>
      negb (bool_decide (token_ids sd = []))
      && match block_tables r with
         | None => true
         | Some tables =>
             match tables !! seq_id with
             | Some block_table => negb (len block_table =? 1)
             | None => false
             end
         end
  | [] => false
  end.

(** No request of the batch asks for [prompt_logprobs]. *)
Definition no_prompt_logprobs (batch : list SequenceGroupMetadata) : bool :=
  forallb (λ r, negb (has_prompt_logprobs r)) batch.

(** The sequence ids of a batch, over all requests. *)
Definition all_seq_ids (batch : list SequenceGroupMetadata) : list Z :=
  (all_sequences batch).*2.*1.

(** A decode request whose sequence holds two blocks, after a sound one. *)
Definition batch_decode_two_blocks : list SequenceGroupMetadata :=
  [decode [(7, [11; 12; 13])] GREEDY None 0;
   {| is_prompt := false;
      seq_data := [(8, {| token_ids := [21; 22] |})];
      sampling_params :=
        {| sampling_type := GREEDY; seed := None; prompt_logprobs := None |};
      block_tables := Some {[ 8 := [108; 109] ]};
      state := 1 |}].

(** * Proofs *)

(** ** The exception monad *)

Lemma bind_Ok {A B : Type} (a : A) (k : A → result B) : (Ok a ≫= k) = k a.
Proof. reflexivity. Qed.

Lemma bind_Raise {A B : Type} (e : PyError) (k : A → result B) :
  (Raise e ≫= k) = Raise e.
Proof. reflexivity. Qed.

Lemma bind_Ok_inv {A B : Type} (m : result A) (k : A → result B) (b : B) :
  (m ≫= k) = Ok b → ∃ a, m = Ok a ∧ k a = Ok b.
Proof. destruct m as [a|e]; [eauto | discriminate]. Qed.

Lemma py_assert_true (b : bool) : b = true → py_assert b = Ok tt.
Proof. intros ->. reflexivity. Qed.

Lemma py_assert_false (b : bool) : b = false → py_assert b = Raise AssertionError.
Proof. intros ->. reflexivity. Qed.

Lemma len_app {A : Type} (x y : list A) : len (x ++ y) = len x + len y.
Proof. unfold len. rewrite length_app. lia. Qed.

Lemma len_nonneg {A : Type} (x : list A) : 0 ≤ len x.
Proof. unfold len. lia. Qed.

(** ** Padding / tensor builder *)

Section padding.
Variables (max_len pad : Z).

Lemma pad_to_max_fits (x : list Z) :
  len x ≤ max_len → _pad_to_max x max_len pad = Ok (padded_row max_len pad x).
Proof.
  intros Hle. unfold _pad_to_max.
  rewrite py_assert_true by (apply Z.leb_le; exact Hle).
  reflexivity.
Qed.

Lemma pad_to_max_too_long (x : list Z) :
  max_len < len x → _pad_to_max x max_len pad = Raise AssertionError.
Proof.
  intros Hlt. unfold _pad_to_max.
  rewrite py_assert_false by (apply Z.leb_gt; exact Hlt).
  reflexivity.
Qed.

Lemma padded_row_len (x : list Z) :
  len x ≤ max_len → len (padded_row max_len pad x) = max_len.
Proof.
  intros Hle. unfold padded_row. rewrite len_app.
  unfold len in *. rewrite length_replicate. lia.
Qed.

Lemma make_tensor_fits (x : list (list Z)) :
  Forall (λ row, len row ≤ max_len) x →
  _make_tensor_with_pad x max_len pad = Ok (padded_row max_len pad <$> x).
Proof.
  unfold _make_tensor_with_pad.
  induction 1 as [|row rows Hrow _ IH]; [reflexivity|].
  cbn [comprehension]. rewrite pad_to_max_fits by exact Hrow.
  rewrite bind_Ok, IH. reflexivity.
Qed.

Lemma make_tensor_too_long (x : list (list Z)) :
  Exists (λ row, max_len < len row) x →
  _make_tensor_with_pad x max_len pad = Raise AssertionError.
Proof.
  unfold _make_tensor_with_pad.
  induction x as [|row rows IH]; intros Hex; [inversion Hex|].
  cbn [comprehension].
  destruct (Z.lt_ge_cases max_len (len row)) as [Hlong|Hfits].
  - rewrite pad_to_max_too_long by exact Hlong. reflexivity.
  - rewrite pad_to_max_fits by exact Hfits. rewrite bind_Ok.
    inversion Hex as [? ? Hhd|? ? Htl]; subst; [lia|].
    rewrite (IH Htl). reflexivity.
Qed.
End padding.

(** C7. Padding/Tensor Builder: when [L] is at least every row's length,
    [_make_tensor_with_pad] returns one row per input row, every row of
    length [L] and equal to the original values followed by the fill
    value repeated to reach [L]; when some row is longer than [L] it
    fails with an assertion error. *)
Theorem make_tensor_with_pad_contract (x : list (list Z)) (L pad : Z) :
  (Forall (λ row, len row ≤ L) x →
     ∃ t, _make_tensor_with_pad x L pad = Ok t
          ∧ length t = length x
          ∧ Forall (λ row, len row = L) t
          ∧ Forall2 (λ row orig, row = orig ++ replicate (Z.to_nat (L - len orig)) pad) t x)
  ∧ (Exists (λ row, L < len row) x →
     _make_tensor_with_pad x L pad = Raise AssertionError).
Proof.
  split.
  - intros Hfits. exists (padded_row L pad <$> x). split; [|split; [|split]].
    + apply make_tensor_fits, Hfits.
    + apply length_fmap.
    + apply Forall_fmap. eapply Forall_impl; [exact Hfits|].
      intros row Hrow. simpl. apply padded_row_len, Hrow.
    + apply Forall2_fmap_l, Forall_Forall2_diag, Forall_true. reflexivity.
  - apply make_tensor_too_long.
Qed.

Lemma make_tensor_with_pad_contract_witness :
  (∃ t, _make_tensor_with_pad [[1; 2]; [3]; []] 3 0 = Ok t
        ∧ length t = 3%nat
        ∧ Forall (λ row, len row = 3) t
        ∧ Forall2 (λ row orig, row = orig ++ replicate (Z.to_nat (3 - len orig)) 0)
            t [[1; 2]; [3]; []])
  ∧ _make_tensor_with_pad [[1; 2]; [3; 4; 5; 6]] 3 0 = Raise AssertionError.
Proof.
  split.
  - apply (make_tensor_with_pad_contract [[1; 2]; [3]; []] 3 0).
    repeat constructor; vm_compute; discriminate.
  - apply (make_tensor_with_pad_contract [[1; 2]; [3; 4; 5; 6]] 3 0).
    apply Exists_cons_tl, Exists_cons_hd. vm_compute. reflexivity.
Defined.

(** ** Prefill batch builder *)

Lemma single_block_ok (r : SequenceGroupMetadata) (seq_id : Z) :
  has_single_block r seq_id = true →
  ∃ b tables, single_block r seq_id = Ok b
              ∧ block_tables r = Some tables ∧ tables !! seq_id = Some [b].
Proof.
  unfold has_single_block, single_block.
  destruct (block_tables r) as [tables|]; [|discriminate].
  destruct (tables !! seq_id) as [[|b [|? ?]]|] eqn:Hlookup; try discriminate.
  intros _. exists b, tables. split; [reflexivity | split; [reflexivity | exact Hlookup]].
Qed.

Lemma prefill_request_ok_inv (r : SequenceGroupMetadata) :
  prefill_request_ok r = true →
  is_prompt r = true
  ∧ ∃ seq_id sd, seq_data r = [(seq_id, sd)] ∧ has_single_block r seq_id = true.
Proof.
  unfold prefill_request_ok. intros [Hp Hs]%andb_true_iff. split; [exact Hp|].
  destruct (seq_data r) as [|[seq_id sd] [|? ?]]; try discriminate. eauto.
Qed.

Lemma prompt_body_ok (r : SequenceGroupMetadata) (st : PromptLocals) :
  prefill_request_ok r = true →
  ∃ b, prompt_body r st =
       Ok {| p_input_tokens := p_input_tokens st ++ [prompt_tokens_of r];
             p_input_positions :=
               p_input_positions st ++ [py_range 0 (0 + prompt_len_of r)];
             p_input_block_ids := p_input_block_ids st ++ [b];
             p_prompt_lens := p_prompt_lens st ++ [prompt_len_of r];
             p_context_lens := p_context_lens st ++ [0];
             p_subquery_lens := p_subquery_lens st ++ [prompt_len_of r - 0] |}.
Proof.
  intros (Hp & seq_id & sd & Hsd & Hb)%prefill_request_ok_inv.
  destruct (single_block_ok _ _ Hb) as (b & tables & Hblock & _).
  exists b. unfold prompt_body, seq_ids_of, prompt_tokens_of, prompt_len_of.
  rewrite Hp, Hsd. cbn. rewrite Hblock. reflexivity.
Qed.

Lemma prompt_loop_ok (batch : list SequenceGroupMetadata) (st : PromptLocals) :
  forallb prefill_request_ok batch = true →
  ∃ st', prompt_loop batch st = Ok st'
         ∧ p_input_tokens st' = p_input_tokens st ++ (prompt_tokens_of <$> batch)
         ∧ p_input_positions st' =
             p_input_positions st
             ++ ((λ r, py_range 0 (0 + prompt_len_of r)) <$> batch)
         ∧ length (p_input_block_ids st') =
             (length (p_input_block_ids st) + length batch)%nat
         ∧ p_prompt_lens st' = p_prompt_lens st ++ (prompt_len_of <$> batch)
         ∧ p_subquery_lens st' = p_subquery_lens st ++ (prompt_len_of <$> batch).
Proof.
  revert st. induction batch as [|r rest IH]; intros st Hok.
  - exists st. cbn. rewrite !app_nil_r. repeat split; lia.
  - cbn in Hok. apply andb_true_iff in Hok as [Hr Hrest].
    destruct (prompt_body_ok r st Hr) as [b Hbody].
    cbn [prompt_loop]. rewrite Hbody, bind_Ok.
    match goal with
    | |- context [prompt_loop rest ?s] =>
        destruct (IH s Hrest) as (st' & Hloop & Ht & Hp & Hb & Hl & Hs)
    end.
    exists st'. cbn in Ht, Hp, Hb, Hl, Hs.
    rewrite Hloop, Ht, Hp, Hb, Hl, Hs, <- !app_assoc, Z.sub_0_r, length_app.
    cbn. repeat split; lia.
Qed.

Lemma foldl_max_ge (x : Z) (xs : list Z) :
  x ≤ foldl Z.max x xs ∧ Forall (λ s, s ≤ foldl Z.max x xs) xs.
Proof.
  revert x. induction xs as [|y ys IH]; intros x; cbn.
  - split; [lia | constructor].
  - destruct (IH (Z.max x y)) as [Hx Hys]. split; [lia|].
    constructor; [lia | exact Hys].
Qed.

Lemma foldl_max_elem (x : Z) (xs : list Z) : foldl Z.max x xs ∈ x :: xs.
Proof.
  revert x. induction xs as [|y ys IH]; intros x; cbn.
  - apply list_elem_of_here.
  - specialize (IH (Z.max x y)).
    apply elem_of_cons in IH as [Heq|Hin].
    + rewrite Heq. destruct (Z.max_spec x y) as [[_ ->]|[_ ->]].
      * apply list_elem_of_further, list_elem_of_here.
      * apply list_elem_of_here.
    + apply list_elem_of_further, list_elem_of_further, Hin.
Qed.

Lemma foldl_max_is_max (x : Z) (xs : list Z) : is_max (foldl Z.max x xs) (x :: xs).
Proof.
  split; [apply foldl_max_elem|].
  destruct (foldl_max_ge x xs). constructor; assumption.
Qed.

Lemma is_max_unique (M M' : Z) (l : list Z) : is_max M l → is_max M' l → M = M'.
Proof.
  intros [Hin Hle] [Hin' Hle']. rewrite Forall_forall in Hle, Hle'.
  specialize (Hle _ Hin'). specialize (Hle' _ Hin). lia.
Qed.

Lemma prompt_len_of_tokens (r : SequenceGroupMetadata) :
  prompt_len_of r = len (prompt_tokens_of r).
Proof.
  unfold prompt_len_of, prompt_tokens_of.
  destruct (seq_data r) as [|[? ?] ?]; reflexivity.
Qed.

Lemma len_py_range_0 (n : Z) : 0 ≤ n → len (py_range 0 (0 + n)) = n.
Proof. intros Hn. unfold len, py_range. rewrite length_seqZ. lia. Qed.

Lemma batch_ok_cons (ok : SequenceGroupMetadata → bool)
    (batch : list SequenceGroupMetadata) :
  negb (bool_decide (batch = [])) && forallb ok batch = true →
  ∃ r rest, batch = r :: rest ∧ ok r = true ∧ forallb ok rest = true.
Proof.
  intros [Hne Hall]%andb_true_iff.
  destruct batch as [|r rest]; [discriminate|].
  cbn in Hall. apply andb_true_iff in Hall as [Hr Hrest]. eauto.
Qed.

Lemma prompt_lens_le_max (batch : list SequenceGroupMetadata) (M : Z) :
  is_max M (prompt_len_of <$> batch) →
  Forall (λ r, prompt_len_of r ≤ M) batch.
Proof.
  intros [_ Hle]. rewrite Forall_fmap in Hle. exact Hle.
Qed.

Lemma batch_max_is_max (batch : list SequenceGroupMetadata) :
  prefill_batch_ok batch = true →
  is_max (batch_max_subquery_len batch) (prompt_len_of <$> batch)
  ∧ py_max (prompt_len_of <$> batch) = Ok (batch_max_subquery_len batch).
Proof.
  intros (r & rest & -> & Hr & _)%batch_ok_cons.
  apply prefill_request_ok_inv in Hr as [Hp _].
  unfold batch_max_subquery_len. rewrite Hp. cbn.
  split; [apply foldl_max_is_max | reflexivity].
Qed.

Lemma prepare_prompt_ok (batch : list SequenceGroupMetadata) :
  prefill_batch_ok batch = true →
  0 < batch_max_subquery_len batch →
  ∃ po, _prepare_prompt batch = Ok po
        ∧ po_prompt_lens po = prompt_len_of <$> batch
        ∧ po_subquery_lens po = prompt_len_of <$> batch
        ∧ po_input_tokens po =
            padded_row (batch_max_subquery_len batch) 0 <$> (prompt_tokens_of <$> batch)
        ∧ length (po_input_block_ids po) = length batch.
Proof.
  intros Hok Hpos.
  destruct (batch_max_is_max batch Hok) as [Hmax Hpy].
  pose proof (prompt_lens_le_max _ _ Hmax) as Hle.
  destruct (batch_ok_cons _ _ Hok) as (r & rest & Hbatch & Hr & Hrest).
  assert (Hall : forallb prefill_request_ok batch = true).
  { rewrite Hbatch. cbn. rewrite Hr, Hrest. reflexivity. }
  destruct (prompt_loop_ok batch prompt_locals0 Hall)
    as (st & Hloop & Ht & Hp & Hb & Hl & Hs).
  cbn in Ht, Hp, Hb, Hl, Hs.
  unfold _prepare_prompt.
  rewrite py_assert_true by (rewrite Hbatch; reflexivity).
  cbn [mbind result_bind]. rewrite Hloop. cbn [mbind result_bind].
  rewrite Hs, Hpy. cbn [mbind result_bind].
  rewrite py_assert_true by (apply Z.ltb_lt; exact Hpos).
  cbn [mbind result_bind].
  rewrite Ht, Hp.
  rewrite (make_tensor_fits _ 0 (prompt_tokens_of <$> batch)); cycle 1.
  { apply Forall_fmap. eapply Forall_impl; [exact Hle|].
    intros r' Hr'. cbn. rewrite <- prompt_len_of_tokens. exact Hr'. }
  cbn [mbind result_bind].
  rewrite make_tensor_fits; cycle 1.
  { apply Forall_fmap. eapply Forall_impl; [exact Hle|].
    intros r' Hr'. cbn. rewrite len_py_range_0; [exact Hr'|].
    rewrite prompt_len_of_tokens. apply len_nonneg. }
  cbn [mbind result_bind]. eexists. split; [reflexivity|]. cbn.
  repeat split; try assumption.
Qed.

Lemma prompt_body_violation (r : SequenceGroupMetadata) (st : PromptLocals) :
  violates_prefill_contract r = true →
  prompt_body r st = Raise AssertionError.
Proof.
  unfold violates_prefill_contract, has_many_sequences, has_many_blocks,
    num_seqs_of, prompt_body, seq_ids_of.
  intros Hv. destruct (is_prompt r); [|reflexivity]. cbn.
  destruct (seq_data r) as [|[seq_id sd] [|e rest]] eqn:Hsd; cbn in Hv |- *.
  - discriminate.
  - unfold single_block.
    destruct (block_tables r) as [tables|]; [|reflexivity].
    destruct (tables !! seq_id) as [block_table|]; [|discriminate].
    rewrite py_assert_false; [reflexivity|].
    apply Z.eqb_neq. apply Z.ltb_lt in Hv. lia.
  - rewrite py_assert_false; [reflexivity|].
    apply Z.eqb_neq. unfold len. cbn [length fmap list_fmap]. lia.
Qed.

Lemma prompt_loop_violation (batch : list SequenceGroupMetadata) (st : PromptLocals) :
  existsb violates_prefill_contract batch = true →
  is_Raise (prompt_loop batch st).
Proof.
  revert st. induction batch as [|r rest IH]; intros st Hex; [discriminate|].
  cbn in Hex. cbn [prompt_loop].
  destruct (prompt_body r st) as [st'|e] eqn:Hbody.
  - rewrite bind_Ok. apply IH.
    apply orb_true_iff in Hex as [Hr|Hrest]; [|exact Hrest].
    rewrite (prompt_body_violation r st Hr) in Hbody. discriminate.
  - exists e. reflexivity.
Qed.

Lemma prompt_loop_first_violation (good rest : list SequenceGroupMetadata)
    (r : SequenceGroupMetadata) (st : PromptLocals) :
  forallb prefill_request_ok good = true →
  violates_prefill_contract r = true →
  prompt_loop (good ++ r :: rest) st = Raise AssertionError.
Proof.
  revert st. induction good as [|g good IH]; intros st Hgood Hv.
  - cbn. rewrite (prompt_body_violation r st Hv). reflexivity.
  - cbn in Hgood. apply andb_true_iff in Hgood as [Hg Hgood].
    destruct (prompt_body_ok g st Hg) as [b Hbody].
    cbn [app prompt_loop]. rewrite Hbody, bind_Ok. apply IH; assumption.
Qed.

(** The prefill builder called directly: it raises an assertion error on
    the empty batch; on a batch that holds a request with more than one
    sequence or with more than one storage block it raises and returns
    no batch at all; and when the requests before the offending one meet
    the contract, the exception is the assertion error of the offending
    request. *)
Lemma prepare_prompt_violations :
  _prepare_prompt [] = Raise AssertionError
  ∧ (∀ batch, existsb violates_prefill_contract batch = true →
       is_Raise (_prepare_prompt batch))
  ∧ (∀ good r rest,
       forallb prefill_request_ok good = true →
       violates_prefill_contract r = true →
       _prepare_prompt (good ++ r :: rest) = Raise AssertionError).
Proof.
  split; [reflexivity|]. split.
  - intros batch Hex. unfold _prepare_prompt.
    destruct batch as [|r rest]; [discriminate|].
    rewrite py_assert_true by reflexivity. cbn [mbind result_bind].
    destruct (prompt_loop_violation (r :: rest) prompt_locals0 Hex) as [e ->].
    exists e. reflexivity.
  - intros good r rest Hgood Hv. unfold _prepare_prompt.
    rewrite py_assert_true; cycle 1.
    { apply Z.ltb_lt. unfold len. rewrite length_app. cbn. lia. }
    cbn [mbind result_bind].
    rewrite (prompt_loop_first_violation good rest r _ Hgood Hv). reflexivity.
Qed.


(** ** Decode batch builder *)

Lemma decode_seq_loop_ok (sliding_window : option Z) (r : SequenceGroupMetadata)
    (entries : list (Z * SequenceData)) (st : DecodeLocals) :
  forallb (λ e : Z * SequenceData,
             negb (bool_decide (token_ids e.2 = [])) && has_single_block r e.1)
          entries = true →
  let seqs := (λ e, (r, e)) <$> entries in
  ∃ toks blocks,
    decode_seq_loop sliding_window r entries st =
      Ok {| d_input_tokens := d_input_tokens st ++ toks;
            d_input_positions := d_input_positions st ++ (position_row <$> seqs);
            d_input_block_ids := d_input_block_ids st ++ blocks;
            d_context_lens :=
              d_context_lens st ++ (context_len_of sliding_window <$> seqs) |}
    ∧ Forall2 token_row toks seqs
    ∧ Forall2 block_row blocks seqs.
Proof.
  revert st. induction entries as [|[seq_id sd] rest IH]; intros st Hok seqs.
  - exists [], []. subst seqs. cbn. rewrite !app_nil_r.
    destruct st; repeat split; constructor.
  - cbn in Hok. apply andb_true_iff in Hok as [Hentry Hrest].
    apply andb_true_iff in Hentry as [Htok Hblock].
    destruct (single_block_ok _ _ Hblock) as (b & tables & Hb & Htables & Hlookup).
    destruct (last (token_ids sd)) as [t|] eqn:Hlast; cycle 1.
    { apply last_None in Hlast. rewrite Hlast in Htok. discriminate. }
    cbn [decode_seq_loop]. unfold decode_seq_body, get_last_token_id.
    rewrite Hlast. cbn [mbind result_bind]. rewrite Hb. cbn [mbind result_bind].
    match goal with
    | |- context [decode_seq_loop _ _ rest ?s] =>
        destruct (IH s Hrest) as (toks & blocks & Hloop & Htoks & Hblocks)
    end.
    exists ([t] :: toks), (b :: blocks). subst seqs.
    rewrite Hloop. cbn. rewrite <- !app_assoc. cbn.
    split; [reflexivity|]. split; constructor; try assumption.
    + exists t. auto.
    + exists tables. auto.
Qed.

Lemma decode_loop_ok (sliding_window : option Z)
    (batch : list SequenceGroupMetadata) (st : DecodeLocals) :
  forallb decode_request_ok batch = true →
  let seqs := all_sequences batch in
  ∃ toks blocks,
    decode_loop sliding_window batch st =
      Ok {| d_input_tokens := d_input_tokens st ++ toks;
            d_input_positions := d_input_positions st ++ (position_row <$> seqs);
            d_input_block_ids := d_input_block_ids st ++ blocks;
            d_context_lens :=
              d_context_lens st ++ (context_len_of sliding_window <$> seqs) |}
    ∧ Forall2 token_row toks seqs
    ∧ Forall2 block_row blocks seqs.
Proof.
  revert st. induction batch as [|r rest IH]; intros st Hok seqs.
  - exists [], []. subst seqs. cbn. rewrite !app_nil_r.
    destruct st; repeat split; constructor.
  - cbn in Hok. apply andb_true_iff in Hok as [Hr Hrest].
    unfold decode_request_ok in Hr. apply andb_true_iff in Hr as [Hphase Hseqs].
    destruct (decode_seq_loop_ok sliding_window r (seq_data r) st Hseqs)
      as (toks1 & blocks1 & Hinner & Htoks1 & Hblocks1).
    cbn [decode_loop]. unfold decode_body.
    rewrite py_assert_true by exact Hphase. cbn [mbind result_bind].
    rewrite Hinner. cbn [mbind result_bind].
    match goal with
    | |- context [decode_loop _ rest ?s] =>
        destruct (IH s Hrest) as (toks2 & blocks2 & Houter & Htoks2 & Hblocks2)
    end.
    exists (toks1 ++ toks2), (blocks1 ++ blocks2). subst seqs.
    rewrite Houter. cbn. unfold all_sequences. cbn.
    rewrite !fmap_app, <- !app_assoc.
    split; [reflexivity|]. split; apply Forall2_app; assumption.
Qed.

Lemma token_rows_padded (toks : list (list Z))
    (seqs : list (SequenceGroupMetadata * (Z * SequenceData))) :
  Forall2 token_row toks seqs →
  _make_tensor_with_pad toks 1 0 = Ok toks.
Proof.
  intros Hrows. rewrite make_tensor_fits.
  - f_equal. induction Hrows as [|row re toks' seqs' (t & _ & ->) _ IH];
      [reflexivity|]. cbn. rewrite IH. reflexivity.
  - induction Hrows as [|row re toks' seqs' (t & _ & ->) _ IH];
      [constructor|]. constructor; [unfold len; cbn; lia | exact IH].
Qed.

Lemma position_rows_padded
    (seqs : list (SequenceGroupMetadata * (Z * SequenceData))) :
  _make_tensor_with_pad (position_row <$> seqs) 1 0 = Ok (position_row <$> seqs).
Proof.
  rewrite make_tensor_fits.
  - f_equal. induction seqs as [|re seqs' IH]; [reflexivity|].
    cbn. rewrite IH. reflexivity.
  - apply Forall_fmap, Forall_true. intros re. unfold len. cbn. lia.
Qed.

(** The decode builder on a batch that meets the decode preconditions:
    its locals before the [return], and the triple it returns. *)
Lemma prepare_decode_ok (sliding_window : option Z)
    (batch : list SequenceGroupMetadata) :
  decode_batch_ok batch = true →
  let seqs := all_sequences batch in
  ∃ toks blocks,
    let st := {| d_input_tokens := toks;
                 d_input_positions := position_row <$> seqs;
                 d_input_block_ids := blocks;
                 d_context_lens := context_len_of sliding_window <$> seqs |} in
    decode_locals sliding_window batch = Ok st
    ∧ _prepare_decode sliding_window batch = Ok (returned_of st)
    ∧ Forall2 token_row toks seqs
    ∧ Forall2 block_row blocks seqs.
Proof.
  intros Hok seqs.
  destruct (batch_ok_cons _ _ Hok) as (r & rest & Hbatch & Hr & Hrest).
  assert (Hall : forallb decode_request_ok batch = true).
  { rewrite Hbatch. cbn. rewrite Hr, Hrest. reflexivity. }
  destruct (decode_loop_ok sliding_window batch decode_locals0 Hall)
    as (toks & blocks & Hloop & Htoks & Hblocks).
  exists toks, blocks. cbn zeta.
  assert (Hlocals : decode_locals sliding_window batch =
            Ok {| d_input_tokens := toks;
                  d_input_positions := position_row <$> seqs;
                  d_input_block_ids := blocks;
                  d_context_lens := context_len_of sliding_window <$> seqs |}).
  { unfold decode_locals.
    rewrite py_assert_true by (rewrite Hbatch; reflexivity).
    cbn [mbind result_bind]. rewrite Hloop.
    cbn [mbind result_bind d_input_tokens d_input_positions d_input_block_ids
         d_context_lens decode_locals0 app].
    rewrite (token_rows_padded _ _ Htoks). cbn [mbind result_bind].
    rewrite position_rows_padded. reflexivity. }
  split; [exact Hlocals|]. split; [|split; assumption].
  unfold _prepare_decode. rewrite Hlocals. reflexivity.
Qed.

Lemma all_sequences_cons (r : SequenceGroupMetadata)
    (rest : list SequenceGroupMetadata) :
  all_sequences (r :: rest) = ((λ e, (r, e)) <$> seq_data r) ++ all_sequences rest.
Proof. reflexivity. Qed.

Lemma all_sequences_len (batch : list SequenceGroupMetadata) :
  len (all_sequences batch) = Zsum (num_seqs_of <$> batch).
Proof.
  induction batch as [|r rest IH]; [reflexivity|].
  rewrite all_sequences_cons, len_app, IH. unfold len at 1.
  rewrite length_fmap. reflexivity.
Qed.

(** C6. Decode Batch Builder: on an all-decode batch the builder
    succeeds and makes one row per sequence over all requests (the row
    count is the sum of the sequence counts); the token row of a
    sequence is its last token id alone, its position row is its current
    length minus one, its context length is its current length, clipped
    to the sliding window when one is configured, and its block is the
    single block of its block table. *)
Theorem decode_builder_rows (sliding_window : option Z)
    (batch : list SequenceGroupMetadata) :
  decode_batch_ok batch = true →
  ∃ st, decode_locals sliding_window batch = Ok st
        ∧ _prepare_decode sliding_window batch = Ok (returned_of st)
        ∧ len (d_input_tokens st) = Zsum (num_seqs_of <$> batch)
        ∧ Forall2 (λ row re, ∃ t, last (token_ids re.2.2) = Some t ∧ row = [t])
            (d_input_tokens st) (all_sequences batch)
        ∧ d_input_positions st =
            (λ re, [get_len re.2.2 - 1]) <$> all_sequences batch
        ∧ d_context_lens st =
            (λ re, match sliding_window with
                   | None => get_len re.2.2
                   | Some sw => Z.min (get_len re.2.2) sw
                   end) <$> all_sequences batch
        ∧ Forall2 block_row (d_input_block_ids st) (all_sequences batch).
Proof.
  intros Hok.
  destruct (prepare_decode_ok sliding_window batch Hok)
    as (toks & blocks & Hlocals & Hret & Htoks & Hblocks).
  eexists. split; [exact Hlocals|]. split; [exact Hret|]. cbn.
  split; [|split; [exact Htoks|split; [reflexivity|split; [reflexivity|exact Hblocks]]]].
  rewrite <- all_sequences_len. unfold len.
  rewrite (Forall2_length _ _ _ Htoks). reflexivity.
Qed.

Lemma decode_builder_rows_witness :
  ∃ st, decode_locals (Some 2) batch_two_sequences = Ok st
        ∧ _prepare_decode (Some 2) batch_two_sequences = Ok (returned_of st)
        ∧ len (d_input_tokens st) = Zsum (num_seqs_of <$> batch_two_sequences)
        ∧ Forall2 (λ row re, ∃ t, last (token_ids re.2.2) = Some t ∧ row = [t])
            (d_input_tokens st) (all_sequences batch_two_sequences)
        ∧ d_input_positions st =
            (λ re, [get_len re.2.2 - 1]) <$> all_sequences batch_two_sequences
        ∧ d_context_lens st =
            (λ re, Z.min (get_len re.2.2) 2) <$> all_sequences batch_two_sequences
        ∧ Forall2 block_row (d_input_block_ids st)
            (all_sequences batch_two_sequences).
Proof.
  apply (decode_builder_rows (Some 2) batch_two_sequences).
  vm_compute. reflexivity.
Defined.

(** C5 (as the code has it). Decode Batch Builder: on an all-decode
    batch the builder computes a context-length vector with one entry
    per sequence row, but what it returns is the token-id tensor, the
    position-id tensor and the storage-block-index vector only, each
    with one row per sequence. *)
Theorem decode_builder_returns_three (sliding_window : option Z)
    (batch : list SequenceGroupMetadata) :
  decode_batch_ok batch = true →
  ∃ st, decode_locals sliding_window batch = Ok st
        ∧ _prepare_decode sliding_window batch =
            Ok {| do_input_tokens := d_input_tokens st;
                  do_input_positions := d_input_positions st;
                  do_input_block_ids := d_input_block_ids st |}
        ∧ length (d_context_lens st) = length (all_sequences batch)
        ∧ length (d_input_tokens st) = length (all_sequences batch)
        ∧ length (d_input_positions st) = length (all_sequences batch)
        ∧ length (d_input_block_ids st) = length (all_sequences batch).
Proof.
  intros Hok.
  destruct (prepare_decode_ok sliding_window batch Hok)
    as (toks & blocks & Hlocals & Hret & Htoks & Hblocks).
  eexists. split; [exact Hlocals|]. split; [exact Hret|]. cbn.
  rewrite !length_fmap.
  rewrite (Forall2_length _ _ _ Htoks), (Forall2_length _ _ _ Hblocks).
  repeat split; reflexivity.
Qed.

Lemma decode_builder_returns_three_witness :
  ∃ st, decode_locals None batch_one_decode = Ok st
        ∧ _prepare_decode None batch_one_decode =
            Ok {| do_input_tokens := d_input_tokens st;
                  do_input_positions := d_input_positions st;
                  do_input_block_ids := d_input_block_ids st |}
        ∧ length (d_context_lens st) = length (all_sequences batch_one_decode)
        ∧ length (d_input_tokens st) = length (all_sequences batch_one_decode)
        ∧ length (d_input_positions st) = length (all_sequences batch_one_decode)
        ∧ length (d_input_block_ids st) = length (all_sequences batch_one_decode).
Proof.
  apply (decode_builder_returns_three None batch_one_decode).
  vm_compute. reflexivity.
Defined.

(** C5 (as stated) fails: the context-length vector is no part of the
    returned value.  With and without a sliding window of 2 the builder
    returns the same value on the same batch, while the context-length
    vectors it computed differ; so no projection of the returned value
    gives the context-length vector. *)
Lemma decode_output_omits_context_lens :
  ¬ ∃ context_lens_of : DecodeOutput → list Z,
      ∀ sliding_window batch st out,
        decode_batch_ok batch = true →
        decode_locals sliding_window batch = Ok st →
        _prepare_decode sliding_window batch = Ok out →
        context_lens_of out = d_context_lens st.
Proof.
  intros [proj Hproj].
  pose proof (Hproj None batch_one_decode _ _ eq_refl eq_refl eq_refl) as H1.
  pose proof (Hproj (Some 2) batch_one_decode _ _ eq_refl eq_refl eq_refl) as H2.
  vm_compute in H1, H2. congruence.
Qed.

(** ** Sampling index resolver *)

Lemma py_range_seqZ (a n : Z) : py_range a (a + n) = seqZ a n.
Proof. unfold py_range. f_equal. lia. Qed.

Lemma fst_tagged {A : Type} (x : A) (l : list Z) : ((λ k, (k, x)) <$> l).*1 = l.
Proof. rewrite <- list_fmap_compose. apply list_fmap_id. Qed.

Lemma request_rows_indices (cursor : Z) (r : SequenceGroupMetadata) (sub : Z) :
  (request_rows cursor r sub).*1 =
  if is_prompt r
  then (if has_prompt_logprobs r then seqZ cursor (sub - 1) else [])
       ++ [cursor + sub - 1]
  else seqZ cursor (num_seqs_of r).
Proof.
  unfold request_rows. destruct (is_prompt r).
  - rewrite fmap_app. destruct (has_prompt_logprobs r); [|reflexivity].
    rewrite fst_tagged. reflexivity.
  - apply fst_tagged.
Qed.

Lemma sample_body_ok (M : Z) (subquery_lens : option (list Z)) (i : nat)
    (r : SequenceGroupMetadata) (sub : Z) (st : SampleLocals) :
  resolvable subquery_lens i (r, sub) →
  ∃ st1, sample_body M subquery_lens i r st = Ok st1
         ∧ selected_token_indices st1 =
             selected_token_indices st
             ++ (request_rows (selected_token_start_idx st) r sub).*1
         ∧ selected_token_start_idx st1 =
             selected_token_start_idx st + request_stride M r
         ∧ categorized_sample_indices st1 =
             bucket_extend (sampling_type (sampling_params r))
               (request_bucket (categorized_sample_indices_start_idx st) r sub)
               (categorized_sample_indices st)
         ∧ categorized_sample_indices_start_idx st1 =
             categorized_sample_indices_start_idx st + bucket_stride r sub
         ∧ world st1 = world_after_request r (world st)
         ∧ generators st1 =
             generators st
             ++ (if is_seeded r
                 then [get_generator (state r) (world_after_request r (world st))]
                 else [])
         ∧ seq_groups st1 = seq_groups st ++ [(seq_ids_of r, sampling_params r)].
Proof.
  unfold resolvable, sample_body. cbn [fst snd]. intros Hres.
  rewrite request_rows_indices.
  unfold request_stride, request_bucket, bucket_stride, world_after_request,
    is_seeded, has_prompt_logprobs.
  destruct (is_prompt r).
  - destruct Hres as [Hone Hsub]; [reflexivity|].
    unfold sample_prompt_branch, seq_ids_of, len. rewrite length_fmap, Hone.
    cbn [Z.of_nat Pos.of_succ_nat Z.eqb Pos.eqb py_assert mbind result_bind].
    cbn [sample_push_group categorized_sample_indices_start_idx
         selected_token_start_idx selected_token_indices world generators
         categorized_sample_indices seq_groups].
    rewrite Hsub. cbn [mbind result_bind].
    eexists. split; [reflexivity|].
    cbn [sample_push_generator selected_token_indices selected_token_start_idx
         categorized_sample_indices categorized_sample_indices_start_idx
         world generators seq_groups].
    repeat split.
    + destruct (is_not_None (prompt_logprobs (sampling_params r))).
      * rewrite <- Z.add_sub_assoc, py_range_seqZ, <- app_assoc. reflexivity.
      * reflexivity.
    + destruct (is_not_None (prompt_logprobs (sampling_params r))); lia.
    + destruct (seed (sampling_params r)); cbn; [reflexivity|].
      symmetry. apply app_nil_r.
  - cbn [mbind result_bind]. eexists. split; [reflexivity|].
    cbn [sample_push_generator sample_decode_branch sample_push_group
         selected_token_indices selected_token_start_idx
         categorized_sample_indices categorized_sample_indices_start_idx
         world generators seq_groups].
    unfold num_seqs_of, seq_ids_of, len. rewrite length_fmap.
    rewrite !py_range_seqZ.
    repeat split.
    destruct (seed (sampling_params r)); cbn; [reflexivity|].
    symmetry. apply app_nil_r.
Qed.

Lemma sample_loop_ok (M : Z) (subquery_lens : option (list Z))
    (reqs : list (SequenceGroupMetadata * Z)) (i : nat) (st : SampleLocals) :
  (∀ k rs, reqs !! k = Some rs → resolvable subquery_lens (i + k) rs) →
  ∃ st', sample_loop M subquery_lens i reqs.*1 st = Ok st'
         ∧ selected_token_indices st' =
             selected_token_indices st
             ++ (batch_rows M (selected_token_start_idx st) reqs).*1
         ∧ (∀ t, categorized_sample_indices st' t =
                 categorized_sample_indices st t
                 ++ batch_bucket t (categorized_sample_indices_start_idx st) reqs)
         ∧ generators st' =
             generators st ++ batch_generators (world st) reqs.*1
         ∧ world st' = world_after reqs.*1 (world st).
Proof.
  revert i st. induction reqs as [|[r sub] rest IH]; intros i st Hres.
  - exists st. cbn. rewrite !app_nil_r. repeat split.
    intros t. rewrite app_nil_r. reflexivity.
  - destruct (sample_body_ok M subquery_lens i r sub st)
      as (st1 & Hbody & Hsel & Hstart & Hcat & Hccur & Hworld & Hgen & _).
    { specialize (Hres 0%nat (r, sub) eq_refl).
      rewrite Nat.add_0_r in Hres. exact Hres. }
    destruct (IH (S i) st1) as (st' & Hloop & Hsel' & Hcat' & Hgen' & Hworld').
    { intros k rs Hk. specialize (Hres (S k) rs Hk).
      rewrite Nat.add_succ_r in Hres. exact Hres. }
    exists st'. cbn [fmap list_fmap fst sample_loop].
    rewrite Hbody. cbn [mbind result_bind]. split; [exact Hloop|].
    split; [|split; [|split]].
    + rewrite Hsel', Hsel, Hstart. cbn [batch_rows].
      rewrite fmap_app, <- app_assoc. reflexivity.
    + intros t. rewrite Hcat', Hcat, Hccur. cbn [batch_bucket].
      unfold bucket_extend.
      destruct (decide (t = sampling_type (sampling_params r))) as [->|Hne].
      * rewrite decide_True by reflexivity. rewrite <- app_assoc. reflexivity.
      * rewrite decide_False by congruence. reflexivity.
    + rewrite Hgen', Hgen, Hworld. cbn [batch_generators].
      rewrite <- app_assoc. reflexivity.
    + rewrite Hworld', Hworld. reflexivity.
Qed.

(** The resolver on a whole batch, given the subquery length of every
    request. *)
Lemma prepare_sample_ok (reqs : list (SequenceGroupMetadata * Z))
    (prompt_lens : list Z) (subquery_lens : option (list Z)) (M : Z) (w : World) :
  max_subquery_len_of subquery_lens = Ok M →
  (∀ k rs, reqs !! k = Some rs → resolvable subquery_lens k rs) →
  ∃ md, _prepare_sample reqs.*1 prompt_lens subquery_lens w
          = Ok (md, world_after reqs.*1 w)
        ∧ sm_selected_token_indices md = (batch_rows M 0 reqs).*1
        ∧ (∀ t, sm_categorized_sample_indices md t = batch_bucket t 0 reqs)
        ∧ sm_generators md = batch_generators w reqs.*1
        ∧ sm_prompt_lens md = prompt_lens.
Proof.
  intros HM Hres. unfold _prepare_sample. rewrite HM. cbn [mbind result_bind].
  destruct (sample_loop_ok M subquery_lens reqs 0 (sample_locals0 w) Hres)
    as (st & Hloop & Hsel & Hcat & Hgen & Hworld).
  rewrite Hloop. cbn [mbind result_bind]. cbn in Hsel, Hcat, Hgen, Hworld.
  rewrite Hworld. eexists. split; [reflexivity|]. cbn.
  unfold _async_h2d. repeat split; assumption.
Qed.

Lemma max_subquery_len_of_max (subs : list Z) (M : Z) :
  is_max M subs → max_subquery_len_of (Some subs) = Ok M.
Proof.
  intros HM. destruct subs as [|s ss].
  - destruct HM as [Hin _]. inversion Hin.
  - cbn. f_equal. eapply is_max_unique; [apply foldl_max_is_max | exact HM].
Qed.

Lemma prefill_rows_indices (M cursor : Z) (reqs : list (SequenceGroupMetadata * Z)) :
  Forall (λ rs, is_prompt rs.1 = true) reqs →
  (batch_rows M cursor reqs).*1 = prefill_selected M cursor reqs.
Proof.
  intros Hall. revert cursor.
  induction Hall as [|[r sub] rest Hr _ IH]; intros cursor; [reflexivity|].
  cbn in Hr. cbn [batch_rows prefill_selected].
  rewrite fmap_app, request_rows_indices, IH.
  unfold request_stride. rewrite Hr, <- app_assoc. reflexivity.
Qed.

Lemma zip_resolvable (batch : list SequenceGroupMetadata) (subs : list Z) :
  Forall (λ r, is_prompt r = true → length (seq_data r) = 1%nat) batch →
  ∀ k rs, zip batch subs !! k = Some rs → resolvable (Some subs) k rs.
Proof.
  intros Hall k [r s] Hk Hp. cbn [fst snd] in *.
  apply lookup_zip_with_Some in Hk as (r' & s' & Heq & Hr & Hs).
  injection Heq as <- <-. unfold subquery_len_at. rewrite Hs.
  rewrite Forall_lookup in Hall.
  split; [apply (Hall k r Hr Hp) | reflexivity].
Qed.

(** C1. Sampling Index Resolver, all-prefill batch: when every request
    is in prompt phase with exactly one sequence and has its subquery
    length in [subs], the resolver succeeds and its selected indices are
    those of a cursor that starts at 0 and advances by the maximum [M]
    of [subs] after each request, where request [i] contributes the
    range [[cursor, cursor + sub_i - 1)] if it asks for
    [prompt_logprobs], and then always [cursor + sub_i - 1]. *)
Theorem prefill_selected_token_indices (batch : list SequenceGroupMetadata)
    (subs prompt_lens : list Z) (M : Z) (w : World) :
  Forall (λ r, is_prompt r = true ∧ length (seq_data r) = 1%nat) batch →
  length subs = length batch →
  is_max M subs →
  ∃ md w', _prepare_sample batch prompt_lens (Some subs) w = Ok (md, w')
           ∧ sm_selected_token_indices md = prefill_selected M 0 (zip batch subs).
Proof.
  intros Hall Hlen HM.
  destruct (prepare_sample_ok (zip batch subs) prompt_lens (Some subs) M w)
    as (md & Hrun & Hsel & _).
  - apply max_subquery_len_of_max, HM.
  - apply zip_resolvable. eapply Forall_impl; [exact Hall|].
    intros r [_ Hone] _. exact Hone.
  - rewrite fst_zip in Hrun by lia.
    exists md, (world_after batch w). split; [exact Hrun|].
    rewrite Hsel. apply prefill_rows_indices.
    apply Forall_forall. intros [r s] Hin. cbn.
    apply elem_of_zip_l in Hin. rewrite Forall_forall in Hall.
    apply (Hall r Hin).
Qed.

Lemma prefill_selected_token_indices_witness :
  ∃ md w', _prepare_sample
             [prefill 7 [11; 12; 13] GREEDY None (Some 1) 0;
              prefill 8 [21; 22; 23; 24; 25] RANDOM None None 1]
             [3; 5] (Some [3; 5]) world0 = Ok (md, w')
           ∧ sm_selected_token_indices md = [0; 1; 2; 9].
Proof.
  apply (prefill_selected_token_indices
           [prefill 7 [11; 12; 13] GREEDY None (Some 1) 0;
            prefill 8 [21; 22; 23; 24; 25] RANDOM None None 1]
           [3; 5] [3; 5] 5 world0).
  - repeat constructor.
  - reflexivity.
  - split; [apply list_elem_of_further, list_elem_of_here|].
    repeat constructor; lia.
Defined.

(** ** Batch orchestrator *)

Lemma with_subquery_lens_fst (batch : list SequenceGroupMetadata) :
  (with_subquery_lens batch).*1 = batch.
Proof.
  unfold with_subquery_lens. rewrite <- list_fmap_compose. apply list_fmap_id.
Qed.

Lemma forallb_lookup {A : Type} (f : A → bool) (l : list A) (k : nat) (x : A) :
  forallb f l = true → l !! k = Some x → f x = true.
Proof.
  intros Hall Hk. rewrite forallb_forall in Hall.
  apply Hall, list_elem_of_In. eapply list_elem_of_lookup_2, Hk.
Qed.

Lemma prefill_resolvable (batch : list SequenceGroupMetadata) :
  forallb prefill_request_ok batch = true →
  ∀ k rs, with_subquery_lens batch !! k = Some rs →
          resolvable (Some (prompt_len_of <$> batch)) k rs.
Proof.
  intros Hall k [r s] Hk Hp. cbn [fst snd] in *.
  unfold with_subquery_lens in Hk.
  apply list_lookup_fmap_Some in Hk as (r' & Heq & Hr).
  injection Heq as -> ->. rewrite Hp.
  pose proof (forallb_lookup _ _ _ _ Hall Hr) as Hok.
  apply prefill_request_ok_inv in Hok as (_ & seq_id & sd & Hsd & _).
  split; [rewrite Hsd; reflexivity|].
  unfold subquery_len_at. rewrite list_lookup_fmap, Hr. reflexivity.
Qed.

Lemma decode_resolvable (batch : list SequenceGroupMetadata) :
  forallb decode_request_ok batch = true →
  ∀ k rs, with_subquery_lens batch !! k = Some rs → resolvable None k rs.
Proof.
  intros Hall k [r s] Hk Hp. cbn [fst snd] in *.
  unfold with_subquery_lens in Hk.
  apply list_lookup_fmap_Some in Hk as (r' & Heq & Hr).
  injection Heq as -> ->.
  pose proof (forallb_lookup _ _ _ _ Hall Hr) as Hok.
  unfold decode_request_ok in Hok. rewrite Hp in Hok. discriminate.
Qed.

(** The orchestrator on a valid batch: it succeeds, and the sampling
    metadata is the one the request-by-request description gives. *)
Lemma prepare_input_tensors_ok (sliding_window : option Z)
    (batch : list SequenceGroupMetadata) (w : World) :
  valid_batch batch = true →
  ∃ out, prepare_input_tensors sliding_window batch w
           = Ok (out, world_after batch w)
         ∧ selected_of out = (selected_rows batch).*1
         ∧ (∀ t, bucket_of out t = batch_bucket t 0 (with_subquery_lens batch))
         ∧ generators_of out = batch_generators w batch.
Proof.
  unfold valid_batch, selected_of, bucket_of, generators_of, selected_rows.
  intros [[Hok Hpos]%andb_true_iff|Hok]%orb_true_iff.
  - apply Z.ltb_lt in Hpos.
    destruct (prepare_prompt_ok batch Hok Hpos) as (po & Hpo & Hpl & Hsl & _).
    destruct (batch_max_is_max batch Hok) as [_ Hpy].
    destruct (batch_ok_cons _ _ Hok) as (r & rest & Hbatch & Hr & Hrest).
    assert (Hall : forallb prefill_request_ok batch = true).
    { rewrite Hbatch. cbn. rewrite Hr, Hrest. reflexivity. }
    destruct (prepare_sample_ok (with_subquery_lens batch) (po_prompt_lens po)
                (Some (prompt_len_of <$> batch)) (batch_max_subquery_len batch) w)
      as (md & Hmd & Hsel & Hcat & Hgen & _).
    { rewrite Hbatch in Hpy |- *. exact Hpy. }
    { apply prefill_resolvable, Hall. }
    rewrite with_subquery_lens_fst in Hmd, Hgen.
    apply prefill_request_ok_inv in Hr as [Hp _].
    unfold prepare_input_tensors. rewrite Hbatch. cbn [is_prompt]. rewrite Hp.
    rewrite <- Hbatch, Hpo. cbn [mbind result_bind]. rewrite Hsl, Hmd.
    cbn [mbind result_bind]. eexists. split; [reflexivity|].
    cbn [sampling_metadata]. repeat split; assumption.
  - destruct (prepare_decode_ok sliding_window batch Hok)
      as (toks & blocks & _ & Hdec & _).
    destruct (batch_ok_cons _ _ Hok) as (r & rest & Hbatch & Hr & Hrest).
    assert (Hall : forallb decode_request_ok batch = true).
    { rewrite Hbatch. cbn. rewrite Hr, Hrest. reflexivity. }
    assert (Hp : is_prompt r = false).
    { unfold decode_request_ok in Hr. destruct (is_prompt r); [discriminate|reflexivity]. }
    destruct (prepare_sample_ok (with_subquery_lens batch) []
                None (batch_max_subquery_len batch) w)
      as (md & Hmd & Hsel & Hcat & Hgen & _).
    { rewrite Hbatch. unfold batch_max_subquery_len. rewrite Hp. reflexivity. }
    { apply decode_resolvable, Hall. }
    rewrite with_subquery_lens_fst in Hmd, Hgen.
    unfold prepare_input_tensors. rewrite Hbatch. rewrite Hp.
    rewrite <- Hbatch, Hdec. cbn [mbind result_bind]. rewrite Hmd.
    cbn [mbind result_bind]. eexists. split; [reflexivity|].
    cbn [sampling_metadata]. repeat split; assumption.
Qed.

(** ** Order of the selected indices *)

Lemma seqZ_sorted (m n : Z) : StronglySorted Z.lt (seqZ m n).
Proof.
  destruct (Z.le_gt_cases n 0) as [Hn|Hn].
  { rewrite seqZ_nil by exact Hn. constructor. }
  rewrite <- (Z2Nat.id n) by lia.
  induction (Z.to_nat n) as [|k IH]; [constructor|].
  rewrite seqZ_S. apply StronglySorted_app_2.
  - intros x y Hx Hy. apply elem_of_seqZ in Hx.
    apply list_elem_of_singleton in Hy. lia.
  - exact IH.
  - repeat constructor.
Qed.

Lemma increasing_within_app (lo mid hi : Z) (l1 l2 : list Z) :
  lo ≤ mid ≤ hi →
  increasing_within lo mid l1 → increasing_within mid hi l2 →
  increasing_within lo hi (l1 ++ l2).
Proof.
  intros Hmid [Hs1 Hb1] [Hs2 Hb2]. split.
  - apply StronglySorted_app_2; [|assumption..].
    intros x y Hx%Hb1 Hy%Hb2. lia.
  - intros x [Hx%Hb1|Hx%Hb2]%elem_of_app; lia.
Qed.

Lemma increasing_within_seqZ (m n : Z) :
  increasing_within m (m + Z.max 0 n) (seqZ m n).
Proof.
  split; [apply seqZ_sorted|]. intros x Hx%elem_of_seqZ. lia.
Qed.

Lemma increasing_within_weaken (lo hi lo' hi' : Z) (l : list Z) :
  lo' ≤ lo → hi ≤ hi' → increasing_within lo hi l → increasing_within lo' hi' l.
Proof.
  intros Hlo Hhi [Hs Hb]. split; [exact Hs|].
  intros x Hx%Hb. lia.
Qed.

Lemma request_rows_increasing (M cursor : Z) (r : SequenceGroupMetadata) (sub : Z) :
  (is_prompt r = true → 1 ≤ sub ≤ M) →
  increasing_within cursor (cursor + request_stride M r)
    (request_rows cursor r sub).*1.
Proof.
  intros Hsub. rewrite request_rows_indices. unfold request_stride.
  destruct (is_prompt r).
  - specialize (Hsub eq_refl).
    apply (increasing_within_app _ (cursor + sub - 1)); [lia| |].
    + destruct (has_prompt_logprobs r).
      * eapply increasing_within_weaken; [| |apply increasing_within_seqZ]; lia.
      * split; [constructor|]. intros x Hx. inversion Hx.
    + split; [repeat constructor|].
      intros x Hx%list_elem_of_singleton. lia.
  - eapply increasing_within_weaken; [| |apply increasing_within_seqZ];
      unfold num_seqs_of, len; lia.
Qed.

Lemma request_stride_nonneg (M : Z) (r : SequenceGroupMetadata) :
  0 ≤ M → 0 ≤ request_stride M r.
Proof.
  intros HM. unfold request_stride, num_seqs_of, len.
  destruct (is_prompt r); lia.
Qed.

Lemma batch_rows_increasing (M cursor : Z) (reqs : list (SequenceGroupMetadata * Z)) :
  0 ≤ M →
  Forall (λ rs, is_prompt rs.1 = true → 1 ≤ rs.2 ≤ M) reqs →
  ∃ hi, cursor ≤ hi ∧ increasing_within cursor hi (batch_rows M cursor reqs).*1.
Proof.
  intros HM Hall. revert cursor.
  induction Hall as [|[r sub] rest Hr _ IH]; intros cursor.
  - exists cursor. split; [lia|]. split; [constructor|].
    intros x Hx. inversion Hx.
  - cbn [fst snd] in Hr. cbn [batch_rows]. rewrite fmap_app.
    pose proof (request_stride_nonneg M r HM) as Hstride.
    destruct (IH (cursor + request_stride M r)) as (hi & Hhi & Hrest).
    exists hi. split; [lia|].
    apply (increasing_within_app _ (cursor + request_stride M r)); [lia| |exact Hrest].
    apply request_rows_increasing, Hr.
Qed.

Lemma increasing_NoDup (l : list Z) : StronglySorted Z.lt l → NoDup l.
Proof.
  induction 1 as [|x l _ IH Hlt]; constructor; [|exact IH].
  intros Hin. rewrite Forall_forall in Hlt. specialize (Hlt x Hin). lia.
Qed.

Lemma valid_batch_phases (batch : list SequenceGroupMetadata) :
  valid_batch batch = true →
  (prefill_batch_ok batch = true
   ∧ 0 < batch_max_subquery_len batch
   ∧ Forall (λ r, is_prompt r = true) batch
   ∧ Forall (λ r, prompt_len_of r ≤ batch_max_subquery_len batch) batch)
  ∨ (decode_batch_ok batch = true ∧ Forall (λ r, is_prompt r = false) batch).
Proof.
  unfold valid_batch. intros [[Hok Hpos]%andb_true_iff|Hok]%orb_true_iff.
  - left. apply Z.ltb_lt in Hpos. split; [exact Hok|]. split; [exact Hpos|].
    destruct (batch_max_is_max batch Hok) as [Hmax _]. split.
    + destruct (batch_ok_cons _ _ Hok) as (r & rest & -> & Hr & Hrest).
      rewrite forallb_forall in Hrest.
      constructor; [apply prefill_request_ok_inv, Hr|].
      apply Forall_forall. intros r' Hin%list_elem_of_In.
      apply prefill_request_ok_inv, Hrest, Hin.
    + apply prompt_lens_le_max, Hmax.
  - right. split; [exact Hok|].
    destruct (batch_ok_cons _ _ Hok) as (r & rest & -> & Hr & Hrest).
    assert (Hphase : ∀ r', decode_request_ok r' = true → is_prompt r' = false).
    { intros r'. unfold decode_request_ok. destruct (is_prompt r'); [discriminate|reflexivity]. }
    rewrite forallb_forall in Hrest.
    constructor; [apply Hphase, Hr|].
    apply Forall_forall. intros r' Hin%list_elem_of_In. apply Hphase, Hrest, Hin.
Qed.

Lemma valid_subquery_bounds (batch : list SequenceGroupMetadata) :
  valid_batch batch = true →
  nonempty_prompts batch = true →
  0 ≤ batch_max_subquery_len batch
  ∧ Forall (λ rs, is_prompt rs.1 = true → 1 ≤ rs.2 ≤ batch_max_subquery_len batch)
      (with_subquery_lens batch).
Proof.
  intros Hvalid Hnonempty. unfold nonempty_prompts in Hnonempty.
  rewrite forallb_forall in Hnonempty.
  destruct (valid_batch_phases batch Hvalid)
    as [(_ & Hpos & _ & Hle)|(Hok & Hphase)].
  - split; [lia|]. unfold with_subquery_lens. apply Forall_fmap.
    rewrite Forall_forall in Hle |- *. intros r Hin. cbn. intros Hp. rewrite Hp.
    specialize (Hnonempty r (proj1 (list_elem_of_In _ _) Hin)).
    rewrite Hp in Hnonempty. cbn in Hnonempty. unfold nonempty_prompt in Hnonempty.
    apply Z.ltb_lt in Hnonempty. specialize (Hle r Hin). cbn in Hle. lia.
  - split.
    + destruct (batch_ok_cons _ _ Hok) as (r & rest & -> & Hr & _).
      unfold batch_max_subquery_len. inversion Hphase as [|? ? Hp _]; subst.
      rewrite Hp. lia.
    + unfold with_subquery_lens. apply Forall_fmap.
      eapply Forall_impl; [exact Hphase|]. intros r Hp. cbn. congruence.
Qed.

(** C10 (as the code has it). On every valid all-prefill batch whose
    prompts are all non-empty, and on every valid all-decode batch, the
    orchestrator succeeds and the selected token indices of the
    resolver are strictly increasing, hence pairwise distinct. *)
Theorem selected_token_indices_increasing (sliding_window : option Z)
    (batch : list SequenceGroupMetadata) (w : World) :
  valid_batch batch = true →
  nonempty_prompts batch = true →
  ∃ out w', prepare_input_tensors sliding_window batch w = Ok (out, w')
            ∧ StronglySorted Z.lt (selected_of out)
            ∧ NoDup (selected_of out).
Proof.
  intros Hvalid Hnonempty.
  destruct (prepare_input_tensors_ok sliding_window batch w Hvalid)
    as (out & Hrun & Hsel & _).
  destruct (valid_subquery_bounds batch Hvalid Hnonempty) as [HM Hbounds].
  destruct (batch_rows_increasing _ 0 _ HM Hbounds) as (hi & _ & Hsorted & _).
  exists out, (world_after batch w). split; [exact Hrun|].
  rewrite Hsel. split; [exact Hsorted | apply increasing_NoDup, Hsorted].
Qed.

Lemma selected_token_indices_increasing_witness :
  ∃ out w', prepare_input_tensors None batch_3_5 world0 = Ok (out, w')
            ∧ StronglySorted Z.lt (selected_of out)
            ∧ NoDup (selected_of out).
Proof.
  apply (selected_token_indices_increasing None batch_3_5 world0);
    vm_compute; reflexivity.
Defined.

(** C10 (as stated) fails on a batch that passes every assertion of the
    builders: two prefill requests with prompts of length 1 and 0 give
    the selected indices [[0; 0]]. *)
Lemma empty_prompt_repeats_selected_index :
  valid_batch batch_1_0 = true
  ∧ ∃ out w', prepare_input_tensors None batch_1_0 world0 = Ok (out, w')
              ∧ selected_of out = [0; 0]
              ∧ ¬ StronglySorted Z.lt (selected_of out)
              ∧ ¬ NoDup (selected_of out).
Proof.
  split; [vm_compute; reflexivity|].
  eexists _, _. split; [vm_compute; reflexivity|].
  split; [reflexivity|]. split.
  - intros Hs. apply increasing_NoDup in Hs. vm_compute in Hs.
    apply NoDup_cons in Hs as [Hnotin _]. apply Hnotin, list_elem_of_here.
  - intros Hs. vm_compute in Hs.
    apply NoDup_cons in Hs as [Hnotin _]. apply Hnotin, list_elem_of_here.
Qed.

(** ** The worked prefill example *)

(** C4 (as the code has it). For a batch of exactly two prefill
    requests with prompt lengths 3 and 5 and no [prompt_logprobs], the
    maximum subquery length is 5 and the selected indices are [[2; 9]]:
    the index of the first request is [0 * 5 + (3 - 1) = 2], the row of
    its last real token. *)
Theorem two_prefill_3_5_selected (sliding_window : option Z)
    (r1 r2 : SequenceGroupMetadata) (w : World) :
  prefill_request_ok r1 = true →
  prefill_request_ok r2 = true →
  prompt_len_of r1 = 3 →
  prompt_len_of r2 = 5 →
  has_prompt_logprobs r1 = false →
  has_prompt_logprobs r2 = false →
  ∃ out w', prepare_input_tensors sliding_window [r1; r2] w = Ok (out, w')
            ∧ max_subquery_len_of (Some (prompt_len_of <$> [r1; r2])) = Ok 5
            ∧ selected_of out = [2; 9].
Proof.
  intros Hok1 Hok2 Hlen1 Hlen2 Hplp1 Hplp2.
  destruct (prefill_request_ok_inv r1 Hok1) as [Hp1 _].
  destruct (prefill_request_ok_inv r2 Hok2) as [Hp2 _].
  assert (Hmax : batch_max_subquery_len [r1; r2] = 5).
  { unfold batch_max_subquery_len. rewrite Hp1. cbn. rewrite Hlen1, Hlen2.
    reflexivity. }
  destruct (prepare_input_tensors_ok sliding_window [r1; r2] w)
    as (out & Hrun & Hsel & _).
  { unfold valid_batch, prefill_batch_ok. rewrite Hmax. cbn.
    rewrite Hok1, Hok2. reflexivity. }
  exists out, (world_after [r1; r2] w). split; [exact Hrun|]. split.
  - cbn. rewrite Hlen1, Hlen2. reflexivity.
  - rewrite Hsel. unfold selected_rows. rewrite Hmax. cbn.
    unfold request_rows, request_stride.
    rewrite Hp1, Hp2, Hplp1, Hplp2, Hlen1, Hlen2. reflexivity.
Qed.

Lemma two_prefill_3_5_selected_witness :
  ∃ out w', prepare_input_tensors None batch_3_5 world0 = Ok (out, w')
            ∧ max_subquery_len_of (Some (prompt_len_of <$> batch_3_5)) = Ok 5
            ∧ selected_of out = [2; 9].
Proof.
  apply (two_prefill_3_5_selected None
           (prefill 7 [11; 12; 13] GREEDY None None 0)
           (prefill 8 [21; 22; 23; 24; 25] GREEDY None None 1) world0);
    vm_compute; reflexivity.
Defined.

(** C4 (as stated) fails: on the batch of the example the first selected
    index is not 4. *)
Lemma first_selected_index_is_not_4 :
  ¬ ∃ out w', prepare_input_tensors None batch_3_5 world0 = Ok (out, w')
              ∧ selected_of out !! 0%nat = Some 4.
Proof.
  intros (out & w' & Hrun & Hfirst).
  vm_compute in Hrun. injection Hrun as <- _.
  vm_compute in Hfirst. discriminate.
Qed.

(** ** Number of selected indices *)

Lemma len_fmap {A B : Type} (f : A → B) (l : list A) : len (f <$> l) = len l.
Proof. unfold len. rewrite length_fmap. reflexivity. Qed.

Lemma len_seqZ (m n : Z) : 0 ≤ n → len (seqZ m n) = n.
Proof. intros Hn. unfold len. rewrite length_seqZ. lia. Qed.

Lemma request_rows_len (cursor : Z) (r : SequenceGroupMetadata) (sub : Z) :
  (is_prompt r = true → 1 ≤ sub) →
  len (request_rows cursor r sub) = bucket_stride r sub.
Proof.
  intros Hsub. unfold request_rows, bucket_stride.
  destruct (is_prompt r).
  - specialize (Hsub eq_refl). rewrite len_app.
    destruct (has_prompt_logprobs r).
    + rewrite len_fmap, len_seqZ by lia. reflexivity.
    + reflexivity.
  - rewrite len_fmap, len_seqZ; [reflexivity|].
    unfold num_seqs_of, len. lia.
Qed.

Lemma batch_rows_len (M cursor : Z) (reqs : list (SequenceGroupMetadata * Z)) :
  Forall (λ rs, is_prompt rs.1 = true → 1 ≤ rs.2) reqs →
  len (batch_rows M cursor reqs) = Zsum ((λ rs, bucket_stride rs.1 rs.2) <$> reqs).
Proof.
  intros Hall. revert cursor.
  induction Hall as [|[r sub] rest Hr _ IH]; intros cursor; [reflexivity|].
  cbn [batch_rows]. rewrite len_app, IH, request_rows_len by exact Hr.
  reflexivity.
Qed.

Lemma Zsum_cons (x : Z) (l : list Z) : Zsum (x :: l) = x + Zsum l.
Proof. reflexivity. Qed.

Lemma bucket_strides_sum (batch : list SequenceGroupMetadata) :
  Zsum ((λ rs, bucket_stride rs.1 rs.2) <$> with_subquery_lens batch)
  = len batch + Zsum (extra_indices <$> batch).
Proof.
  unfold with_subquery_lens.
  induction batch as [|r rest IH]; [reflexivity|].
  rewrite !fmap_cons, !Zsum_cons, IH. cbn [fst snd].
  unfold bucket_stride, extra_indices, len. cbn [length].
  destruct (is_prompt r), (has_prompt_logprobs r); lia.
Qed.

Lemma extra_indices_nonneg (batch : list SequenceGroupMetadata) :
  valid_batch batch = true →
  nonempty_prompts batch = true →
  nonempty_requests batch = true →
  Forall (λ r, 0 ≤ extra_indices r) batch.
Proof.
  intros _ Hprompts Hrequests.
  unfold nonempty_prompts in Hprompts. unfold nonempty_requests in Hrequests.
  rewrite forallb_forall in Hprompts, Hrequests.
  apply Forall_forall. intros r Hin%list_elem_of_In.
  specialize (Hprompts r Hin). specialize (Hrequests r Hin).
  unfold extra_indices, nonempty_prompt, has_sequences in *.
  destruct (is_prompt r); cbn in Hprompts, Hrequests.
  - apply Z.ltb_lt in Hprompts. destruct (has_prompt_logprobs r); lia.
  - apply Z.ltb_lt in Hrequests. lia.
Qed.

Lemma Zsum_nonneg (l : list Z) : Forall (λ x, 0 ≤ x) l → 0 ≤ Zsum l.
Proof. induction 1 as [|x l Hx _ IH]; [reflexivity|]. rewrite Zsum_cons. lia. Qed.

Lemma Zsum_zero (l : list Z) : Forall (λ x, x = 0) l → Zsum l = 0.
Proof. induction 1 as [|x l Hx _ IH]; [reflexivity|]. rewrite Zsum_cons. lia. Qed.

(** C3 (as the code has it). On every valid batch with non-empty
    prompts and non-empty requests, the number of selected indices is
    the number of requests plus the extra indices of every request: a
    prefill request with [prompt_logprobs] adds its subquery length
    minus one, a decode request adds its number of sequences minus one,
    any other request adds none.  So the number is at least the number
    of requests, and equal to it when no prefill request sets
    [prompt_logprobs] and every decode request holds one sequence. *)
Theorem selected_token_indices_count (sliding_window : option Z)
    (batch : list SequenceGroupMetadata) (w : World) :
  valid_batch batch = true →
  nonempty_prompts batch = true →
  nonempty_requests batch = true →
  ∃ out w', prepare_input_tensors sliding_window batch w = Ok (out, w')
            ∧ len (selected_of out) = len batch + Zsum (extra_indices <$> batch)
            ∧ len batch ≤ len (selected_of out)
            ∧ (Forall (λ r, if is_prompt r
                            then has_prompt_logprobs r = false
                            else num_seqs_of r = 1) batch →
               len (selected_of out) = len batch).
Proof.
  intros Hvalid Hprompts Hrequests.
  destruct (prepare_input_tensors_ok sliding_window batch w Hvalid)
    as (out & Hrun & Hsel & _).
  destruct (valid_subquery_bounds batch Hvalid Hprompts) as [_ Hbounds].
  assert (Hcount : len (selected_of out)
                   = len batch + Zsum (extra_indices <$> batch)).
  { rewrite Hsel, len_fmap. unfold selected_rows.
    rewrite batch_rows_len, bucket_strides_sum; [reflexivity|].
    eapply Forall_impl; [exact Hbounds|]. intros rs Hrs Hp.
    specialize (Hrs Hp). lia. }
  exists out, (world_after batch w). split; [exact Hrun|].
  split; [exact Hcount|]. rewrite Hcount. split.
  - pose proof (extra_indices_nonneg batch Hvalid Hprompts Hrequests) as Hextra.
    assert (0 ≤ Zsum (extra_indices <$> batch)); [|lia].
    apply Zsum_nonneg, Forall_fmap. exact Hextra.
  - intros Hplain. rewrite Zsum_zero; [lia|].
    apply Forall_fmap. eapply Forall_impl; [exact Hplain|].
    intros r. unfold compose, extra_indices.
    destruct (is_prompt r); intros Hr; [rewrite Hr; reflexivity | lia].
Qed.

Lemma selected_token_indices_count_witness :
  ∃ out w', prepare_input_tensors None
              [prefill 7 [11; 12; 13] GREEDY None (Some 1) 0;
               prefill 8 [21; 22] RANDOM None None 1] world0 = Ok (out, w')
            ∧ len (selected_of out) = 2 + (2 + (0 + 0))
            ∧ 2 ≤ len (selected_of out)
            ∧ (Forall (λ r, if is_prompt r
                            then has_prompt_logprobs r = false
                            else num_seqs_of r = 1)
                 [prefill 7 [11; 12; 13] GREEDY None (Some 1) 0;
                  prefill 8 [21; 22] RANDOM None None 1] →
               len (selected_of out) = 2).
Proof.
  apply (selected_token_indices_count None
           [prefill 7 [11; 12; 13] GREEDY None (Some 1) 0;
            prefill 8 [21; 22] RANDOM None None 1] world0);
    vm_compute; reflexivity.
Defined.

(** C3 (as stated) fails on a decode batch: one decode request that
    holds two sequences and sets no [prompt_logprobs] gives two selected
    indices for one request. *)
Lemma two_sequences_two_selected_indices :
  valid_batch batch_two_sequences = true
  ∧ Forall (λ r, has_prompt_logprobs r = false) batch_two_sequences
  ∧ ∃ out w', prepare_input_tensors None batch_two_sequences world0 = Ok (out, w')
              ∧ selected_of out = [0; 1]
              ∧ len (selected_of out) ≠ len batch_two_sequences.
Proof.
  split; [vm_compute; reflexivity|]. split; [repeat constructor|].
  eexists _, _. split; [vm_compute; reflexivity|].
  split; [reflexivity|]. vm_compute. discriminate.
Qed.

(** ** Strategy buckets *)

Lemma decision_positions_app (t : SamplingType) (base : Z) (l1 l2 : list Role) :
  decision_positions t base (l1 ++ l2)
  = decision_positions t base l1 ++ decision_positions t (base + len l1) l2.
Proof.
  revert base. induction l1 as [|role l1 IH]; intros base.
  - cbn. rewrite Z.add_0_r. reflexivity.
  - cbn [app decision_positions]. rewrite IH, <- app_assoc.
    do 3 f_equal. unfold len. cbn [length]. lia.
Qed.

Lemma snd_tagged {A : Type} (x : A) (l : list Z) :
  ((λ k, (k, x)) <$> l).*2 = replicate (length l) x.
Proof.
  induction l as [|k l IH]; [reflexivity|]. cbn. f_equal. exact IH.
Qed.

Lemma decision_positions_logprob (t : SamplingType) (base : Z) (n : nat) :
  decision_positions t base (replicate n LogprobOnly) = [].
Proof.
  revert base. induction n as [|n IH]; intros base; [reflexivity|].
  cbn. apply IH.
Qed.

Lemma decision_positions_same (t : SamplingType) (base : Z) (n : nat) :
  decision_positions t base (replicate n (Decision t)) = seqZ base (Z.of_nat n).
Proof.
  revert base. induction n as [|n IH]; intros base; [reflexivity|].
  cbn [replicate decision_positions]. rewrite decide_True by reflexivity.
  rewrite IH, (seqZ_cons base) by lia. cbn. do 2 f_equal; lia.
Qed.

Lemma decision_positions_other (t t0 : SamplingType) (base : Z) (n : nat) :
  t0 ≠ t → decision_positions t base (replicate n (Decision t0)) = [].
Proof.
  intros Hne. revert base. induction n as [|n IH]; intros base; [reflexivity|].
  cbn [replicate decision_positions]. rewrite decide_False by congruence.
  apply IH.
Qed.

Lemma request_rows_decisions (t : SamplingType) (ccur cursor : Z)
    (r : SequenceGroupMetadata) (sub : Z) :
  (is_prompt r = true → 1 ≤ sub) →
  decision_positions t ccur (request_rows cursor r sub).*2
  = if decide (sampling_type (sampling_params r) = t)
    then request_bucket ccur r sub else [].
Proof.
  intros Hsub. unfold request_rows, request_bucket.
  destruct (is_prompt r).
  - specialize (Hsub eq_refl). rewrite fmap_app, decision_positions_app.
    destruct (has_prompt_logprobs r).
    + rewrite snd_tagged, decision_positions_logprob. unfold len.
      rewrite length_replicate, length_seqZ, Z2Nat.id by lia. cbn.
      destruct (decide (sampling_type (sampling_params r) = t)) as [->|Hne].
      * rewrite decide_True by reflexivity. reflexivity.
      * rewrite decide_False by congruence. reflexivity.
    + cbn. rewrite Z.add_0_r.
      destruct (decide (sampling_type (sampling_params r) = t)) as [->|Hne].
      * rewrite decide_True by reflexivity. reflexivity.
      * rewrite decide_False by congruence. reflexivity.
  - rewrite snd_tagged, length_seqZ.
    destruct (decide (sampling_type (sampling_params r) = t)) as [->|Hne].
    + rewrite decision_positions_same. f_equal.
      unfold num_seqs_of, len. lia.
    + apply decision_positions_other, Hne.
Qed.

Lemma batch_bucket_decisions (t : SamplingType) (M ccur cursor : Z)
    (reqs : list (SequenceGroupMetadata * Z)) :
  Forall (λ rs, is_prompt rs.1 = true → 1 ≤ rs.2) reqs →
  batch_bucket t ccur reqs = decision_positions t ccur (batch_rows M cursor reqs).*2.
Proof.
  intros Hall. revert ccur cursor.
  induction Hall as [|[r sub] rest Hr _ IH]; intros ccur cursor; [reflexivity|].
  cbn [fst snd] in Hr. cbn [batch_bucket batch_rows].
  rewrite fmap_app, decision_positions_app, request_rows_decisions by exact Hr.
  f_equal. rewrite len_fmap, request_rows_len by exact Hr. apply IH.
Qed.

Lemma decision_positions_elem (t : SamplingType) (base : Z) (roles : list Role)
    (x : Z) :
  x ∈ decision_positions t base roles
  ↔ ∃ j : nat, x = base + Z.of_nat j ∧ roles !! j = Some (Decision t).
Proof.
  revert base. induction roles as [|role rest IH]; intros base.
  - cbn. split; [intros Hx; inversion Hx | intros (j & _ & Hj); discriminate].
  - cbn [decision_positions]. rewrite elem_of_app, IH. split.
    + intros [Hhead|(j & -> & Hj)].
      * destruct (decide (role = Decision t)) as [->|]; [|inversion Hhead].
        apply list_elem_of_singleton in Hhead as ->.
        exists 0%nat. split; [lia | reflexivity].
      * exists (S j). split; [lia | exact Hj].
    + intros ([|j] & -> & Hj).
      * left. injection Hj as ->. rewrite decide_True by reflexivity.
        rewrite Z.add_0_r. apply list_elem_of_here.
      * right. exists j. split; [lia | exact Hj].
Qed.

Lemma decision_positions_increasing (t : SamplingType) (base : Z)
    (roles : list Role) :
  increasing_within base (base + len roles) (decision_positions t base roles).
Proof.
  revert base. induction roles as [|role rest IH]; intros base.
  - split; [constructor|]. intros x Hx. inversion Hx.
  - cbn [decision_positions].
    apply (increasing_within_app _ (base + 1)).
    + unfold len. cbn [length]. lia.
    + destruct (decide (role = Decision t)).
      * split; [repeat constructor|].
        intros x Hx%list_elem_of_singleton. lia.
      * split; [constructor|]. intros x Hx. inversion Hx.
    + eapply increasing_within_weaken; [| |apply IH]; unfold len; cbn [length]; lia.
Qed.

(** C2 (as the code has it). On every valid batch whose prompts are all
    non-empty, the bucket of a strategy holds exactly the positions, in
    the selected-index list, of the rows read for a next-token decision
    of a request with that strategy.  So the buckets are pairwise
    disjoint, the indices of a bucket are distinct positions within
    [[0, len(selected_token_indices))], and their union is the set of
    positions of the decision rows: the positions of rows selected only
    for prompt log-probabilities are in no bucket. *)
Theorem strategy_buckets_partition (sliding_window : option Z)
    (batch : list SequenceGroupMetadata) (w : World) :
  valid_batch batch = true →
  nonempty_prompts batch = true →
  ∃ out w', prepare_input_tensors sliding_window batch w = Ok (out, w')
    ∧ selected_of out = (selected_rows batch).*1
    ∧ (∀ t x, x ∈ bucket_of out t
              ↔ ∃ j : nat, x = Z.of_nat j
                           ∧ (selected_rows batch).*2 !! j = Some (Decision t))
    ∧ (∀ t1 t2 x, x ∈ bucket_of out t1 → x ∈ bucket_of out t2 → t1 = t2)
    ∧ (∀ t, NoDup (bucket_of out t))
    ∧ (∀ t x, x ∈ bucket_of out t → 0 ≤ x < len (selected_of out))
    ∧ (∀ j : nat, (∃ t, Z.of_nat j ∈ bucket_of out t)
                  ↔ ∃ t, (selected_rows batch).*2 !! j = Some (Decision t))
    ∧ (∀ j : nat, (selected_rows batch).*2 !! j = Some LogprobOnly →
                  ∀ t, Z.of_nat j ∉ bucket_of out t).
Proof.
  intros Hvalid Hnonempty.
  destruct (prepare_input_tensors_ok sliding_window batch w Hvalid)
    as (out & Hrun & Hsel & Hcat & _).
  destruct (valid_subquery_bounds batch Hvalid Hnonempty) as [_ Hbounds].
  assert (Hpos : Forall (λ rs, is_prompt rs.1 = true → 1 ≤ rs.2)
                   (with_subquery_lens batch)).
  { eapply Forall_impl; [exact Hbounds|]. intros rs Hrs Hp.
    specialize (Hrs Hp). lia. }
  assert (Hbucket : ∀ t, bucket_of out t
                         = decision_positions t 0 (selected_rows batch).*2).
  { intros t. rewrite Hcat. apply batch_bucket_decisions, Hpos. }
  assert (Helem : ∀ t x, x ∈ bucket_of out t
                         ↔ ∃ j : nat, x = Z.of_nat j
                             ∧ (selected_rows batch).*2 !! j = Some (Decision t)).
  { intros t x. rewrite Hbucket, decision_positions_elem. reflexivity. }
  exists out, (world_after batch w). split; [exact Hrun|].
  split; [exact Hsel|]. split; [exact Helem|].
  split; [|split; [|split; [|split]]].
  - intros t1 t2 x (j1 & -> & Hj1)%Helem (j2 & Heq & Hj2)%Helem.
    apply Nat2Z.inj in Heq as <-. congruence.
  - intros t. rewrite Hbucket.
    apply increasing_NoDup, decision_positions_increasing.
  - intros t x Hx. rewrite Hbucket in Hx.
    apply decision_positions_increasing in Hx.
    rewrite Hsel, !len_fmap in *. lia.
  - intros j. split.
    + intros (t & (j' & Heq & Hj)%Helem). apply Nat2Z.inj in Heq as <-. eauto.
    + intros (t & Hj). exists t. apply Helem. eauto.
  - intros j Hj t (j' & Heq & Hj')%Helem. apply Nat2Z.inj in Heq as <-.
    congruence.
Qed.

Lemma strategy_buckets_partition_witness :
  ∃ out w', prepare_input_tensors None
              [prefill 7 [11; 12; 13] GREEDY None (Some 1) 0;
               prefill 8 [21; 22] RANDOM None None 1] world0 = Ok (out, w')
    ∧ selected_of out = [0; 1; 2; 4]
    ∧ (∀ t x, x ∈ bucket_of out t
              ↔ ∃ j : nat, x = Z.of_nat j
                           ∧ [LogprobOnly; LogprobOnly; Decision GREEDY;
                              Decision RANDOM] !! j = Some (Decision t))
    ∧ (∀ t1 t2 x, x ∈ bucket_of out t1 → x ∈ bucket_of out t2 → t1 = t2)
    ∧ (∀ t, NoDup (bucket_of out t))
    ∧ (∀ t x, x ∈ bucket_of out t → 0 ≤ x < len (selected_of out))
    ∧ (∀ j : nat, (∃ t, Z.of_nat j ∈ bucket_of out t)
                  ↔ ∃ t, [LogprobOnly; LogprobOnly; Decision GREEDY;
                          Decision RANDOM] !! j = Some (Decision t))
    ∧ (∀ j : nat, [LogprobOnly; LogprobOnly; Decision GREEDY;
                   Decision RANDOM] !! j = Some LogprobOnly →
                  ∀ t, Z.of_nat j ∉ bucket_of out t).
Proof.
  apply (strategy_buckets_partition None
           [prefill 7 [11; 12; 13] GREEDY None (Some 1) 0;
            prefill 8 [21; 22] RANDOM None None 1] world0);
    vm_compute; reflexivity.
Defined.

(** C2 (as stated) fails on a batch that passes every assertion of the
    builders: two prefill requests with prompts of length 1 and 0, the
    second asking for [prompt_logprobs], put the index 0 twice into the
    deterministic bucket. *)
Lemma empty_prompt_repeats_bucket_index :
  valid_batch batch_1_0 = true
  ∧ ∃ out w', prepare_input_tensors None batch_1_0 world0 = Ok (out, w')
              ∧ bucket_of out GREEDY = [0; 0]
              ∧ ¬ NoDup (bucket_of out GREEDY).
Proof.
  split; [vm_compute; reflexivity|].
  eexists _, _. split; [vm_compute; reflexivity|].
  split; [reflexivity|].
  intros Hs. vm_compute in Hs.
  apply NoDup_cons in Hs as [Hnotin _]. apply Hnotin, list_elem_of_here.
Qed.

(** ** Generator handles of seeded requests *)

Lemma attached_generators_cons (w : World) (r : SequenceGroupMetadata)
    (rest : list SequenceGroupMetadata) :
  attached_generators w (r :: rest)
  = (if is_seeded r then [get_generator (state r) w] else [])
    ++ attached_generators w rest.
Proof.
  unfold attached_generators. rewrite filter_cons.
  destruct (is_seeded r); [rewrite decide_True by reflexivity; reflexivity|].
  rewrite decide_False by discriminate. reflexivity.
Qed.

Lemma world_after_decode (batch : list SequenceGroupMetadata) (w : World) :
  Forall (λ r, is_prompt r = false) batch → world_after batch w = w.
Proof.
  unfold world_after. induction 1 as [|r rest Hr _ IH]; [reflexivity|].
  cbn [foldl]. unfold world_after_request at 2. rewrite Hr. exact IH.
Qed.

Lemma batch_generators_decode (batch : list SequenceGroupMetadata) (w : World) :
  Forall (λ r, is_prompt r = false) batch →
  batch_generators w batch = attached_generators w batch.
Proof.
  induction 1 as [|r rest Hr _ IH]; [reflexivity|].
  cbn [batch_generators]. rewrite attached_generators_cons.
  unfold world_after_request. rewrite Hr, IH. reflexivity.
Qed.

Lemma attached_generators_identity (w : World)
    (batch1 batch2 : list SequenceGroupMetadata) :
  request_identity <$> batch1 = request_identity <$> batch2 →
  attached_generators w batch1 = attached_generators w batch2.
Proof.
  revert batch2. induction batch1 as [|r1 rest1 IH]; intros [|r2 rest2] Hid;
    try discriminate; [reflexivity|].
  rewrite !fmap_cons in Hid. injection Hid as Hstate Hseed Hrest.
  rewrite !attached_generators_cons, (IH rest2 Hrest).
  unfold is_seeded. rewrite Hstate, Hseed. reflexivity.
Qed.

Lemma attached_generators_length (w : World) (batch : list SequenceGroupMetadata) :
  length (attached_generators w batch)
  = length (filter (λ r, is_seeded r = true) batch).
Proof. unfold attached_generators. apply length_fmap. Qed.

Lemma batch_generators_prefill (batch : list SequenceGroupMetadata) (w : World) :
  Forall (λ r, is_prompt r = true) batch →
  batch_generators w batch = fresh_generators (next_generator w) batch.
Proof.
  intros Hall. revert w. induction Hall as [|r rest Hr _ IH]; intros w;
    [reflexivity|].
  cbn [batch_generators fresh_generators]. rewrite IH.
  unfold world_after_request, is_seeded. rewrite Hr.
  destruct (seed (sampling_params r)) as [s|]; [|reflexivity].
  cbn. unfold get_generator. cbn. rewrite lookup_insert_eq. reflexivity.
Qed.

Lemma world_after_request_other (r : SequenceGroupMetadata) (w : World)
    (addr : nat) :
  addr ≠ state r →
  get_generator addr (world_after_request r w) = get_generator addr w.
Proof.
  intros Hne. unfold world_after_request.
  destruct (is_prompt r); [|reflexivity].
  destruct (seed (sampling_params r)); [|reflexivity].
  unfold get_generator. cbn. apply lookup_insert_ne. congruence.
Qed.

Lemma world_after_other (batch : list SequenceGroupMetadata) (w : World)
    (addr : nat) :
  addr ∉ state <$> batch →
  get_generator addr (world_after batch w) = get_generator addr w.
Proof.
  unfold world_after. revert w.
  induction batch as [|r rest IH]; intros w Hnotin; [reflexivity|].
  rewrite fmap_cons in Hnotin. apply not_elem_of_cons in Hnotin as [Hne Hrest].
  cbn [foldl]. rewrite IH by exact Hrest.
  apply world_after_request_other, Hne.
Qed.

Lemma batch_generators_attached (batch : list SequenceGroupMetadata) (w : World) :
  NoDup (state <$> batch) →
  attached_generators (world_after batch w) batch = batch_generators w batch.
Proof.
  revert w. induction batch as [|r rest IH]; intros w Hnodup; [reflexivity|].
  rewrite fmap_cons in Hnodup. apply NoDup_cons in Hnodup as [Hnotin Hnodup].
  rewrite attached_generators_cons. cbn [batch_generators].
  change (world_after (r :: rest) w)
    with (world_after rest (world_after_request r w)).
  rewrite IH by exact Hnodup. rewrite world_after_other by exact Hnotin.
  reflexivity.
Qed.

(** C8 (as the code has it). A decode step creates and replaces no
    handle: it leaves the world as it is and appends, once per seeded
    request, the handle attached to the state of the request; so two
    sequential decode steps over the same requests yield identical
    handles.  A prefill step creates a new handle for every seeded
    request, whatever was attached before, attaches it to the state of
    the request, and appends it once; with one state per request the
    handles attached after the step are the ones it appended. *)
Theorem seeded_generator_lifecycle :
  (∀ sliding_window batch w,
     decode_batch_ok batch = true →
     ∃ out, prepare_input_tensors sliding_window batch w = Ok (out, w)
            ∧ generators_of out = attached_generators w batch
            ∧ length (generators_of out)
              = length (filter (λ r, is_seeded r = true) batch))
  ∧ (∀ sliding_window batch1 batch2 w,
       decode_batch_ok batch1 = true →
       decode_batch_ok batch2 = true →
       request_identity <$> batch1 = request_identity <$> batch2 →
       ∃ out1 out2,
         prepare_input_tensors sliding_window batch1 w = Ok (out1, w)
         ∧ prepare_input_tensors sliding_window batch2 w = Ok (out2, w)
         ∧ generators_of out1 = generators_of out2)
  ∧ (∀ sliding_window batch w,
       prefill_batch_ok batch = true →
       0 < batch_max_subquery_len batch →
       ∃ out w',
         prepare_input_tensors sliding_window batch w = Ok (out, w')
         ∧ generators_of out = fresh_generators (next_generator w) batch
         ∧ (NoDup (state <$> batch) →
            attached_generators w' batch = generators_of out)).
Proof.
  assert (Hdecode : ∀ sliding_window batch w,
            decode_batch_ok batch = true →
            ∃ out, prepare_input_tensors sliding_window batch w = Ok (out, w)
                   ∧ generators_of out = attached_generators w batch).
  { intros sliding_window batch w Hok.
    assert (Hvalid : valid_batch batch = true).
    { unfold valid_batch. rewrite Hok. apply orb_true_r. }
    destruct (valid_batch_phases batch Hvalid)
      as [(Hpre & _ & Hphase & _)|(_ & Hphase)].
    { destruct (batch_ok_cons _ _ Hpre) as (r & rest & -> & _ & _).
      destruct (batch_ok_cons _ _ Hok) as (r' & rest' & Heq & Hr' & _).
      injection Heq as <- <-. inversion Hphase as [|? ? Hp _]; subst.
      unfold decode_request_ok in Hr'. rewrite Hp in Hr'. discriminate. }
    destruct (prepare_input_tensors_ok sliding_window batch w Hvalid)
      as (out & Hrun & _ & _ & Hgen).
    rewrite world_after_decode in Hrun by exact Hphase.
    rewrite batch_generators_decode in Hgen by exact Hphase.
    exists out. split; assumption. }
  split; [|split].
  - intros sliding_window batch w Hok.
    destruct (Hdecode sliding_window batch w Hok) as (out & Hrun & Hgen).
    exists out. split; [exact Hrun|]. split; [exact Hgen|].
    rewrite Hgen. apply attached_generators_length.
  - intros sliding_window batch1 batch2 w Hok1 Hok2 Hid.
    destruct (Hdecode sliding_window batch1 w Hok1) as (out1 & Hrun1 & Hgen1).
    destruct (Hdecode sliding_window batch2 w Hok2) as (out2 & Hrun2 & Hgen2).
    exists out1, out2. split; [exact Hrun1|]. split; [exact Hrun2|].
    rewrite Hgen1, Hgen2. apply attached_generators_identity, Hid.
  - intros sliding_window batch w Hok Hpos.
    assert (Hvalid : valid_batch batch = true).
    { unfold valid_batch. rewrite Hok.
      apply Z.ltb_lt in Hpos. rewrite Hpos. reflexivity. }
    destruct (valid_batch_phases batch Hvalid)
      as [(_ & _ & Hphase & _)|(Hdec & Hphase)]; cycle 1.
    { destruct (batch_ok_cons _ _ Hok) as (r & rest & -> & Hr & _).
      apply prefill_request_ok_inv in Hr as [Hp _].
      inversion Hphase as [|? ? Hp' _]; subst. congruence. }
    destruct (prepare_input_tensors_ok sliding_window batch w Hvalid)
      as (out & Hrun & _ & _ & Hgen).
    exists out, (world_after batch w). split; [exact Hrun|]. split.
    + rewrite Hgen. apply batch_generators_prefill, Hphase.
    + intros Hnodup. rewrite Hgen. apply batch_generators_attached, Hnodup.
Qed.

Lemma seeded_generator_lifecycle_witness :
  (∃ out, prepare_input_tensors None batch_seeded_decode world_seeded
            = Ok (out, world_seeded)
          ∧ generators_of out = [Some {| gen_id := 0; gen_seed := 42 |}]
          ∧ length (generators_of out) = 1%nat)
  ∧ (∃ out1 out2,
       prepare_input_tensors None batch_seeded_decode world_seeded
         = Ok (out1, world_seeded)
       ∧ prepare_input_tensors None
           [decode [(7, [11; 12; 13; 14])] RANDOM_SEED (Some 42) 0] world_seeded
         = Ok (out2, world_seeded)
       ∧ generators_of out1 = generators_of out2)
  ∧ (∃ out w',
       prepare_input_tensors None batch_seeded_prefill world0 = Ok (out, w')
       ∧ generators_of out = [Some {| gen_id := 0; gen_seed := 42 |}]
       ∧ (NoDup (state <$> batch_seeded_prefill) →
          attached_generators w' batch_seeded_prefill = generators_of out)).
Proof.
  destruct seeded_generator_lifecycle as (Hdecode & Htwice & Hprefill).
  split; [|split].
  - apply (Hdecode None batch_seeded_decode world_seeded). vm_compute. reflexivity.
  - apply (Htwice None batch_seeded_decode
             [decode [(7, [11; 12; 13; 14])] RANDOM_SEED (Some 42) 0] world_seeded);
      vm_compute; reflexivity.
  - apply (Hprefill None batch_seeded_prefill world0); vm_compute; reflexivity.
Defined.

(** C8 (as stated) fails: the handle is not created at most once.  Two
    prefill steps over the same seeded request create two handles; the
    second step finds a handle attached to the state of the request and
    still replaces it by a new one. *)
Lemma seeded_prefill_creates_again :
  ∃ out1 w1 out2 w2 g1 g2,
    prepare_input_tensors None batch_seeded_prefill world0 = Ok (out1, w1)
    ∧ prepare_input_tensors None batch_seeded_prefill w1 = Ok (out2, w2)
    ∧ get_generator 0 w1 = Some g1
    ∧ get_generator 0 w2 = Some g2
    ∧ generators_of out1 = [Some g1]
    ∧ generators_of out2 = [Some g2]
    ∧ g1 ≠ g2
    ∧ next_generator w2 = 2%nat.
Proof.
  eexists _, _, _, _, _, _.
  split; [vm_compute; reflexivity|].
  split; [vm_compute; reflexivity|].
  split; [vm_compute; reflexivity|].
  split; [vm_compute; reflexivity|].
  split; [reflexivity|]. split; [reflexivity|].
  split; [discriminate | reflexivity].
Qed.

(** Through the orchestrator the empty batch fails earlier, on reading
    the phase of its first request. *)
Lemma orchestrator_empty_batch (sliding_window : option Z) (w : World) :
  prepare_input_tensors sliding_window [] w = Raise IndexError.
Proof. reflexivity. Qed.

(** * Further properties of the code *)

(** ** Padding / tensor builder *)

Lemma padded_row_twice (L1 L2 pad : Z) (x : list Z) :
  len x ≤ L1 → L1 ≤ L2 →
  padded_row L2 pad (padded_row L1 pad x) = padded_row L2 pad x.
Proof.
  intros Hx HL. unfold padded_row at 1.
  rewrite (padded_row_len L1 pad x Hx).
  unfold padded_row. rewrite <- app_assoc. f_equal.
  rewrite <- replicate_add. f_equal. unfold len in *. lia.
Qed.

(** X1. Padding a row composes: when the row fits in [L1] and
    [L1 <= L2], [_pad_to_max] to [L1] followed by [_pad_to_max] of the
    returned list to [L2] succeeds and gives what [_pad_to_max] to [L2]
    gives at once, the row followed by the fill value up to [L2]. *)
Theorem pad_to_max_compose (x : list Z) (L1 L2 pad : Z) :
  len x ≤ L1 →
  L1 ≤ L2 →
  (_pad_to_max x L1 pad ≫= λ y, _pad_to_max y L2 pad)
    = Ok (x ++ replicate (Z.to_nat (L2 - len x)) pad)
  ∧ _pad_to_max x L2 pad = Ok (x ++ replicate (Z.to_nat (L2 - len x)) pad).
Proof.
  intros Hx HL. split.
  - rewrite (pad_to_max_fits L1 pad x Hx). cbn [mbind result_bind].
    rewrite pad_to_max_fits
      by (rewrite (padded_row_len L1 pad x Hx); exact HL).
    f_equal. apply padded_row_twice; assumption.
  - apply pad_to_max_fits. lia.
Qed.

Lemma pad_to_max_compose_witness :
  (_pad_to_max [1; 2] 3 0 ≫= λ y, _pad_to_max y 5 0) = Ok [1; 2; 0; 0; 0]
  ∧ _pad_to_max [1; 2] 5 0 = Ok [1; 2; 0; 0; 0].
Proof.
  apply (pad_to_max_compose [1; 2] 3 5 0); vm_compute; discriminate.
Defined.

(** X2. A dense input is returned as it is: when every row already has
    length [L], the builder returns the rows unchanged, whatever the
    fill value. *)
Theorem make_tensor_with_pad_dense (x : list (list Z)) (L pad : Z) :
  Forall (λ row, len row = L) x →
  _make_tensor_with_pad x L pad = Ok x.
Proof.
  intros Hdense. rewrite make_tensor_fits.
  - f_equal. rewrite <- (list_fmap_id x) at 2. apply Forall_fmap_ext.
    eapply Forall_impl; [exact Hdense|]. intros row Hrow.
    unfold padded_row. rewrite Hrow, Z.sub_diag. apply app_nil_r.
  - eapply Forall_impl; [exact Hdense|]. intros row Hrow. cbn in Hrow. lia.
Qed.

Lemma make_tensor_with_pad_dense_witness :
  _make_tensor_with_pad [[1; 2]; [3; 4]] 2 9 = Ok [[1; 2]; [3; 4]].
Proof.
  apply (make_tensor_with_pad_dense [[1; 2]; [3; 4]] 2 9).
  repeat constructor.
Defined.

(** ** Prefill batch builder *)

Lemma prompt_body_block (r : SequenceGroupMetadata) (st : PromptLocals) :
  prefill_request_ok r = true →
  ∃ b, prefill_block b r
       ∧ prompt_body r st =
         Ok {| p_input_tokens := p_input_tokens st ++ [prompt_tokens_of r];
               p_input_positions :=
                 p_input_positions st ++ [py_range 0 (0 + prompt_len_of r)];
               p_input_block_ids := p_input_block_ids st ++ [b];
               p_prompt_lens := p_prompt_lens st ++ [prompt_len_of r];
               p_context_lens := p_context_lens st ++ [0];
               p_subquery_lens := p_subquery_lens st ++ [prompt_len_of r - 0] |}.
Proof.
  intros (Hp & seq_id & sd & Hsd & Hb)%prefill_request_ok_inv.
  destruct (single_block_ok _ _ Hb) as (b & tables & Hblock & Htables & Hlookup).
  exists b. split; [exists seq_id, sd, tables; auto|].
  unfold prompt_body, seq_ids_of, prompt_tokens_of, prompt_len_of.
  rewrite Hp, Hsd. cbn. rewrite Hblock. reflexivity.
Qed.

Lemma prompt_loop_blocks (batch : list SequenceGroupMetadata) (st : PromptLocals) :
  forallb prefill_request_ok batch = true →
  ∃ st' blocks,
    prompt_loop batch st = Ok st'
    ∧ p_input_block_ids st' = p_input_block_ids st ++ blocks
    ∧ Forall2 prefill_block blocks batch.
Proof.
  revert st. induction batch as [|r rest IH]; intros st Hok.
  - exists st, []. cbn. rewrite app_nil_r. repeat split. constructor.
  - cbn in Hok. apply andb_true_iff in Hok as [Hr Hrest].
    destruct (prompt_body_block r st Hr) as (b & Hb & Hbody).
    cbn [prompt_loop]. rewrite Hbody, bind_Ok.
    match goal with
    | |- context [prompt_loop rest ?s] =>
        destruct (IH s Hrest) as (st' & blocks & Hloop & Hids & Hblocks)
    end.
    exists st', (b :: blocks). cbn in Hids.
    rewrite Hloop, Hids, <- app_assoc. repeat split. constructor; assumption.
Qed.

(** The prefill builder on a batch that meets the contract: all it
    returns. *)
Lemma prepare_prompt_full (batch : list SequenceGroupMetadata) :
  prefill_batch_ok batch = true →
  0 < batch_max_subquery_len batch →
  let M := batch_max_subquery_len batch in
  ∃ po, _prepare_prompt batch = Ok po
        ∧ po_input_tokens po =
            (λ r, prompt_tokens_of r
                  ++ replicate (Z.to_nat (M - prompt_len_of r)) 0) <$> batch
        ∧ po_input_positions po =
            (λ r, seqZ 0 (prompt_len_of r)
                  ++ replicate (Z.to_nat (M - prompt_len_of r)) 0) <$> batch
        ∧ Forall (λ row, len row = M) (po_input_tokens po)
        ∧ Forall (λ row, len row = M) (po_input_positions po)
        ∧ po_prompt_lens po = prompt_len_of <$> batch
        ∧ po_subquery_lens po = prompt_len_of <$> batch
        ∧ Forall2 prefill_block (po_input_block_ids po) batch.
Proof.
  intros Hok Hpos M.
  destruct (batch_max_is_max batch Hok) as [Hmax Hpy].
  pose proof (prompt_lens_le_max _ _ Hmax) as Hle. fold M in Hle, Hpy.
  destruct (batch_ok_cons _ _ Hok) as (r & rest & Hbatch & Hr & Hrest).
  assert (Hall : forallb prefill_request_ok batch = true).
  { rewrite Hbatch. cbn. rewrite Hr, Hrest. reflexivity. }
  destruct (prompt_loop_ok batch prompt_locals0 Hall)
    as (st & Hloop & Ht & Hp & _ & Hl & Hs).
  destruct (prompt_loop_blocks batch prompt_locals0 Hall)
    as (st2 & blocks & Hloop2 & Hids & Hblocks).
  rewrite Hloop in Hloop2. injection Hloop2 as <-.
  cbn in Ht, Hp, Hl, Hs, Hids.
  assert (Hnonneg : ∀ r', 0 ≤ prompt_len_of r').
  { intros r'. rewrite prompt_len_of_tokens. apply len_nonneg. }
  assert (Htok : Forall (λ row, len row ≤ M) (prompt_tokens_of <$> batch)).
  { apply Forall_fmap. eapply Forall_impl; [exact Hle|].
    intros r' Hr'. cbn. rewrite <- prompt_len_of_tokens. exact Hr'. }
  assert (Hposs : Forall (λ row, len row ≤ M)
                    ((λ r, py_range 0 (0 + prompt_len_of r)) <$> batch)).
  { apply Forall_fmap. eapply Forall_impl; [exact Hle|].
    intros r' Hr'. cbn. rewrite len_py_range_0; [exact Hr' | apply Hnonneg]. }
  unfold _prepare_prompt.
  rewrite py_assert_true by (rewrite Hbatch; reflexivity).
  cbn [mbind result_bind]. rewrite Hloop. cbn [mbind result_bind].
  rewrite Hs, Hpy. cbn [mbind result_bind].
  rewrite py_assert_true by (apply Z.ltb_lt; exact Hpos).
  cbn [mbind result_bind]. rewrite Ht, Hp.
  rewrite (make_tensor_fits M 0 _ Htok). cbn [mbind result_bind].
  rewrite (make_tensor_fits M 0 _ Hposs). cbn [mbind result_bind].
  eexists. split; [reflexivity|].
  cbn [po_input_tokens po_input_positions po_input_block_ids po_prompt_lens
       po_subquery_lens].
  split; [|split; [|split; [|split; [|split; [|split]]]]].
  - rewrite <- list_fmap_compose. apply list_fmap_ext. intros _ r' _.
    unfold compose, padded_row. rewrite <- prompt_len_of_tokens. reflexivity.
  - rewrite <- list_fmap_compose. apply list_fmap_ext. intros _ r' _.
    unfold compose, padded_row.
    rewrite len_py_range_0, py_range_seqZ by apply Hnonneg. reflexivity.
  - apply Forall_fmap. eapply Forall_impl; [exact Htok|].
    intros row Hrow. apply padded_row_len, Hrow.
  - apply Forall_fmap. eapply Forall_impl; [exact Hposs|].
    intros row Hrow. apply padded_row_len, Hrow.
  - exact Hl.
  - reflexivity.
  - rewrite Hids. exact Hblocks.
Qed.

(** X3. Prefill Batch Builder, output: on a batch of prefill requests
    that meet the contract and whose longest prompt [M] is not empty,
    the builder returns one token row and one position row per request,
    all of width [M]: the token row is the prompt followed by zeros, the
    position row is [0, 1, ..., n-1] followed by zeros; the prompt
    lengths and the subquery lengths are the prompt lengths; the block
    ids are the single blocks of the requests, in order. *)
Theorem prepare_prompt_output (batch : list SequenceGroupMetadata) :
  prefill_batch_ok batch = true →
  0 < batch_max_subquery_len batch →
  let M := batch_max_subquery_len batch in
  ∃ po, _prepare_prompt batch = Ok po
        ∧ po_input_tokens po =
            (λ r, prompt_tokens_of r
                  ++ replicate (Z.to_nat (M - prompt_len_of r)) 0) <$> batch
        ∧ po_input_positions po =
            (λ r, seqZ 0 (prompt_len_of r)
                  ++ replicate (Z.to_nat (M - prompt_len_of r)) 0) <$> batch
        ∧ Forall (λ row, len row = M) (po_input_tokens po)
        ∧ Forall (λ row, len row = M) (po_input_positions po)
        ∧ po_prompt_lens po = prompt_len_of <$> batch
        ∧ po_subquery_lens po = prompt_len_of <$> batch
        ∧ Forall2 prefill_block (po_input_block_ids po) batch.
Proof. apply prepare_prompt_full. Qed.

Lemma prepare_prompt_output_witness :
  ∃ po, _prepare_prompt batch_3_5 = Ok po
        ∧ po_input_tokens po = [[11; 12; 13; 0; 0]; [21; 22; 23; 24; 25]]
        ∧ po_input_positions po = [[0; 1; 2; 0; 0]; [0; 1; 2; 3; 4]]
        ∧ Forall (λ row, len row = 5) (po_input_tokens po)
        ∧ Forall (λ row, len row = 5) (po_input_positions po)
        ∧ po_prompt_lens po = [3; 5]
        ∧ po_subquery_lens po = [3; 5]
        ∧ Forall2 prefill_block (po_input_block_ids po) batch_3_5.
Proof.
  apply (prepare_prompt_output batch_3_5); vm_compute; reflexivity.
Defined.

(** X4. A prefill batch whose prompts are all empty is refused: the
    requests meet the contract, the loop runs to its end, and the
    assertion on the maximum prompt length fails. *)
Theorem prepare_prompt_all_empty (batch : list SequenceGroupMetadata) :
  prefill_batch_ok batch = true →
  forallb (λ r, negb (nonempty_prompt r)) batch = true →
  _prepare_prompt batch = Raise AssertionError.
Proof.
  intros Hok Hempty.
  destruct (batch_max_is_max batch Hok) as [[Hin _] Hpy].
  apply list_elem_of_fmap in Hin as (r0 & HM & Hr0).
  rewrite forallb_forall in Hempty.
  specialize (Hempty r0 (proj1 (list_elem_of_In _ _) Hr0)).
  unfold nonempty_prompt in Hempty. apply negb_true_iff, Z.ltb_ge in Hempty.
  destruct (batch_ok_cons _ _ Hok) as (r & rest & Hbatch & Hr & Hrest).
  assert (Hall : forallb prefill_request_ok batch = true).
  { rewrite Hbatch. cbn. rewrite Hr, Hrest. reflexivity. }
  destruct (prompt_loop_ok batch prompt_locals0 Hall)
    as (st & Hloop & _ & _ & _ & _ & Hs).
  cbn in Hs. unfold _prepare_prompt.
  rewrite py_assert_true by (rewrite Hbatch; reflexivity).
  cbn [mbind result_bind]. rewrite Hloop. cbn [mbind result_bind].
  rewrite Hs, Hpy. cbn [mbind result_bind].
  rewrite py_assert_false; [reflexivity|]. apply Z.ltb_ge. lia.
Qed.

Lemma prepare_prompt_all_empty_witness :
  _prepare_prompt batch_0_0 = Raise AssertionError.
Proof.
  apply (prepare_prompt_all_empty batch_0_0); vm_compute; reflexivity.
Defined.

Lemma single_block_raises (r : SequenceGroupMetadata) (seq_id : Z) (e : PyError) :
  single_block r seq_id = Raise e → e = AssertionError ∨ e = KeyError.
Proof.
  unfold single_block.
  destruct (block_tables r) as [tables|]; [|intros [= <-]; auto].
  destruct (tables !! seq_id) as [[|b [|? ?]]|].
  - intros [= <-]. auto.
  - discriminate.
  - rewrite py_assert_false; [intros [= <-]; auto|].
    apply Z.eqb_neq. unfold len. cbn [length]. lia.
  - intros [= <-]. auto.
Qed.

Lemma prompt_body_raises (r : SequenceGroupMetadata) (st : PromptLocals)
    (e : PyError) :
  prompt_body r st = Raise e → e = AssertionError ∨ e = KeyError.
Proof.
  unfold prompt_body, seq_ids_of.
  destruct (is_prompt r); cbn [py_assert mbind result_bind];
    [|intros [= <-]; auto].
  destruct (seq_data r) as [|[seq_id sd] [|? ?]].
  - intros [= <-]. auto.
  - cbn [fmap list_fmap fst]. rewrite py_assert_true by reflexivity.
    cbn [mbind result_bind].
    destruct (single_block r seq_id) as [b|e'] eqn:Hblock;
      cbn [mbind result_bind]; [discriminate|].
    intros [= <-]. eapply single_block_raises, Hblock.
  - rewrite py_assert_false; [intros [= <-]; auto|].
    apply Z.eqb_neq. unfold len. cbn [length fmap list_fmap]. lia.
Qed.

Lemma prompt_body_subquery_lens (r : SequenceGroupMetadata) (st st' : PromptLocals) :
  prompt_body r st = Ok st' →
  length (p_subquery_lens st') = S (length (p_subquery_lens st)).
Proof.
  unfold prompt_body.
  destruct (py_assert (is_prompt r)); [|discriminate]. cbn [mbind result_bind].
  destruct (py_assert _); [|discriminate]. cbn [mbind result_bind].
  destruct (seq_data r) as [|[seq_id sd] ?]; [discriminate|].
  destruct (single_block r seq_id); [|discriminate]. cbn.
  intros [= <-]. cbn. rewrite length_app. cbn. lia.
Qed.

Lemma prompt_loop_cases (batch : list SequenceGroupMetadata) (st : PromptLocals) :
  match prompt_loop batch st with
  | Ok st' =>
      length (p_subquery_lens st')
      = (length (p_subquery_lens st) + length batch)%nat
  | Raise e => e = AssertionError ∨ e = KeyError
  end.
Proof.
  revert st. induction batch as [|r rest IH]; intros st.
  - cbn. lia.
  - cbn [prompt_loop]. destruct (prompt_body r st) as [st1|e] eqn:Hbody.
    + cbn [mbind result_bind]. specialize (IH st1).
      destruct (prompt_loop rest st1); [|exact IH].
      rewrite IH, (prompt_body_subquery_lens _ _ _ Hbody). cbn. lia.
    + cbn. eapply prompt_body_raises, Hbody.
Qed.

Lemma make_tensor_raises (x : list (list Z)) (L pad : Z) (e : PyError) :
  _make_tensor_with_pad x L pad = Raise e → e = AssertionError.
Proof.
  unfold _make_tensor_with_pad. induction x as [|row rows IH]; [discriminate|].
  cbn [comprehension].
  destruct (Z.lt_ge_cases L (len row)) as [Hlong|Hfits].
  - rewrite pad_to_max_too_long by exact Hlong. cbn. congruence.
  - rewrite pad_to_max_fits by exact Hfits. cbn [mbind result_bind].
    destruct (comprehension _ rows) as [t|e']; cbn; [discriminate|].
    intros H. injection H as ->. apply IH. reflexivity.
Qed.

(** X5. The prefill builder fails only with an assertion error or with
    the key error of a block table that lacks the sequence: the guarded
    reads [seq_ids[0]], [block_table[0]] and [max(subquery_lens)] never
    fail, whatever the batch. *)
Theorem prepare_prompt_error_kinds (batch : list SequenceGroupMetadata)
    (e : PyError) :
  _prepare_prompt batch = Raise e → e = AssertionError ∨ e = KeyError.
Proof.
  unfold _prepare_prompt.
  destruct batch as [|r rest]; [intros [= <-]; auto|].
  rewrite py_assert_true by reflexivity. cbn [mbind result_bind].
  pose proof (prompt_loop_cases (r :: rest) prompt_locals0) as Hloop.
  destruct (prompt_loop (r :: rest) prompt_locals0) as [st|e'];
    cbn [mbind result_bind]; [|intros [= <-]; exact Hloop].
  destruct (p_subquery_lens st) as [|s ss]; [discriminate Hloop|].
  cbn [py_max mbind result_bind].
  destruct (0 <? foldl Z.max s ss); cbn; [|intros [= <-]; auto].
  destruct (_make_tensor_with_pad (p_input_tokens st) _ 0) eqn:Htok; cbn;
    [|intros [= <-]; left; eapply make_tensor_raises, Htok].
  destruct (_make_tensor_with_pad (p_input_positions st) _ 0) eqn:Hpos; cbn;
    [discriminate|].
  intros [= <-]. left. eapply make_tensor_raises, Hpos.
Qed.

Lemma prepare_prompt_error_kinds_witness :
  KeyError = AssertionError ∨ KeyError = KeyError.
Proof.
  apply (prepare_prompt_error_kinds
           [prefill 7 [11; 12] GREEDY None None 0; request_without_block] KeyError).
  vm_compute. reflexivity.
Defined.

(** X6. A missing block-table entry is a key error: when the requests
    before it meet the contract, a prefill request with one sequence
    whose block table has no entry for that sequence makes the builder
    raise [KeyError]. *)
Theorem prepare_prompt_missing_block (good rest : list SequenceGroupMetadata)
    (r : SequenceGroupMetadata) :
  forallb prefill_request_ok good = true →
  is_prompt r = true →
  lacks_block_table_entry r = true →
  _prepare_prompt (good ++ r :: rest) = Raise KeyError.
Proof.
  intros Hgood Hp Hlacks.
  assert (Hbody : ∀ st, prompt_body r st = Raise KeyError).
  { intros st. unfold lacks_block_table_entry in Hlacks.
    unfold prompt_body, seq_ids_of, single_block. rewrite Hp.
    destruct (seq_data r) as [|[seq_id sd] [|? ?]]; try discriminate.
    destruct (block_tables r) as [tables|]; [|discriminate].
    destruct (tables !! seq_id); [discriminate|]. reflexivity. }
  assert (Hloop : ∀ st, prompt_loop (good ++ r :: rest) st = Raise KeyError).
  { clear Hp Hlacks. induction good as [|g good IH]; intros st.
    - cbn. rewrite Hbody. reflexivity.
    - cbn in Hgood. apply andb_true_iff in Hgood as [Hg Hgood].
      destruct (prompt_body_ok g st Hg) as [b Hg'].
      cbn [app prompt_loop]. rewrite Hg', bind_Ok. apply IH, Hgood. }
  unfold _prepare_prompt. rewrite py_assert_true; cycle 1.
  { apply Z.ltb_lt. unfold len. rewrite length_app. cbn. lia. }
  cbn [mbind result_bind]. rewrite Hloop. reflexivity.
Qed.

Lemma prepare_prompt_missing_block_witness :
  _prepare_prompt
    ([prefill 7 [11; 12] GREEDY None None 0]
     ++ request_without_block :: [prefill 9 [31] GREEDY None None 2])
  = Raise KeyError.
Proof.
  apply (prepare_prompt_missing_block
           [prefill 7 [11; 12] GREEDY None None 0]
           [prefill 9 [31] GREEDY None None 2] request_without_block);
    vm_compute; reflexivity.
Defined.

(** ** Phases *)

Lemma is_Raise_bind {A B : Type} (m : result A) (k : A → result B) :
  is_Raise m → is_Raise (m ≫= k).
Proof. intros [e ->]. exists e. reflexivity. Qed.

Lemma prompt_loop_decode_request (batch : list SequenceGroupMetadata)
    (st : PromptLocals) :
  existsb (λ r, negb (is_prompt r)) batch = true →
  is_Raise (prompt_loop batch st).
Proof.
  revert st. induction batch as [|r rest IH]; intros st Hex; [discriminate|].
  cbn in Hex. cbn [prompt_loop].
  destruct (prompt_body r st) as [st'|e] eqn:Hbody; [|exists e; reflexivity].
  cbn [mbind result_bind]. apply IH.
  apply orb_true_iff in Hex as [Hr|Hrest]; [|exact Hrest].
  unfold prompt_body in Hbody. apply negb_true_iff in Hr. rewrite Hr in Hbody.
  discriminate.
Qed.

Lemma decode_loop_prompt_request (sliding_window : option Z)
    (batch : list SequenceGroupMetadata) (st : DecodeLocals) :
  existsb is_prompt batch = true →
  is_Raise (decode_loop sliding_window batch st).
Proof.
  revert st. induction batch as [|r rest IH]; intros st Hex; [discriminate|].
  cbn in Hex. cbn [decode_loop].
  destruct (decode_body sliding_window r st) as [st'|e] eqn:Hbody;
    [|exists e; reflexivity].
  cbn [mbind result_bind]. apply IH.
  apply orb_true_iff in Hex as [Hr|Hrest]; [|exact Hrest].
  unfold decode_body in Hbody. rewrite Hr in Hbody. discriminate.
Qed.

(** X7. A batch that mixes the phases never passes: the orchestrator
    routes by the phase of the first request, and the builder it routes
    to asserts that phase on every request, so the step raises and
    returns no batch. *)
Theorem mixed_batch_raises (sliding_window : option Z)
    (batch : list SequenceGroupMetadata) (w : World) :
  mixed_phases batch = true →
  is_Raise (prepare_input_tensors sliding_window batch w).
Proof.
  unfold mixed_phases. intros [Hprompt Hdecode]%andb_true_iff.
  unfold prepare_input_tensors.
  destruct batch as [|first rest] eqn:Hbatch; [discriminate|].
  rewrite <- Hbatch in *. destruct (is_prompt first).
  - apply is_Raise_bind. unfold _prepare_prompt.
    rewrite py_assert_true by (rewrite Hbatch; reflexivity).
    cbn [mbind result_bind].
    apply is_Raise_bind, prompt_loop_decode_request, Hdecode.
  - apply is_Raise_bind. unfold _prepare_decode, decode_locals.
    rewrite py_assert_true by (rewrite Hbatch; reflexivity).
    cbn [mbind result_bind].
    apply is_Raise_bind, is_Raise_bind, decode_loop_prompt_request, Hprompt.
Qed.

Lemma mixed_batch_raises_witness :
  is_Raise (prepare_input_tensors None batch_mixed world0).
Proof.
  apply (mixed_batch_raises None batch_mixed world0). vm_compute. reflexivity.
Defined.

(** ** Decode batch builder and the sliding window *)

Lemma ends_alike_bind {A B C D : Type} (R : A → B → Prop) (S : C → D → Prop)
    (m1 : result A) (m2 : result B) (k1 : A → result C) (k2 : B → result D) :
  ends_alike R m1 m2 →
  (∀ a b, R a b → ends_alike S (k1 a) (k2 b)) →
  ends_alike S (m1 ≫= k1) (m2 ≫= k2).
Proof.
  destruct m1 as [a|e1], m2 as [b|e2]; cbn; intros Hm Hk;
    try contradiction; [apply Hk, Hm | exact Hm].
Qed.

Lemma ends_alike_refl {A : Type} (m : result A) : ends_alike eq m m.
Proof. destruct m; reflexivity. Qed.

Lemma decode_seq_loop_window (sw1 sw2 : option Z) (r : SequenceGroupMetadata)
    (entries : list (Z * SequenceData)) (st1 st2 : DecodeLocals) :
  same_returned st1 st2 →
  ends_alike same_returned
    (decode_seq_loop sw1 r entries st1) (decode_seq_loop sw2 r entries st2).
Proof.
  revert st1 st2. induction entries as [|[seq_id sd] rest IH];
    intros st1 st2 Hsame; [exact Hsame|].
  cbn [decode_seq_loop]. apply (ends_alike_bind same_returned); [|apply IH].
  unfold decode_seq_body.
  apply (ends_alike_bind eq); [apply ends_alike_refl|]. intros t ? <-.
  apply (ends_alike_bind eq); [apply ends_alike_refl|]. intros b ? <-.
  destruct Hsame as (Ht & Hp & Hb). cbn. unfold same_returned. cbn.
  rewrite Ht, Hp, Hb. auto.
Qed.

Lemma decode_loop_window (sw1 sw2 : option Z)
    (batch : list SequenceGroupMetadata) (st1 st2 : DecodeLocals) :
  same_returned st1 st2 →
  ends_alike same_returned (decode_loop sw1 batch st1) (decode_loop sw2 batch st2).
Proof.
  revert st1 st2. induction batch as [|r rest IH];
    intros st1 st2 Hsame; [exact Hsame|].
  cbn [decode_loop]. apply (ends_alike_bind same_returned); [|apply IH].
  unfold decode_body.
  apply (ends_alike_bind eq); [apply ends_alike_refl|]. intros _ _ _.
  apply decode_seq_loop_window, Hsame.
Qed.

(** X8. The sliding window never reaches the output of the decode
    builder: on every batch, [_prepare_decode] returns the same tensors
    or raises the same exception under any two window settings. *)
Theorem prepare_decode_ignores_window (sw1 sw2 : option Z)
    (batch : list SequenceGroupMetadata) :
  _prepare_decode sw1 batch = _prepare_decode sw2 batch.
Proof.
  assert (Halike : ends_alike eq (_prepare_decode sw1 batch)
                     (_prepare_decode sw2 batch)).
  { unfold _prepare_decode, decode_locals.
    apply (ends_alike_bind same_returned).
    - apply (ends_alike_bind eq); [apply ends_alike_refl|]. intros _ _ _.
      apply (ends_alike_bind same_returned).
      + apply decode_loop_window. repeat split.
      + intros st1 st2 (Ht & Hp & Hb). rewrite Ht, Hp.
        apply (ends_alike_bind eq); [apply ends_alike_refl|]. intros t ? <-.
        apply (ends_alike_bind eq); [apply ends_alike_refl|]. intros p ? <-.
        cbn. unfold same_returned. cbn. auto.
    - intros st1 st2 (Ht & Hp & Hb). cbn. rewrite Ht, Hp, Hb. reflexivity. }
  destruct (_prepare_decode sw1 batch), (_prepare_decode sw2 batch);
    cbn in Halike; try contradiction; congruence.
Qed.

(** ** The orchestrator, taken apart *)

Lemma prepare_sample_inv (batch : list SequenceGroupMetadata)
    (prompt_lens : list Z) (subquery_lens : option (list Z)) (w w' : World)
    (md : SamplingMetadata) :
  _prepare_sample batch prompt_lens subquery_lens w = Ok (md, w') →
  sm_prompt_lens md = prompt_lens.
Proof.
  unfold _prepare_sample.
  intros (M & _ & (st & _ & Hret)%bind_Ok_inv)%bind_Ok_inv.
  injection Hret as <- _. reflexivity.
Qed.

Lemma prepare_input_tensors_inv (sliding_window : option Z)
    (batch : list SequenceGroupMetadata) (w w' : World) (out : AssembledBatch) :
  prepare_input_tensors sliding_window batch w = Ok (out, w') →
  ∃ first rest, batch = first :: rest ∧
    if is_prompt first then
      ∃ po, _prepare_prompt batch = Ok po
            ∧ _prepare_sample batch (po_prompt_lens po)
                (Some (po_subquery_lens po)) w = Ok (sampling_metadata out, w')
            ∧ input_tokens out = po_input_tokens po
            ∧ input_positions out = po_input_positions po
            ∧ input_block_ids out = po_input_block_ids po
    else
      ∃ d, _prepare_decode sliding_window batch = Ok d
           ∧ _prepare_sample batch [] None w = Ok (sampling_metadata out, w')
           ∧ input_tokens out = do_input_tokens d
           ∧ input_positions out = do_input_positions d
           ∧ input_block_ids out = do_input_block_ids d.
Proof.
  unfold prepare_input_tensors.
  destruct batch as [|first rest] eqn:Hbatch; [discriminate|].
  rewrite <- Hbatch. intros Hrun. exists first, rest. split; [exact Hbatch|].
  destruct (is_prompt first).
  - apply bind_Ok_inv in Hrun as (po & Hpo & Hrun). exists po.
    apply bind_Ok_inv in Hrun as ([md w2] & Hmd & Hret).
    injection Hret as <- <-. cbn. auto.
  - apply bind_Ok_inv in Hrun as (d & Hd & Hrun). exists d.
    apply bind_Ok_inv in Hrun as ([md w2] & Hmd & Hret).
    injection Hret as <- <-. cbn. auto.
Qed.

(** ** Decode batches: selected indices and rows *)

Lemma decode_rows_indices (M cursor : Z) (batch : list SequenceGroupMetadata) :
  Forall (λ r, is_prompt r = false) batch →
  (batch_rows M cursor (with_subquery_lens batch)).*1
  = seqZ cursor (Zsum (num_seqs_of <$> batch)).
Proof.
  intros Hall. revert cursor.
  induction Hall as [|r rest Hr _ IH]; intros cursor; [reflexivity|].
  unfold with_subquery_lens in *. rewrite !fmap_cons, Zsum_cons.
  cbn [batch_rows]. rewrite fmap_app, request_rows_indices, IH.
  unfold request_stride. rewrite Hr. symmetry. apply seqZ_app.
  - unfold num_seqs_of, len. lia.
  - clear. induction rest as [|r' rest IH]; [reflexivity|].
    rewrite fmap_cons, Zsum_cons. unfold num_seqs_of at 1, len. lia.
Qed.

(** X9. On an all-decode batch the selected indices enumerate the rows
    of the tensors: they are [0, 1, ..., n-1] for [n] the number of
    sequences over all requests, which is also the number of token rows,
    position rows and block ids; no prompt lengths are passed on and the
    world is left as it is. *)
Theorem decode_selects_every_row (sliding_window : option Z)
    (batch : list SequenceGroupMetadata) (w : World) :
  decode_batch_ok batch = true →
  ∃ out, prepare_input_tensors sliding_window batch w = Ok (out, w)
         ∧ selected_of out = seqZ 0 (Zsum (num_seqs_of <$> batch))
         ∧ len (input_tokens out) = Zsum (num_seqs_of <$> batch)
         ∧ len (input_positions out) = Zsum (num_seqs_of <$> batch)
         ∧ len (input_block_ids out) = Zsum (num_seqs_of <$> batch)
         ∧ sm_prompt_lens (sampling_metadata out) = [].
Proof.
  intros Hok.
  assert (Hvalid : valid_batch batch = true).
  { unfold valid_batch. rewrite Hok. apply orb_true_r. }
  destruct (prepare_input_tensors_ok sliding_window batch w Hvalid)
    as (out & Hrun & Hsel & _).
  destruct (prepare_decode_ok sliding_window batch Hok)
    as (toks & blocks & _ & Hdec & Htoks & Hblocks).
  pose proof (prepare_input_tensors_inv _ _ _ _ _ Hrun)
    as (first & rest & Hbatch & Hinv).
  assert (Hphase : Forall (λ r, is_prompt r = false) batch).
  { destruct (valid_batch_phases batch Hvalid)
      as [(Hpre & _ & Hp & _)|(_ & Hp)]; [|exact Hp].
    destruct (batch_ok_cons _ _ Hok) as (r' & rest' & Heq & Hr' & _).
    rewrite Heq in Hp. inversion Hp as [|? ? Hp' _]; subst.
    unfold decode_request_ok in Hr'. rewrite Hp' in Hr'. discriminate. }
  assert (Hfirst : is_prompt first = false).
  { rewrite Hbatch in Hphase. inversion Hphase; assumption. }
  rewrite Hfirst in Hinv. destruct Hinv as (d & Hd & Hmd & Ht & Hp & Hb).
  rewrite Hdec in Hd. injection Hd as <-. cbn in Ht, Hp, Hb.
  rewrite world_after_decode in Hrun by exact Hphase.
  exists out. split; [exact Hrun|]. split; [|split; [|split; [|split]]].
  - rewrite Hsel. apply decode_rows_indices, Hphase.
  - rewrite Ht, <- all_sequences_len. unfold len.
    rewrite (Forall2_length _ _ _ Htoks). reflexivity.
  - rewrite Hp, len_fmap. apply all_sequences_len.
  - rewrite Hb, <- all_sequences_len. unfold len.
    rewrite (Forall2_length _ _ _ Hblocks). reflexivity.
  - rewrite world_after_decode in Hmd by exact Hphase.
    eapply prepare_sample_inv, Hmd.
Qed.

Lemma decode_selects_every_row_witness :
  ∃ out, prepare_input_tensors (Some 2) batch_two_sequences world0 = Ok (out, world0)
         ∧ selected_of out = [0; 1]
         ∧ len (input_tokens out) = 2
         ∧ len (input_positions out) = 2
         ∧ len (input_block_ids out) = 2
         ∧ sm_prompt_lens (sampling_metadata out) = [].
Proof.
  apply (decode_selects_every_row (Some 2) batch_two_sequences world0).
  vm_compute. reflexivity.
Defined.

(** ** Prefill batches: a selected index is a real token *)

Lemma request_rows_within (cursor : Z) (r : SequenceGroupMetadata) (sub x : Z) :
  is_prompt r = true → 1 ≤ sub →
  x ∈ (request_rows cursor r sub).*1 → cursor ≤ x < cursor + sub.
Proof.
  intros Hp Hsub. rewrite request_rows_indices, Hp.
  intros [Hx|Hx%list_elem_of_singleton]%elem_of_app; [|lia].
  destruct (has_prompt_logprobs r); [|inversion Hx].
  apply elem_of_seqZ in Hx. lia.
Qed.

Lemma prefill_rows_within (M cursor : Z) (reqs : list (SequenceGroupMetadata * Z))
    (x : Z) :
  Forall (λ rs, is_prompt rs.1 = true ∧ 1 ≤ rs.2) reqs →
  x ∈ (batch_rows M cursor reqs).*1 →
  ∃ (i : nat) rs,
    reqs !! i = Some rs
    ∧ cursor + Z.of_nat i * M ≤ x < cursor + Z.of_nat i * M + rs.2.
Proof.
  intros Hall. revert cursor.
  induction Hall as [|[r sub] rest [Hp Hsub] _ IH]; intros cursor Hx.
  - inversion Hx.
  - cbn [fst snd] in Hp, Hsub. cbn [batch_rows] in Hx.
    rewrite fmap_app in Hx. apply elem_of_app in Hx as [Hx|Hx].
    + exists 0%nat, (r, sub). split; [reflexivity|].
      apply request_rows_within in Hx; [cbn; lia|assumption..].
    + unfold request_stride in Hx. rewrite Hp in Hx.
      destruct (IH _ Hx) as (i & rs & Hi & Hbound).
      exists (S i), rs. split; [exact Hi|]. lia.
Qed.

Lemma nonempty_prefill_max_positive (batch : list SequenceGroupMetadata) :
  prefill_batch_ok batch = true →
  nonempty_prompts batch = true →
  0 < batch_max_subquery_len batch.
Proof.
  intros Hok Hnonempty.
  destruct (batch_max_is_max batch Hok) as [[Hin _] _].
  apply list_elem_of_fmap in Hin as (r0 & -> & Hr0).
  destruct (batch_ok_cons _ _ Hok) as (r & rest & Hbatch & Hr & Hrest).
  assert (Hall : forallb prefill_request_ok batch = true).
  { rewrite Hbatch. cbn. rewrite Hr, Hrest. reflexivity. }
  apply list_elem_of_In in Hr0. unfold nonempty_prompts in Hnonempty.
  rewrite forallb_forall in Hall, Hnonempty.
  specialize (Hall r0 Hr0). specialize (Hnonempty r0 Hr0).
  apply prefill_request_ok_inv in Hall as [Hp _]. rewrite Hp in Hnonempty.
  apply Z.ltb_lt in Hnonempty. exact Hnonempty.
Qed.

(** X10. On a prefill batch with non-empty prompts every selected index
    is a real token of its request, never a padding slot: with [M] the
    width of the token tensor, a selected index [x] lies in the row [i]
    of some request, at a column below the prompt length of that
    request, where the token tensor holds the prompt token of that
    column; in particular [x] is within the [n * M] slots of the
    flattened tensor. *)
Theorem selected_indices_are_real_tokens (sliding_window : option Z)
    (batch : list SequenceGroupMetadata) (w : World) :
  prefill_batch_ok batch = true →
  nonempty_prompts batch = true →
  let M := batch_max_subquery_len batch in
  ∃ out w', prepare_input_tensors sliding_window batch w = Ok (out, w')
    ∧ ∀ x, x ∈ selected_of out →
        ∃ (i : nat) r row token,
          batch !! i = Some r
          ∧ input_tokens out !! i = Some row
          ∧ Z.of_nat i * M ≤ x < Z.of_nat i * M + prompt_len_of r
          ∧ row !! Z.to_nat (x - Z.of_nat i * M) = Some token
          ∧ prompt_tokens_of r !! Z.to_nat (x - Z.of_nat i * M) = Some token
          ∧ 0 ≤ x < len batch * M.
Proof.
  intros Hok Hnonempty M.
  pose proof (nonempty_prefill_max_positive batch Hok Hnonempty) as Hpos.
  assert (Hvalid : valid_batch batch = true).
  { unfold valid_batch. rewrite Hok.
    apply Z.ltb_lt in Hpos. rewrite Hpos. reflexivity. }
  destruct (prepare_input_tensors_ok sliding_window batch w Hvalid)
    as (out & Hrun & Hsel & _).
  destruct (prepare_prompt_full batch Hok Hpos) as (po & Hpo & Htok & _).
  fold M in Htok.
  pose proof (prepare_input_tensors_inv _ _ _ _ _ Hrun)
    as (first & rest & Hbatch & Hinv).
  destruct (valid_batch_phases batch Hvalid)
    as [(_ & _ & Hphase & Hle)|(Hdec & Hphase)]; cycle 1.
  { destruct (batch_ok_cons _ _ Hok) as (r & rest' & Heq & Hr & _).
    apply prefill_request_ok_inv in Hr as [Hp _]. rewrite Heq in Hphase.
    inversion Hphase as [|? ? Hp' _]; subst. congruence. }
  fold M in Hle.
  assert (Hfirst : is_prompt first = true).
  { rewrite Hbatch in Hphase. inversion Hphase; assumption. }
  rewrite Hfirst in Hinv. destruct Hinv as (po' & Hpo' & _ & Ht & _).
  rewrite Hpo in Hpo'. injection Hpo' as <-.
  destruct (valid_subquery_bounds batch Hvalid Hnonempty) as [_ Hbounds].
  exists out, (world_after batch w). split; [exact Hrun|].
  intros x Hx. rewrite Hsel in Hx. unfold selected_rows in Hx. fold M in Hx.
  apply prefill_rows_within in Hx as (i & [r sub] & Hi & Hx); cycle 1.
  { rewrite Forall_forall in Hbounds. rewrite Forall_forall in Hphase.
    apply Forall_forall. intros rs Hrs.
    pose proof (Hbounds rs Hrs) as Hb. unfold with_subquery_lens in Hrs.
    apply list_elem_of_fmap in Hrs as (r' & -> & Hr'). cbn [fst snd] in *.
    pose proof (Hphase r' Hr') as Hp'. split; [exact Hp'|].
    specialize (Hb Hp'). lia. }
  unfold with_subquery_lens in Hi.
  apply list_lookup_fmap_Some in Hi as (r' & Heq & Hr). injection Heq as <- ->.
  rewrite Forall_lookup in Hphase. rewrite Forall_lookup in Hle.
  pose proof (Hle i r Hr) as Hrow. cbn in Hrow.
  rewrite (Hphase i r Hr) in Hx. cbn [snd] in Hx. rewrite Z.add_0_l in Hx.
  assert (Hcol : (Z.to_nat (x - Z.of_nat i * M) < length (prompt_tokens_of r))%nat).
  { rewrite prompt_len_of_tokens in Hx. unfold len in Hx. lia. }
  destruct (lookup_lt_is_Some_2 _ _ Hcol) as [token Htoken].
  exists i, r, (prompt_tokens_of r ++ replicate (Z.to_nat (M - prompt_len_of r)) 0),
    token.
  split; [exact Hr|]. split.
  { rewrite Ht, Htok, list_lookup_fmap, Hr. reflexivity. }
  split; [lia|]. split.
  { rewrite lookup_app_l by exact Hcol. exact Htoken. }
  split; [exact Htoken|].
  apply lookup_lt_Some in Hr. unfold len. nia.
Qed.

Lemma selected_indices_are_real_tokens_witness :
  ∃ out w', prepare_input_tensors None batch_3_5 world0 = Ok (out, w')
    ∧ ∀ x, x ∈ selected_of out →
        ∃ (i : nat) r row token,
          batch_3_5 !! i = Some r
          ∧ input_tokens out !! i = Some row
          ∧ Z.of_nat i * 5 ≤ x < Z.of_nat i * 5 + prompt_len_of r
          ∧ row !! Z.to_nat (x - Z.of_nat i * 5) = Some token
          ∧ prompt_tokens_of r !! Z.to_nat (x - Z.of_nat i * 5) = Some token
          ∧ 0 ≤ x < len batch_3_5 * 5.
Proof.
  apply (selected_indices_are_real_tokens None batch_3_5 world0);
    vm_compute; reflexivity.
Defined.

(** ** Sampling metadata: groups, prompt lengths, generators *)

Lemma sample_body_bookkeeping (M : Z) (subquery_lens : option (list Z)) (i : nat)
    (r : SequenceGroupMetadata) (st st1 : SampleLocals) :
  sample_body M subquery_lens i r st = Ok st1 →
  seq_groups st1 = seq_groups st ++ [(seq_ids_of r, sampling_params r)]
  ∧ length (generators st1)
    = (length (generators st) + if is_seeded r then 1 else 0)%nat.
Proof.
  unfold sample_body. intros (st2 & Hbranch & Hret)%bind_Ok_inv.
  injection Hret as <-. unfold is_seeded.
  assert (Hst2 : seq_groups st2 = seq_groups st ++ [(seq_ids_of r, sampling_params r)]
                 ∧ generators st2 = generators st).
  { destruct (is_prompt r).
    - unfold sample_prompt_branch in Hbranch.
      apply bind_Ok_inv in Hbranch as (_ & _ & Hbranch).
      apply bind_Ok_inv in Hbranch as (sub & _ & Hret).
      injection Hret as <-. cbn. auto.
    - injection Hbranch as <-. cbn. auto. }
  destruct Hst2 as [Hgroups Hgens]. cbn. rewrite Hgroups, Hgens.
  split; [reflexivity|].
  destruct (is_not_None (seed (sampling_params r)));
    [rewrite length_app; cbn; lia | lia].
Qed.

Lemma sample_loop_bookkeeping (M : Z) (subquery_lens : option (list Z))
    (batch : list SequenceGroupMetadata) (i : nat) (st st' : SampleLocals) :
  sample_loop M subquery_lens i batch st = Ok st' →
  seq_groups st' =
    seq_groups st ++ ((λ r, (seq_ids_of r, sampling_params r)) <$> batch)
  ∧ length (generators st')
    = (length (generators st)
       + length (filter (λ r, is_seeded r = true) batch))%nat.
Proof.
  revert i st. induction batch as [|r rest IH]; intros i st.
  - intros [= <-]. cbn. rewrite app_nil_r. split; [reflexivity | lia].
  - cbn [sample_loop]. intros (st1 & Hbody & Hloop)%bind_Ok_inv.
    apply sample_body_bookkeeping in Hbody as [Hgroups Hgens].
    apply IH in Hloop as [Hgroups' Hgens'].
    rewrite Hgroups', Hgroups, Hgens', Hgens, <- app_assoc, filter_cons.
    split; [reflexivity|].
    destruct (is_seeded r).
    + rewrite decide_True by reflexivity. cbn. lia.
    + rewrite decide_False by discriminate. lia.
Qed.

(** X11. The sampling metadata keeps the books of the batch: on every
    valid batch it lists one group per request, in order, with the
    sequence ids and the sampling parameters of the request; it carries
    the prompt lengths of a prefill batch and none for a decode batch;
    and it holds one generator entry per seeded request, not per
    sequence. *)
Theorem sampling_metadata_bookkeeping (sliding_window : option Z)
    (batch : list SequenceGroupMetadata) (w : World) :
  valid_batch batch = true →
  ∃ out w', prepare_input_tensors sliding_window batch w = Ok (out, w')
    ∧ sm_seq_groups (sampling_metadata out)
      = (λ r, ((seq_data r).*1, sampling_params r)) <$> batch
    ∧ sm_prompt_lens (sampling_metadata out)
      = (if forallb is_prompt batch then prompt_len_of <$> batch else [])
    ∧ length (generators_of out)
      = length (filter (λ r, is_seeded r = true) batch).
Proof.
  intros Hvalid.
  destruct (prepare_input_tensors_ok sliding_window batch w Hvalid)
    as (out & Hrun & _).
  exists out, (world_after batch w). split; [exact Hrun|].
  pose proof (prepare_input_tensors_inv _ _ _ _ _ Hrun)
    as (first & rest & Hbatch & Hinv).
  assert (Hbooks : ∀ pl sq,
            _prepare_sample batch pl sq w
              = Ok (sampling_metadata out, world_after batch w) →
            sm_seq_groups (sampling_metadata out)
              = (λ r, ((seq_data r).*1, sampling_params r)) <$> batch
            ∧ length (generators_of out)
              = length (filter (λ r, is_seeded r = true) batch)).
  { intros pl sq Hmd. unfold _prepare_sample in Hmd.
    apply bind_Ok_inv in Hmd as (M & _ & Hmd).
    apply bind_Ok_inv in Hmd as (st & Hloop & Hret).
    apply sample_loop_bookkeeping in Hloop as [Hgroups Hgens].
    unfold generators_of. injection Hret as Hmd _. rewrite <- Hmd. cbn.
    rewrite Hgroups, Hgens. auto. }
  destruct (valid_batch_phases batch Hvalid)
    as [(Hok & Hpos & Hphase & _)|(Hok & Hphase)].
  - assert (Hall : forallb is_prompt batch = true).
    { apply forallb_forall. rewrite Forall_forall in Hphase.
      intros r Hr%list_elem_of_In. apply Hphase, Hr. }
    rewrite Hall. rewrite Hbatch in Hphase.
    inversion Hphase as [|? ? Hfirst _]; subst.
    rewrite Hfirst in Hinv. destruct Hinv as (po & Hpo & Hmd & _).
    destruct (prepare_prompt_ok _ Hok Hpos) as (po' & Hpo' & Hpl & _).
    rewrite Hpo in Hpo'. injection Hpo' as <-.
    destruct (Hbooks _ _ Hmd) as [Hgroups Hgens].
    split; [exact Hgroups|]. split; [|exact Hgens].
    rewrite (prepare_sample_inv _ _ _ _ _ _ Hmd). exact Hpl.
  - rewrite Hbatch in Hphase. inversion Hphase as [|? ? Hfirst _]; subst.
    rewrite Hfirst in Hinv. destruct Hinv as (d & _ & Hmd & _).
    destruct (Hbooks _ _ Hmd) as [Hgroups Hgens].
    split; [exact Hgroups|]. split; [|exact Hgens].
    rewrite (prepare_sample_inv _ _ _ _ _ _ Hmd). cbn. rewrite Hfirst.
    reflexivity.
Qed.

Lemma sampling_metadata_bookkeeping_witness :
  ∃ out w', prepare_input_tensors None batch_two_seeded world0 = Ok (out, w')
    ∧ sm_seq_groups (sampling_metadata out)
      = (λ r, ((seq_data r).*1, sampling_params r)) <$> batch_two_seeded
    ∧ sm_prompt_lens (sampling_metadata out) = [2; 1; 3]
    ∧ length (generators_of out) = 2%nat.
Proof.
  apply (sampling_metadata_bookkeeping None batch_two_seeded world0).
  vm_compute. reflexivity.
Defined.

(** ** The world across a step *)

Lemma world_after_cons (r : SequenceGroupMetadata)
    (rest : list SequenceGroupMetadata) (w : World) :
  world_after (r :: rest) w = world_after rest (world_after_request r w).
Proof. reflexivity. Qed.

Lemma world_after_request_next (r : SequenceGroupMetadata) (w : World) :
  next_generator (world_after_request r w)
  = (next_generator w + if is_prompt r && is_seeded r then 1 else 0)%nat.
Proof.
  unfold world_after_request, is_seeded.
  destruct (is_prompt r); [|cbn; lia].
  destruct (seed (sampling_params r)); cbn; lia.
Qed.

Lemma world_after_next (batch : list SequenceGroupMetadata) (w : World) :
  next_generator (world_after batch w)
  = (next_generator w + seeded_prefills batch)%nat.
Proof.
  unfold seeded_prefills. revert w.
  induction batch as [|r rest IH]; intros w; [cbn; lia|].
  rewrite world_after_cons, IH, world_after_request_next, filter_cons.
  destruct (is_prompt r && is_seeded r).
  - rewrite decide_True by reflexivity. cbn. lia.
  - rewrite decide_False by discriminate. lia.
Qed.

Lemma world_after_request_keeps (r : SequenceGroupMetadata) (w : World)
    (addr : nat) :
  is_Some (get_generator addr w) →
  is_Some (get_generator addr (world_after_request r w)).
Proof.
  intros Hsome. unfold world_after_request.
  destruct (is_prompt r); [|exact Hsome].
  destruct (seed (sampling_params r)); [|exact Hsome].
  unfold get_generator in *. cbn.
  destruct (decide (state r = addr)) as [->|Hne].
  - rewrite lookup_insert_eq. eauto.
  - rewrite lookup_insert_ne by exact Hne. exact Hsome.
Qed.

Lemma world_after_keeps (batch : list SequenceGroupMetadata) (w : World)
    (addr : nat) :
  is_Some (get_generator addr w) →
  is_Some (get_generator addr (world_after batch w)).
Proof.
  revert w. induction batch as [|r rest IH]; intros w Hsome; [exact Hsome|].
  rewrite world_after_cons. apply IH, world_after_request_keeps, Hsome.
Qed.

(** X12. What a step does to the generator handles: on every valid
    batch it creates exactly one handle per seeded prefill request, it
    leaves the handle of every state object that belongs to no request
    of the batch as it was, and it never detaches a handle. *)
Theorem step_frames_generators (sliding_window : option Z)
    (batch : list SequenceGroupMetadata) (w : World) :
  valid_batch batch = true →
  ∃ out w', prepare_input_tensors sliding_window batch w = Ok (out, w')
    ∧ next_generator w' = (next_generator w + seeded_prefills batch)%nat
    ∧ (∀ addr, addr ∉ state <$> batch →
               get_generator addr w' = get_generator addr w)
    ∧ (∀ addr, is_Some (get_generator addr w) →
               is_Some (get_generator addr w')).
Proof.
  intros Hvalid.
  destruct (prepare_input_tensors_ok sliding_window batch w Hvalid)
    as (out & Hrun & _).
  exists out, (world_after batch w). split; [exact Hrun|].
  split; [apply world_after_next|]. split.
  - intros addr Hnotin. apply world_after_other, Hnotin.
  - intros addr. apply world_after_keeps.
Qed.

Lemma step_frames_generators_witness :
  ∃ out w', prepare_input_tensors None batch_two_seeded world_seeded = Ok (out, w')
    ∧ next_generator w' = (1 + 2)%nat
    ∧ (∀ addr, addr ∉ state <$> batch_two_seeded →
               get_generator addr w' = get_generator addr world_seeded)
    ∧ (∀ addr, is_Some (get_generator addr world_seeded) →
               is_Some (get_generator addr w')).
Proof.
  apply (step_frames_generators None batch_two_seeded world_seeded).
  vm_compute. reflexivity.
Defined.

(** ** Failures of the resolver *)

Lemma max_subquery_len_of_total (subquery_lens : option (list Z)) :
  ∃ M, max_subquery_len_of subquery_lens = Ok M.
Proof. destruct subquery_lens as [[|s ss]|]; cbn; eauto. Qed.

Lemma sample_loop_first_failure (M : Z) (subquery_lens : option (list Z))
    (good : list (SequenceGroupMetadata * Z)) (r : SequenceGroupMetadata)
    (rest : list SequenceGroupMetadata) (e : PyError) (i : nat) (st : SampleLocals) :
  (∀ k rs, good !! k = Some rs → resolvable subquery_lens (i + k) rs) →
  (∀ st1, sample_body M subquery_lens (i + length good) r st1 = Raise e) →
  sample_loop M subquery_lens i (good.*1 ++ r :: rest) st = Raise e.
Proof.
  revert i st. induction good as [|[g sub] good IH]; intros i st Hres Hbody.
  - cbn. cbn in Hbody. rewrite Nat.add_0_r in Hbody. rewrite Hbody. reflexivity.
  - destruct (sample_body_ok M subquery_lens i g sub st) as (st1 & Hg & _).
    { specialize (Hres 0%nat (g, sub) eq_refl).
      rewrite Nat.add_0_r in Hres. exact Hres. }
    cbn [fmap list_fmap fst app sample_loop]. rewrite Hg. cbn [mbind result_bind].
    apply IH.
    + intros k rs Hk. specialize (Hres (S k) rs Hk).
      rewrite Nat.add_succ_r in Hres. exact Hres.
    + intros st2. cbn [length] in Hbody. rewrite Nat.add_succ_r in Hbody.
      apply Hbody.
Qed.

(** X13. The resolver's own checks on a prefill request: when the
    requests before it are served, a prompt-phase request whose number
    of sequences is not one, or that arrives without a subquery-length
    list, makes [_prepare_sample] raise an assertion error; one whose
    index is beyond the end of the subquery-length list makes it raise
    an index error. *)
Theorem prepare_sample_prompt_failures
    (good : list (SequenceGroupMetadata * Z)) (r : SequenceGroupMetadata)
    (rest : list SequenceGroupMetadata) (prompt_lens : list Z)
    (subquery_lens : option (list Z)) (w : World) :
  (∀ k rs, good !! k = Some rs → resolvable subquery_lens k rs) →
  is_prompt r = true →
  (length (seq_data r) ≠ 1%nat →
     _prepare_sample (good.*1 ++ r :: rest) prompt_lens subquery_lens w
       = Raise AssertionError)
  ∧ (length (seq_data r) = 1%nat → subquery_lens = None →
       _prepare_sample (good.*1 ++ r :: rest) prompt_lens subquery_lens w
         = Raise AssertionError)
  ∧ (length (seq_data r) = 1%nat →
     ∀ subs, subquery_lens = Some subs → (length subs ≤ length good)%nat →
       _prepare_sample (good.*1 ++ r :: rest) prompt_lens subquery_lens w
         = Raise IndexError).
Proof.
  intros Hres Hp.
  destruct (max_subquery_len_of_total subquery_lens) as [M HM].
  assert (Hrun : ∀ e,
            (∀ st1, sample_body M subquery_lens (0 + length good) r st1 = Raise e) →
            _prepare_sample (good.*1 ++ r :: rest) prompt_lens subquery_lens w
              = Raise e).
  { intros e Hbody. unfold _prepare_sample. rewrite HM. cbn [mbind result_bind].
    rewrite (sample_loop_first_failure M subquery_lens good r rest e 0);
      [reflexivity| |exact Hbody].
    intros k rs Hk. apply Hres, Hk. }
  split; [|split].
  - intros Hmany. apply Hrun. intros st1.
    unfold sample_body, sample_prompt_branch, seq_ids_of. rewrite Hp.
    rewrite py_assert_false; [reflexivity|].
    apply Z.eqb_neq. unfold len. rewrite length_fmap. lia.
  - intros Hone ->. apply Hrun. intros st1.
    unfold sample_body, sample_prompt_branch, seq_ids_of. rewrite Hp.
    rewrite py_assert_true; [reflexivity|].
    apply Z.eqb_eq. unfold len. rewrite length_fmap, Hone. reflexivity.
  - intros Hone subs -> Hshort. apply Hrun. intros st1.
    unfold sample_body, sample_prompt_branch, seq_ids_of. rewrite Hp.
    rewrite py_assert_true; cycle 1.
    { apply Z.eqb_eq. unfold len. rewrite length_fmap, Hone. reflexivity. }
    cbn [mbind result_bind]. unfold subquery_len_at.
    rewrite lookup_ge_None_2 by (cbn; lia). reflexivity.
Qed.

Lemma prepare_sample_prompt_failures_witness :
  _prepare_sample
    ([(prefill 7 [11; 12] GREEDY None None 0, 2)].*1
     ++ request true [(8, [21]); (9, [22])] GREEDY None None 1 :: [])
    [2; 1] (Some [2; 1]) world0 = Raise AssertionError
  ∧ _prepare_sample
      ([(decode [(7, [11; 12])] GREEDY None 0, 0)].*1
       ++ prefill 8 [21] GREEDY None None 1 :: [])
      [] None world0 = Raise AssertionError
  ∧ _prepare_sample
      ([(prefill 7 [11; 12] GREEDY None None 0, 2)].*1
       ++ prefill 8 [21] GREEDY None None 1 :: [])
      [2; 1] (Some [2]) world0 = Raise IndexError.
Proof.
  split; [|split].
  - refine (proj1 (prepare_sample_prompt_failures
             [(prefill 7 [11; 12] GREEDY None None 0, 2)]
             (request true [(8, [21]); (9, [22])] GREEDY None None 1) []
             [2; 1] (Some [2; 1]) world0 _ _) _).
    + intros [|k] rs Hk Hp; [|discriminate].
      injection Hk as <-. split; reflexivity.
    + reflexivity.
    + intros H. vm_compute in H. discriminate H.
  - refine (proj1 (proj2 (prepare_sample_prompt_failures
             [(decode [(7, [11; 12])] GREEDY None 0, 0)]
             (prefill 8 [21] GREEDY None None 1) [] [] None world0 _ _)) _ _).
    + intros [|k] rs Hk Hp; [|discriminate].
      injection Hk as <-. discriminate Hp.
    + reflexivity.
    + reflexivity.
    + reflexivity.
  - refine (proj2 (proj2 (prepare_sample_prompt_failures
             [(prefill 7 [11; 12] GREEDY None None 0, 2)]
             (prefill 8 [21] GREEDY None None 1) [] [2; 1] (Some [2]) world0 _ _))
             _ [2] _ _).
    + intros [|k] rs Hk Hp; [|discriminate].
      injection Hk as <-. split; reflexivity.
    + reflexivity.
    + reflexivity.
    + reflexivity.
    + vm_compute. lia.
Defined.

(** ** Failures of the decode builder *)

Lemma decode_body_ok (sliding_window : option Z) (r : SequenceGroupMetadata)
    (st : DecodeLocals) :
  decode_request_ok r = true →
  ∃ st', decode_body sliding_window r st = Ok st'.
Proof.
  intros Hok. unfold decode_request_ok in Hok.
  apply andb_true_iff in Hok as [Hphase Hseqs].
  destruct (decode_seq_loop_ok sliding_window r (seq_data r) st Hseqs)
    as (toks & blocks & Hloop & _).
  unfold decode_body. rewrite py_assert_true by exact Hphase.
  cbn [mbind result_bind]. rewrite Hloop. eauto.
Qed.

(** X14. The decode builder makes the same check on storage blocks as
    the prefill builder: when the requests before it are sound, a decode
    request whose first sequence has no block table, or a block-table
    entry that does not hold exactly one block, makes [_prepare_decode]
    raise an assertion error, under every sliding window. *)
Theorem prepare_decode_block_failure (sliding_window : option Z)
    (good rest : list SequenceGroupMetadata) (r : SequenceGroupMetadata) :
  forallb decode_request_ok good = true →
  is_prompt r = false →
  first_sequence_unassigned r = true →
  _prepare_decode sliding_window (good ++ r :: rest) = Raise AssertionError.
Proof.
  intros Hgood Hp Hbad.
  assert (Hbody : ∀ st, decode_body sliding_window r st = Raise AssertionError).
  { intros st. unfold first_sequence_unassigned in Hbad.
    unfold decode_body. rewrite Hp. cbn [negb py_assert mbind result_bind].
    destruct (seq_data r) as [|[seq_id sd] more]; [discriminate|].
    apply andb_true_iff in Hbad as [Htok Hblock].
    cbn [decode_seq_loop]. unfold decode_seq_body, get_last_token_id.
    destruct (last (token_ids sd)) as [t|] eqn:Hlast; cycle 1.
    { apply last_None in Hlast. rewrite Hlast in Htok. discriminate. }
    cbn [mbind result_bind]. unfold single_block.
    destruct (block_tables r) as [tables|]; [|reflexivity].
    destruct (tables !! seq_id) as [block_table|]; [|discriminate].
    apply negb_true_iff in Hblock. rewrite Hblock. reflexivity. }
  assert (Hloop : ∀ st, decode_loop sliding_window (good ++ r :: rest) st
                        = Raise AssertionError).
  { clear Hp Hbad. induction good as [|g good IH]; intros st.
    - cbn. rewrite Hbody. reflexivity.
    - cbn in Hgood. apply andb_true_iff in Hgood as [Hg Hgood].
      destruct (decode_body_ok sliding_window g st Hg) as [st' Hg'].
      cbn [app decode_loop]. rewrite Hg'. cbn [mbind result_bind].
      apply IH, Hgood. }
  unfold _prepare_decode, decode_locals. rewrite py_assert_true; cycle 1.
  { apply Z.ltb_lt. unfold len. rewrite length_app. cbn. lia. }
  cbn [mbind result_bind]. rewrite Hloop. reflexivity.
Qed.

Lemma prepare_decode_block_failure_witness :
  _prepare_decode (Some 4) batch_decode_two_blocks = Raise AssertionError.
Proof.
  apply (prepare_decode_block_failure (Some 4)
           [decode [(7, [11; 12; 13])] GREEDY None 0] []);
    vm_compute; reflexivity.
Defined.

(** ** Prefill batches without prompt log-probabilities *)

Lemma plain_prefill_rows (M cursor : Z) (reqs : list (SequenceGroupMetadata * Z)) :
  Forall (λ rs, is_prompt rs.1 = true ∧ has_prompt_logprobs rs.1 = false) reqs →
  (batch_rows M cursor reqs).*1
  = imap (λ i rs, cursor + Z.of_nat i * M + rs.2 - 1) reqs.
Proof.
  intros Hall. revert cursor.
  induction Hall as [|[r sub] rest [Hp Hplp] _ IH]; intros cursor; [reflexivity|].
  cbn [fst snd] in Hp, Hplp. cbn [batch_rows]. rewrite imap_cons.
  rewrite fmap_app, request_rows_indices, IH, Hp, Hplp.
  unfold request_stride. rewrite Hp. cbn [app fst snd].
  apply (f_equal2 cons); [lia|].
  apply imap_ext. intros i rs _. unfold compose.
  replace (Z.of_nat (S i)) with (Z.of_nat i + 1) by lia. lia.
Qed.

Lemma plain_prefill_bucket (t : SamplingType) (ccur : Z)
    (reqs : list (SequenceGroupMetadata * Z)) :
  Forall (λ rs, is_prompt rs.1 = true ∧ has_prompt_logprobs rs.1 = false) reqs →
  batch_bucket t ccur reqs
  = mjoin (imap (λ i rs, if decide (sampling_type (sampling_params rs.1) = t)
                         then [ccur + Z.of_nat i] else []) reqs).
Proof.
  intros Hall. revert ccur.
  induction Hall as [|[r sub] rest [Hp Hplp] _ IH]; intros ccur; [reflexivity|].
  cbn [fst snd] in Hp, Hplp. cbn [batch_bucket]. rewrite imap_cons.
  cbn [mjoin list_join fst]. rewrite IH.
  unfold request_bucket, bucket_stride. rewrite Hp, Hplp, Z.add_0_r.
  apply (f_equal2 app); [destruct (decide _); reflexivity|]. f_equal.
  apply imap_ext. intros i rs _. unfold compose.
  destruct (decide _); [|reflexivity].
  apply (f_equal (λ x, [x])). lia.
Qed.

(** X15. A prefill batch in which no request asks for
    [prompt_logprobs]: request [i] selects the one index
    [i * M + len_i - 1], with [M] the maximum prompt length, and enters
    the bucket of its strategy as position [i]; so there is one selected
    index per request. *)
Theorem plain_prefill_indices (sliding_window : option Z)
    (batch : list SequenceGroupMetadata) (w : World) :
  prefill_batch_ok batch = true →
  0 < batch_max_subquery_len batch →
  no_prompt_logprobs batch = true →
  let M := batch_max_subquery_len batch in
  ∃ out w', prepare_input_tensors sliding_window batch w = Ok (out, w')
    ∧ selected_of out = imap (λ i r, Z.of_nat i * M + prompt_len_of r - 1) batch
    ∧ (∀ t, bucket_of out t
            = mjoin (imap (λ i r, if decide (sampling_type (sampling_params r) = t)
                                  then [Z.of_nat i] else []) batch))
    ∧ length (selected_of out) = length batch.
Proof.
  intros Hok Hpos Hplain M.
  assert (Hvalid : valid_batch batch = true).
  { unfold valid_batch. rewrite Hok.
    apply Z.ltb_lt in Hpos. rewrite Hpos. reflexivity. }
  destruct (prepare_input_tensors_ok sliding_window batch w Hvalid)
    as (out & Hrun & Hsel & Hcat & _).
  destruct (valid_batch_phases batch Hvalid)
    as [(_ & _ & Hphase & _)|(Hdec & Hphase)]; cycle 1.
  { destruct (batch_ok_cons _ _ Hok) as (r & rest' & Heq & Hr & _).
    apply prefill_request_ok_inv in Hr as [Hp _]. rewrite Heq in Hphase.
    inversion Hphase as [|? ? Hp' _]; subst. congruence. }
  assert (Hall : Forall (λ rs, is_prompt rs.1 = true
                               ∧ has_prompt_logprobs rs.1 = false)
                   (with_subquery_lens batch)).
  { unfold with_subquery_lens, no_prompt_logprobs in *. apply Forall_fmap.
    rewrite forallb_forall in Hplain. rewrite Forall_forall in Hphase.
    apply Forall_forall. intros r Hr. cbn. split; [apply Hphase, Hr|].
    apply negb_true_iff, Hplain, list_elem_of_In, Hr. }
  assert (Hselected : selected_of out
                      = imap (λ i r, Z.of_nat i * M + prompt_len_of r - 1) batch).
  { rewrite Hsel. unfold selected_rows. rewrite plain_prefill_rows by exact Hall.
    unfold with_subquery_lens. rewrite imap_fmap. apply imap_ext.
    intros i r Hr. unfold compose. cbn [snd].
    rewrite Forall_lookup in Hphase. rewrite (Hphase i r Hr). fold M. lia. }
  exists out, (world_after batch w). split; [exact Hrun|].
  split; [exact Hselected|]. split.
  - intros t. rewrite Hcat, plain_prefill_bucket by exact Hall.
    unfold with_subquery_lens. rewrite imap_fmap. reflexivity.
  - rewrite Hselected. apply length_imap.
Qed.

Lemma plain_prefill_indices_witness :
  ∃ out w', prepare_input_tensors None batch_3_5 world0 = Ok (out, w')
    ∧ selected_of out = [0 * 5 + 3 - 1; 1 * 5 + 5 - 1]
    ∧ (∀ t, bucket_of out t
            = mjoin (imap (λ i r, if decide (sampling_type (sampling_params r) = t)
                                  then [Z.of_nat i] else []) batch_3_5))
    ∧ length (selected_of out) = 2%nat.
Proof.
  apply (plain_prefill_indices None batch_3_5 world0); vm_compute; reflexivity.
Defined.

(** ** The merged sequence data *)

Lemma foldl_insert_other (l : list (Z * SequenceData)) (m : gmap Z SequenceData)
    (k : Z) :
  k ∉ l.*1 →
  foldl (λ m e, <[e.1 := e.2]> m) m l !! k = m !! k.
Proof.
  revert m. induction l as [|[k' v'] l IH]; intros m Hnotin; [reflexivity|].
  rewrite fmap_cons in Hnotin. apply not_elem_of_cons in Hnotin as [Hne Hrest].
  cbn [foldl]. rewrite IH by exact Hrest. cbn [fst snd] in *.
  apply lookup_insert_ne. intros ->. apply Hne. reflexivity.
Qed.

Lemma foldl_insert_found (l : list (Z * SequenceData)) (m : gmap Z SequenceData)
    (k : Z) (v : SequenceData) :
  NoDup l.*1 → (k, v) ∈ l →
  foldl (λ m e, <[e.1 := e.2]> m) m l !! k = Some v.
Proof.
  revert m. induction l as [|[k' v'] l IH]; intros m Hnodup Hin; [inversion Hin|].
  rewrite fmap_cons in Hnodup. apply NoDup_cons in Hnodup as [Hnotin Hnodup].
  cbn [foldl]. apply elem_of_cons in Hin as [[= -> ->]|Hin].
  - rewrite foldl_insert_other by exact Hnotin. cbn. apply lookup_insert_eq.
  - apply IH; assumption.
Qed.

Lemma foldl_insert_dom (l : list (Z * SequenceData)) (m : gmap Z SequenceData)
    (k : Z) :
  is_Some (foldl (λ m e, <[e.1 := e.2]> m) m l !! k) →
  is_Some (m !! k) ∨ k ∈ l.*1.
Proof.
  revert m. induction l as [|[k' v'] l IH]; intros m Hsome; [left; exact Hsome|].
  cbn [foldl] in Hsome. apply IH in Hsome as [Hsome|Hin].
  - cbn in Hsome. destruct (decide (k' = k)) as [->|Hne].
    + right. rewrite fmap_cons. apply list_elem_of_here.
    + rewrite lookup_insert_ne in Hsome by exact Hne. left. exact Hsome.
  - right. rewrite fmap_cons. apply list_elem_of_further, Hin.
Qed.

Lemma merged_seq_data_flat (batch : list SequenceGroupMetadata)
    (m : gmap Z SequenceData) :
  foldl (λ m r, foldl (λ m e, <[e.1 := e.2]> m) m (seq_data r)) m batch
  = foldl (λ m e, <[e.1 := e.2]> m) m (all_sequences batch).*2.
Proof.
  revert m. induction batch as [|r rest IH]; intros m; [reflexivity|].
  rewrite all_sequences_cons, fmap_app, foldl_app. cbn [foldl]. rewrite IH.
  do 2 f_equal. rewrite <- list_fmap_compose. symmetry. apply list_fmap_id.
Qed.

Lemma prepare_sample_seq_data (batch : list SequenceGroupMetadata)
    (prompt_lens : list Z) (subquery_lens : option (list Z)) (w w' : World)
    (md : SamplingMetadata) :
  _prepare_sample batch prompt_lens subquery_lens w = Ok (md, w') →
  sm_seq_data md = merged_seq_data batch.
Proof.
  unfold _prepare_sample.
  intros (M & _ & (st & _ & Hret)%bind_Ok_inv)%bind_Ok_inv.
  injection Hret as <- _. reflexivity.
Qed.

(** X16. The merged sequence data finds every sequence: on a valid
    batch whose sequence ids are pairwise distinct, the [seq_data] of
    the sampling metadata maps the id of every sequence of every request
    to the data of that sequence, and maps no other id. *)
Theorem merged_seq_data_lookup (sliding_window : option Z)
    (batch : list SequenceGroupMetadata) (w : World) :
  valid_batch batch = true →
  NoDup (all_seq_ids batch) →
  ∃ out w', prepare_input_tensors sliding_window batch w = Ok (out, w')
    ∧ (∀ r seq_id sd, r ∈ batch → (seq_id, sd) ∈ seq_data r →
         sm_seq_data (sampling_metadata out) !! seq_id = Some sd)
    ∧ (∀ seq_id, is_Some (sm_seq_data (sampling_metadata out) !! seq_id) →
         seq_id ∈ all_seq_ids batch).
Proof.
  intros Hvalid Hnodup.
  destruct (prepare_input_tensors_ok sliding_window batch w Hvalid)
    as (out & Hrun & _).
  exists out, (world_after batch w). split; [exact Hrun|].
  assert (Hdata : sm_seq_data (sampling_metadata out) = merged_seq_data batch).
  { pose proof (prepare_input_tensors_inv _ _ _ _ _ Hrun)
      as (first & rest & _ & Hinv).
    destruct (is_prompt first).
    - destruct Hinv as (po & _ & Hmd & _). eapply prepare_sample_seq_data, Hmd.
    - destruct Hinv as (d & _ & Hmd & _). eapply prepare_sample_seq_data, Hmd. }
  rewrite Hdata. unfold merged_seq_data. rewrite merged_seq_data_flat.
  unfold all_seq_ids in *. split.
  - intros r seq_id sd Hr Hentry. apply foldl_insert_found; [exact Hnodup|].
    unfold all_sequences. apply list_elem_of_fmap.
    exists (r, (seq_id, sd)). split; [reflexivity|].
    apply list_elem_of_bind. exists r. split; [|exact Hr].
    apply list_elem_of_fmap. exists (seq_id, sd). auto.
  - intros seq_id [Hsome|Hin]%foldl_insert_dom; [|exact Hin].
    rewrite lookup_empty in Hsome. destruct Hsome as [? [=]].
Qed.

Lemma merged_seq_data_lookup_witness :
  ∃ out w', prepare_input_tensors None batch_two_sequences world0 = Ok (out, w')
    ∧ (∀ r seq_id sd, r ∈ batch_two_sequences → (seq_id, sd) ∈ seq_data r →
         sm_seq_data (sampling_metadata out) !! seq_id = Some sd)
    ∧ (∀ seq_id, is_Some (sm_seq_data (sampling_metadata out) !! seq_id) →
         seq_id ∈ all_seq_ids batch_two_sequences).
Proof.
  apply (merged_seq_data_lookup None batch_two_sequences world0).
  - vm_compute. reflexivity.
  - apply (bool_decide_unpack _). vm_compute. exact I.
Defined.

(** ** Contract violations, seen from the step *)

Lemma prepare_decode_empty (sliding_window : option Z) :
  _prepare_decode sliding_window [] = Raise AssertionError.
Proof. reflexivity. Qed.

(** C9 (as the code has it). A step on the empty batch fails with an
    index error, on the orchestrator's read of the first request; the
    assertion of the builders on an empty batch is met only when a
    builder is called on its own.  A prefill request with more than one
    sequence or with more than one storage block aborts the step: the
    step raises and returns no batch, and when the requests before the
    offending one meet the contract the exception is the assertion
    error of the offending request. *)
Theorem contract_violations_abort_step :
  (∀ sliding_window w,
     prepare_input_tensors sliding_window [] w = Raise IndexError)
  ∧ _prepare_prompt [] = Raise AssertionError
  ∧ (∀ sliding_window, _prepare_decode sliding_window [] = Raise AssertionError)
  ∧ (∀ sliding_window batch w,
       existsb (λ r, is_prompt r && violates_prefill_contract r) batch = true →
       is_Raise (prepare_input_tensors sliding_window batch w))
  ∧ (∀ sliding_window good r rest w,
       forallb prefill_request_ok good = true →
       is_prompt r = true →
       violates_prefill_contract r = true →
       prepare_input_tensors sliding_window (good ++ r :: rest) w
         = Raise AssertionError).
Proof.
  destruct prepare_prompt_violations as (Hempty & Hany & Hfirst).
  split; [reflexivity|]. split; [exact Hempty|].
  split; [apply prepare_decode_empty|]. split.
  - intros sliding_window batch w Hex.
    assert (Hviolates : existsb violates_prefill_contract batch = true).
    { apply existsb_exists in Hex as (r & Hr & [_ Hv]%andb_true_iff).
      apply existsb_exists. eauto. }
    assert (Hprompt : existsb is_prompt batch = true).
    { apply existsb_exists in Hex as (r & Hr & [Hp _]%andb_true_iff).
      apply existsb_exists. eauto. }
    unfold prepare_input_tensors.
    destruct batch as [|first rest] eqn:Hbatch; [discriminate|].
    rewrite <- Hbatch in *. destruct (is_prompt first).
    + apply is_Raise_bind, Hany, Hviolates.
    + apply is_Raise_bind. unfold _prepare_decode, decode_locals.
      rewrite py_assert_true by (rewrite Hbatch; reflexivity).
      cbn [mbind result_bind].
      apply is_Raise_bind, is_Raise_bind, decode_loop_prompt_request, Hprompt.
  - intros sliding_window good r rest w Hgood Hp Hv.
    pose proof (Hfirst good r rest Hgood Hv) as Hbuilder.
    unfold prepare_input_tensors.
    destruct (good ++ r :: rest) as [|first batch'] eqn:Hbatch.
    { destruct good; discriminate. }
    assert (Hphase : is_prompt first = true).
    { destruct good as [|g good'].
      - injection Hbatch as <- _. exact Hp.
      - injection Hbatch as <- _. cbn in Hgood.
        apply andb_true_iff in Hgood as [Hg _].
        apply prefill_request_ok_inv in Hg as [Hg _]. exact Hg. }
    rewrite Hphase, Hbuilder. reflexivity.
Qed.

Lemma contract_violations_abort_step_witness :
  is_Raise (prepare_input_tensors None batch_bad_last world0)
  ∧ prepare_input_tensors None
      ([prefill 7 [11; 12] GREEDY None None 0]
       ++ {| is_prompt := true;
             seq_data := [(8, {| token_ids := [21] |})];
             sampling_params :=
               {| sampling_type := GREEDY; seed := None; prompt_logprobs := None |};
             block_tables := Some {[ 8 := [108; 109] ]};
             state := 1 |}
       :: [prefill 9 [31] GREEDY None None 2]) world0
    = Raise AssertionError.
Proof.
  destruct contract_violations_abort_step as (_ & _ & _ & Hany & Hfirst).
  split.
  - apply (Hany None batch_bad_last world0). vm_compute. reflexivity.
  - apply Hfirst; vm_compute; reflexivity.
Defined.

(** C9 (as stated) fails for the empty batch: the step does not end in
    an assertion failure but in the index error of reading the first
    request of an empty list. *)
Lemma empty_batch_step_is_index_error :
  prepare_input_tensors None [] world0 = Raise IndexError
  ∧ prepare_input_tensors None [] world0 ≠ Raise AssertionError.
Proof. split; [reflexivity | discriminate]. Qed.
